(** * Placeholder engine: parser, registry, text and JSON processors

    A shallow embedding of the TypeScript sources
      - [src/core/PlaceholderParser.ts]
      - [src/core/PluginRegistry.ts]
      - [src/formats/TextProcessor.ts]
      - [src/formats/JsonProcessor.ts]
      - [src/plugins/MockPlugin.ts], [GeneratorPlugin.ts], [TimePlugin.ts]
    followed by the properties of the specification that are stated about
    them.

    Conventions of the embedding.
      - A JavaScript string is a [string]; a code unit is an [ascii], so the
        model covers code units below 256.
      - A JavaScript number is an integer [Z]; fractional and non-finite
        doubles are outside the model.
      - [throw] is the [Err] case of [result]; the payload is the message of
        the thrown [Error].
      - [await] is sequential composition: a plugin is a function of its
        request. *)

From Stdlib Require Import String Ascii List ZArith Lia Bool Arith.
Import ListNotations.

Open Scope string_scope.
Open Scope Z_scope.

(** ** Results of fallible code *)

Inductive result (A : Type) : Type :=
| OK (a : A)
| Err (msg : string).

Arguments OK {A} a.
Arguments Err {A} msg.

Definition bind {A B : Type} (r : result A) (k : A -> result B) : result B :=
  match r with
  | OK a => k a
  | Err msg => Err msg
  end.

Notation "x <- r ;; k" := (bind r (fun x => k))
  (at level 61, r at next level, right associativity).

(** [for (const x of xs) { acc = await f(acc, x) }] with exceptions. *)
Fixpoint foldM {A S : Type} (f : S -> A -> result S) (xs : list A) (s : S)
  : result S :=
  match xs with
  | [] => OK s
  | x :: xs' => s' <- f s x ;; foldM f xs' s'
  end.

(** ** JavaScript strings *)

Module JsString.

(** WhiteSpace and LineTerminator code units that [String.prototype.trim]
    strips (those below 256): TAB, LF, VT, FF, CR, SP, NBSP. *)
Definition isWhiteSpace (c : ascii) : bool :=
  let n := nat_of_ascii c in
  ((9 <=? n) && (n <=? 13) || (n =? 32) || (n =? 160))%nat.

(** The code units the regular-expression atom [.] does not match. *)
Definition isLineTerminator (c : ascii) : bool :=
  let n := nat_of_ascii c in
  ((n =? 10) || (n =? 13))%nat.

Fixpoint trimStart (s : string) : string :=
  match s with
  | EmptyString => EmptyString
  | String c s' => if isWhiteSpace c then trimStart s' else s
  end.

Fixpoint trimEnd (s : string) : string :=
  match s with
  | EmptyString => EmptyString
  | String c s' =>
      match trimEnd s' with
      | EmptyString => if isWhiteSpace c then EmptyString else String c EmptyString
      | t => String c t
      end
  end.

Definition trim (s : string) : string := trimEnd (trimStart s).

Definition len (s : string) : Z := Z.of_nat (String.length s).

(** [s.slice(from, to)]: negative indices count from the end, both are
    clamped to the string. *)
Definition sliceIndex (s : string) (k : Z) : Z :=
  if k <? 0 then Z.max (len s + k) 0 else Z.min k (len s).

Definition slice (s : string) (from to : Z) : string :=
  let f := sliceIndex s from in
  let t := sliceIndex s to in
  substring (Z.to_nat f) (Z.to_nat (t - f)) s.

Definition startsWith (s p : string) : bool := prefix p s.

Fixpoint endsWith (s p : string) : bool :=
  if String.eqb s p then true
  else match s with
       | EmptyString => false
       | String _ s' => endsWith s' p
       end.

(** [s.indexOf(p)], with [-1] when [p] does not occur. *)
Fixpoint indexOfFrom (s p : string) (i : Z) : Z :=
  if prefix p s then i
  else match s with
       | EmptyString => -1
       | String _ s' => indexOfFrom s' p (i + 1)
       end.

Definition indexOf (s p : string) : Z := indexOfFrom s p 0.

Definition includes (s p : string) : bool := 0 <=? indexOf s p.

Fixpoint forallChars (f : ascii -> bool) (s : string) : bool :=
  match s with
  | EmptyString => true
  | String c s' => f c && forallChars f s'
  end.

(** [parts.join(sep)] *)
Fixpoint join (sep : string) (parts : list string) : string :=
  match parts with
  | [] => ""
  | [p] => p
  | p :: ps => p ++ sep ++ join sep ps
  end.

(** [s.split(sep)] for a separator of one code unit. *)
Fixpoint splitChar (sep : ascii) (s : string) : list string :=
  match s with
  | EmptyString => [""]
  | String c s' =>
      if Ascii.eqb c sep then "" :: splitChar sep s'
      else match splitChar sep s' with
           | [] => [String c ""]
           | p :: ps => String c p :: ps
           end
  end.

(** The expansion of the replacement patterns [$$], [$&], [$`] and [$']
    that [replace] and [replaceAll] apply to a replacement string
    (GetSubstitution); with a string pattern there are no captures, so
    [$1] and [$<] stay as they are. *)
Fixpoint getSubstitution (matched before after template : string) : string :=
  match template with
  | EmptyString => EmptyString
  | String c t =>
      if Ascii.eqb c "$" then
        match t with
        | String d t' =>
            if Ascii.eqb d "$" then String "$" (getSubstitution matched before after t')
            else if Ascii.eqb d "&" then matched ++ getSubstitution matched before after t'
            else if Ascii.eqb d "`" then before ++ getSubstitution matched before after t'
            else if Ascii.eqb d "'" then after ++ getSubstitution matched before after t'
            else String c (getSubstitution matched before after t)
        | EmptyString => String c EmptyString
        end
      else String c (getSubstitution matched before after t)
  end.

(** The double quote, as a string. *)
Definition quote : string := String (ascii_of_nat 34) EmptyString.

Definition dropChars (n : nat) (s : string) : string :=
  substring n (String.length s - n) s.

(** [whole.replaceAll(pat, repl)], scanning the suffix [s] of [whole] that
    starts at index [pos]; [skip] counts the code units of a match still to be
    passed over.  The search string is a found token here, hence not empty;
    on the empty search string the function returns its input. *)
Fixpoint replaceAllFrom (whole pat repl : string) (s : string) (pos skip : nat)
  : string :=
  match s with
  | EmptyString => EmptyString
  | String c s' =>
      match skip with
      | S k => replaceAllFrom whole pat repl s' (S pos) k
      | O =>
          if prefix pat s && negb (String.eqb pat "") then
            getSubstitution pat (substring 0 pos whole)
              (dropChars (pos + String.length pat) whole) repl
            ++ replaceAllFrom whole pat repl s' (S pos) (String.length pat - 1)
          else String c (replaceAllFrom whole pat repl s' (S pos) O)
      end
  end.

Definition replaceAll (s pat repl : string) : string :=
  replaceAllFrom s pat repl s 0 0.

(** [s.replace(pat, repl)] with a string pattern: the first occurrence
    only. *)
Definition replace (s pat repl : string) : string :=
  let i := indexOf s pat in
  if i <? 0 then s
  else
    let before := substring 0 (Z.to_nat i) s in
    let after := dropChars (Z.to_nat i + String.length pat) s in
    before ++ getSubstitution pat before after repl ++ after.

Definition isDigit (c : ascii) : bool :=
  let n := nat_of_ascii c in ((48 <=? n) && (n <=? 57))%nat.

Fixpoint digitsValue (s : string) (acc : Z) : Z :=
  match s with
  | EmptyString => acc
  | String c s' =>
      if isDigit c then digitsValue s' (10 * acc + Z.of_nat (nat_of_ascii c - 48))
      else acc
  end.

Fixpoint takeDigits (s : string) : string :=
  match s with
  | EmptyString => EmptyString
  | String c s' => if isDigit c then String c (takeDigits s') else EmptyString
  end.

(** [parseFloat(s)] on decimal integer literals: leading white space, an
    optional sign, then the longest run of digits; [None] is [NaN].  A
    literal that continues with a fraction or an exponent, or whose value
    is not a safe integer (2^53 or more in magnitude, where the code
    rounds), is outside the model. *)
Definition parseFloat (s : string) : option Z :=
  match trimStart s with
  | String c t =>
      if Ascii.eqb c "-" then
        match takeDigits t with
        | EmptyString => None
        | ds => Some (- digitsValue ds 0)
        end
      else if Ascii.eqb c "+" then
        match takeDigits t with
        | EmptyString => None
        | ds => Some (digitsValue ds 0)
        end
      else
        match takeDigits (String c t) with
        | EmptyString => None
        | ds => Some (digitsValue ds 0)
        end
  | EmptyString => None
  end.

(** [Number(s)] on decimal integer literals: the whole trimmed string must
    be the literal, the empty string is [0]; [None] is [NaN].  A string
    that JavaScript reads as a fraction, an exponent form, a literal with a
    radix prefix or [Infinity], or whose value is not a safe integer, is
    outside the model. *)
Definition toNumber (s : string) : option Z :=
  match trim s with
  | EmptyString => Some 0
  | String c t =>
      let body := if Ascii.eqb c "-" || Ascii.eqb c "+" then t else String c t in
      if forallChars isDigit body && negb (String.eqb body "") then
        Some (if Ascii.eqb c "-" then - digitsValue body 0 else digitsValue body 0)
      else None
  end.

Definition digitChar (d : nat) : ascii := ascii_of_nat (48 + d).

Fixpoint zDigits (fuel : nat) (z : Z) (acc : string) : string :=
  match fuel with
  | O => acc
  | S fuel' =>
      let acc' := String (digitChar (Z.to_nat (z mod 10))) acc in
      if z <? 10 then acc' else zDigits fuel' (z / 10) acc'
  end.

(** [String(z)] for a safe integer (below 2^53 in magnitude): decimal
    digits, most significant first (a number of [k] bits has at most [k]
    digits).  Larger numbers, which the code rounds and from 10^21 on
    prints with an exponent, are outside the model. *)
Definition ofZ (z : Z) : string :=
  let digits n := zDigits (S (Z.to_nat (Z.log2 n))) n "" in
  if z <? 0 then String "-" (digits (- z)) else digits z.

(** [String(n)] for an index or a length. *)
Definition ofNat (n : nat) : string := ofZ (Z.of_nat n).

Definition upperChar (c : ascii) : ascii :=
  let n := nat_of_ascii c in
  if ((97 <=? n) && (n <=? 122))%nat then ascii_of_nat (n - 32) else c.

Fixpoint mapChars (f : ascii -> ascii) (s : string) : string :=
  match s with
  | EmptyString => EmptyString
  | String c s' => String (f c) (mapChars f s')
  end.

(** [s.toUpperCase()] on strings of ASCII code units: the letters a to z
    are mapped, and code units from 128 on are outside the model. *)
Definition toUpperCase (s : string) : string := mapChars upperChar s.

Fixpoint reverseOnto (s acc : string) : string :=
  match s with
  | EmptyString => acc
  | String c s' => reverseOnto s' (String c acc)
  end.

(** [s.split('').reverse().join('')] *)
Definition reverse (s : string) : string := reverseOnto s "".

End JsString.

Import JsString.

(** ** PlaceholderParser *)

Module PlaceholderParser.

Record ParsedTransform : Type := {
  name : string;
  params : list string
}.

Record ParsedPlaceholder : Type := {
  original : string;
  module : string;
  action : string;
  args : list string;
  transforms : list ParsedTransform
}.

(** [/^{{.+}}$/.test(value.trim())]: the trimmed string opens with two
    braces, closes with two braces, and has at least one code unit between
    them, none of which is a line terminator. *)
Definition isPlaceholder (value : string) : bool :=
  let t := trim value in
  startsWith t "{{" && endsWith t "}}" && (5 <=? len t)
  && forallChars (fun c => negb (isLineTerminator c)) (slice t 2 (-2)).

(** [placeholders.add(x)] on a [Set<string>]: insertion order is kept and a
    string already present is not added again. *)
Definition setAdd (x : string) (set : list string) : list string :=
  if existsb (String.eqb x) set then set else (set ++ [x])%list.

Section Scan.

(** The recursive call on the interior of an emitted token. *)
Variable recur : string -> list string -> list string.
Variable content : string.

(** The [for] loop of [findPlaceholdersRecursive]: [rest] is [content]
    from index [i] on. *)
Fixpoint scanFrom (rest : string) (i depth start : Z)
         (placeholders : list string) : list string :=
  match rest with
  | EmptyString => placeholders
  | String char rest1 =>
      match rest1 with
      | EmptyString => placeholders
      | String next rest2 =>
          if Ascii.eqb char "{" && Ascii.eqb next "{" then
            scanFrom rest2 (i + 2) (depth + 1)
                     (if depth =? 0 then i else start) placeholders
          else if Ascii.eqb char "}" && Ascii.eqb next "}" then
            let depth' := depth - 1 in
            if (depth' =? 0) && negb (start =? -1) then
              let placeholder := slice content start (i + 2) in
              let inner := slice placeholder 2 (-2) in
              scanFrom rest2 (i + 2) depth' start
                       (recur inner (setAdd placeholder placeholders))
            else scanFrom rest2 (i + 2) depth' start placeholders
          else scanFrom rest1 (i + 1) depth start placeholders
      end
  end.

End Scan.

(** The recursion on the interior of a token is on a shorter string;
    [fuel] bounds its depth, and any fuel above the length of the content
    gives the same result ([findPlaceholdersRecursive_fuel]). *)
Fixpoint findPlaceholdersRecursive (fuel : nat) (content : string)
         (placeholders : list string) : list string :=
  match fuel with
  | O => placeholders
  | S fuel' =>
      scanFrom (findPlaceholdersRecursive fuel') content content 0 0 (-1)
               placeholders
  end.

Definition findPlaceholders (content : string) : list string :=
  findPlaceholdersRecursive (S (String.length content)) content [].

Definition nextIs (c : ascii) (rest : string) : bool :=
  match rest with
  | String next _ => Ascii.eqb next c
  | EmptyString => false
  end.

Definition pushChar (current : string) (c : ascii) : string :=
  current ++ String c "".

(** After the loop: [if (current) parts.push(current.trim())]. *)
Definition pushLast (parts : list string) (current : string) : list string :=
  if String.eqb current "" then parts else (parts ++ [trim current])%list.

Fixpoint splitByPipeFrom (rest : string) (parts : list string)
         (current : string) (depth : Z) : list string :=
  match rest with
  | EmptyString => pushLast parts current
  | String char rest1 =>
      if Ascii.eqb char "{" && nextIs "{" rest1 then
        splitByPipeFrom rest1 parts (pushChar current char) (depth + 1)
      else if Ascii.eqb char "}" && nextIs "}" rest1 then
        splitByPipeFrom rest1 parts (pushChar current char) (depth - 1)
      else if Ascii.eqb char "|" && (depth =? 0) then
        splitByPipeFrom rest1 (parts ++ [trim current])%list "" depth
      else splitByPipeFrom rest1 parts (pushChar current char) depth
  end.

Definition splitByPipe (content : string) : list string :=
  splitByPipeFrom content [] "" 0.

Fixpoint splitByColonFrom (rest : string) (parts : list string)
         (current : string) (depth : Z) : list string :=
  match rest with
  | EmptyString => pushLast parts current
  | String char rest1 =>
      if Ascii.eqb char "{" && nextIs "{" rest1 then
        splitByColonFrom rest1 parts (pushChar current char) (depth + 1)
      else if Ascii.eqb char "}" && nextIs "}" rest1 then
        splitByColonFrom rest1 parts (pushChar current char) (depth - 1)
      else
        match rest1 with
        | String next rest2 =>
            if Ascii.eqb char "\" && Ascii.eqb next ":" then
              (* escaped colon: the colon is skipped by [i++] *)
              splitByColonFrom rest2 parts (pushChar current ":") depth
            else if Ascii.eqb char ":" && (depth =? 0) then
              splitByColonFrom rest1 (parts ++ [trim current])%list "" depth
            else splitByColonFrom rest1 parts (pushChar current char) depth
        | EmptyString =>
            if Ascii.eqb char ":" && (depth =? 0) then
              splitByColonFrom rest1 (parts ++ [trim current])%list "" depth
            else splitByColonFrom rest1 parts (pushChar current char) depth
        end
  end.

Definition splitByColon (content : string) : list string :=
  splitByColonFrom content [] "" 0.

Definition parseMainPart (mainPart : string)
  : result (string * string * list string) :=
  match splitByColon mainPart with
  | module :: action :: args =>
      OK (trim module, trim action, map trim args)
  | _ =>
      Err ("Invalid placeholder format. Expected at least module:action, got: "
             ++ mainPart)
  end.

(** [transformStr.split(':').map(p => p.trim())], then
    [[name, ...params] = parts]; [split] never returns the empty array. *)
Definition parseTransform (transformStr : string) : ParsedTransform :=
  match map trim (splitChar ":" transformStr) with
  | name :: params => {| name := name; params := params |}
  | [] => {| name := ""; params := [] |}
  end.

(** An empty result of [splitByPipe] would leave [mainPart] undefined and
    make [splitByColon] raise a TypeError on [content.length]. *)
Definition undefinedMainPart : string :=
  "Cannot read properties of undefined (reading 'length')".

Definition parse (placeholder : string) : result ParsedPlaceholder :=
  let trimmed := trim placeholder in
  if negb (isPlaceholder trimmed) then
    Err ("Invalid placeholder format: " ++ placeholder)
  else
    let inner := slice trimmed 2 (-2) in
    match splitByPipe inner with
    | [] => Err undefinedMainPart
    | mainPart :: transformParts =>
        m <- parseMainPart mainPart ;;
        let '(module, action, args) := m in
        OK {| original := trimmed;
              module := module;
              action := action;
              args := args;
              transforms := map parseTransform transformParts |}
    end.

End PlaceholderParser.

Import PlaceholderParser.

(** ** Values *)

(** A JavaScript value as the processors meet it: what [JSON.parse] builds
    and what a plugin or a transform returns in [value].  An object is its
    own enumerable properties in the order [Object.entries] lists them. *)
#[local] Unset Elimination Schemes.

Inductive JsonValue : Type :=
| JNull
| JBool (b : bool)
| JNumber (n : Z)
| JString (s : string)
| JArray (items : list JsonValue)
| JObject (entries : list (string * JsonValue)).

#[local] Set Elimination Schemes.

Section JsonValueInduction.

Variable P : JsonValue -> Prop.
Hypothesis P_null : P JNull.
Hypothesis P_bool : forall b, P (JBool b).
Hypothesis P_number : forall n, P (JNumber n).
Hypothesis P_string : forall s, P (JString s).
Hypothesis P_array : forall items, Forall P items -> P (JArray items).
Hypothesis P_object :
  forall entries, Forall (fun e => P (snd e)) entries -> P (JObject entries).

(** Structural induction through the lists of an array and of an object. *)
Fixpoint JsonValue_induction (v : JsonValue) : P v :=
  match v with
  | JNull => P_null
  | JBool b => P_bool b
  | JNumber n => P_number n
  | JString s => P_string s
  | JArray items =>
      P_array items
        ((fix all (l : list JsonValue) : Forall P l :=
            match l with
            | [] => Forall_nil P
            | x :: l' => Forall_cons x (JsonValue_induction x) (all l')
            end) items)
  | JObject entries =>
      P_object entries
        ((fix all (l : list (string * JsonValue))
            : Forall (fun e => P (snd e)) l :=
            match l with
            | [] => Forall_nil _
            | e :: l' => Forall_cons e (JsonValue_induction (snd e)) (all l')
            end) entries)
  end.

End JsonValueInduction.

Inductive JsonType : Type :=
| TString | TNumber | TBoolean | TObject | TArray | TNull.

(** [String(v)]: an array is its elements joined by commas, with [null]
    elements empty; an object is ["[object Object]"]. *)
Fixpoint toStr (v : JsonValue) : string :=
  match v with
  | JNull => "null"
  | JBool true => "true"
  | JBool false => "false"
  | JNumber n => ofZ n
  | JString s => s
  | JArray items =>
      join "," (map (fun x => match x with JNull => "" | _ => toStr x end) items)
  | JObject _ => "[object Object]"
  end.

(** ** Core types *)

Record PlaceholderResult : Type := {
  value : JsonValue;
  type : JsonType
}.

Definition ProcessContext : Type := list (string * JsonValue).

(** [format] and [mode] select the processor in the engine and are not read
    by the processors. *)
Record ProcessOptions : Type := {
  includePlugins : option (list string);
  excludePlugins : option (list string);
  context : option ProcessContext
}.

(** The request also carries the registry itself, which the plugins of the
    repository do not read. *)
Record PluginResolveRequest : Type := {
  placeholder : ParsedPlaceholder;
  requestContext : ProcessContext
}.

Record PlaceholderPlugin : Type := {
  pluginName : string;
  resolve : PluginResolveRequest -> result PlaceholderResult
}.

Record Transform : Type := {
  transformName : string;
  apply : PlaceholderResult -> list string -> result PlaceholderResult
}.

(** ** PluginRegistry *)

Module PluginRegistry.

(** Two [Map]s keyed by name, in insertion order. *)
Record t : Type := {
  plugins : list (string * PlaceholderPlugin);
  transforms : list (string * Transform)
}.

Definition empty : t := {| plugins := []; transforms := [] |}.

Fixpoint mapGet {V : Type} (m : list (string * V)) (key : string) : option V :=
  match m with
  | [] => None
  | (k, v) :: m' => if String.eqb k key then Some v else mapGet m' key
  end.

Definition mapHas {V : Type} (m : list (string * V)) (key : string) : bool :=
  match mapGet m key with Some _ => true | None => false end.

Definition mapKeys {V : Type} (m : list (string * V)) : list string :=
  map fst m.

Definition registerPlugin (r : t) (plugin : PlaceholderPlugin) : result t :=
  if mapHas (plugins r) (pluginName plugin) then
    Err ("Plugin '" ++ pluginName plugin ++ "' is already registered")
  else
    OK {| plugins := (plugins r ++ [(pluginName plugin, plugin)])%list;
          transforms := transforms r |}.

Definition registerTransform (r : t) (transform : Transform) : result t :=
  if mapHas (transforms r) (transformName transform) then
    Err ("Transform '" ++ transformName transform ++ "' is already registered")
  else
    OK {| plugins := plugins r;
          transforms := (transforms r ++ [(transformName transform, transform)])%list |}.

(** [available || 'none'] *)
Definition orNone (available : string) : string :=
  if String.eqb available "" then "none" else available.

Definition getPluginNames (r : t) : list string := mapKeys (plugins r).

Definition pluginNotFound (r : t) (name : string) : string :=
  "Plugin '" ++ name ++ "' not found. Available plugins: "
    ++ orNone (join ", " (getPluginNames r)).

Definition getPlugin (r : t) (name : string) : result PlaceholderPlugin :=
  match mapGet (plugins r) name with
  | Some plugin => OK plugin
  | None => Err (pluginNotFound r name)
  end.

Definition getTransform (r : t) (name : string) : result Transform :=
  match mapGet (transforms r) name with
  | Some transform => OK transform
  | None =>
      Err ("Transform '" ++ name ++ "' not found. Available transforms: "
             ++ orNone (join ", " (mapKeys (transforms r))))
  end.

Definition hasPlugin (r : t) (name : string) : bool := mapHas (plugins r) name.

Definition hasTransform (r : t) (name : string) : bool :=
  mapHas (transforms r) name.

Definition getTransformNames (r : t) : list string := mapKeys (transforms r).

(** [registerPlugins]: the loop ends at the first plugin [registerPlugin]
    rejects, and the plugins registered before it stay registered.  The
    result is the registry the call leaves and the error it throws, if
    any. *)
Fixpoint registerPlugins (r : t) (toRegister : list PlaceholderPlugin)
  : t * option string :=
  match toRegister with
  | [] => (r, None)
  | plugin :: toRegister' =>
      match registerPlugin r plugin with
      | OK r' => registerPlugins r' toRegister'
      | Err e => (r, Some e)
      end
  end.

Fixpoint registerTransforms (r : t) (toRegister : list Transform)
  : t * option string :=
  match toRegister with
  | [] => (r, None)
  | transform :: toRegister' =>
      match registerTransform r transform with
      | OK r' => registerTransforms r' toRegister'
      | Err e => (r, Some e)
      end
  end.

Definition clear (r : t) : t := empty.

End PluginRegistry.

(** ** Resolution, shared by both processors *)

Definition inList (x : string) (l : list string) : bool :=
  existsb (String.eqb x) l.

(** [options.includePlugins && !options.includePlugins.includes(module)];
    an array, even the empty one, is truthy. *)
Definition notIncluded (options : ProcessOptions) (module : string) : bool :=
  match includePlugins options with
  | Some l => negb (inList module l)
  | None => false
  end.

(** [options.excludePlugins && options.excludePlugins.includes(module)] *)
Definition excluded (options : ProcessOptions) (module : string) : bool :=
  match excludePlugins options with
  | Some l => inList module l
  | None => false
  end.

Definition applyTransform (registry : PluginRegistry.t)
           (result0 : PlaceholderResult) (transform : ParsedTransform)
  : result PlaceholderResult :=
  transformImpl <- PluginRegistry.getTransform registry (name transform) ;;
  apply transformImpl result0 (params transform).

(** The body of the [try] block after the two filter checks: plugin lookup,
    [plugin.resolve], then the transforms in order. *)
Definition resolveWithPlugin (registry : PluginRegistry.t)
           (options : ProcessOptions) (parsed : ParsedPlaceholder)
  : result PlaceholderResult :=
  plugin <- PluginRegistry.getPlugin registry (module parsed) ;;
  result0 <- resolve plugin
    {| placeholder := parsed;
       requestContext := match context options with Some c => c | None => [] end |} ;;
  foldM (applyTransform registry) (PlaceholderParser.transforms parsed) result0.

(** The body of the [try] block of [JsonProcessor.resolvePlaceholder]. *)
Definition tryResolve (registry : PluginRegistry.t) (options : ProcessOptions)
           (placeholder : string) : result JsonValue :=
  parsed <- parse placeholder ;;
  if notIncluded options (module parsed) then OK (JString placeholder)
  else if excluded options (module parsed) then OK (JString placeholder)
  else
    result0 <- resolveWithPlugin registry options parsed ;;
    OK (value result0).

(** ** TextProcessor *)

Module TextProcessor.

Definition maxIterations : nat := 10.

Definition failure (placeholder message : string) : string :=
  "Failed to resolve placeholder " ++ quote ++ placeholder ++ quote ++ ": "
    ++ message.

(** [TextProcessor.resolvePlaceholder]: the resolved value as a string. *)
Definition resolvePlaceholder (registry : PluginRegistry.t)
           (options : ProcessOptions) (placeholder : string) : result string :=
  match
    (parsed <- parse placeholder ;;
     if notIncluded options (module parsed) then OK placeholder
     else if excluded options (module parsed) then OK placeholder
     else
       result0 <- resolveWithPlugin registry options parsed ;;
       OK (toStr (value result0)))
  with
  | OK resolved => OK resolved
  | Err message => Err (failure placeholder message)
  end.

(** One iteration of [for (const placeholder of placeholders)]. *)
Definition replaceOne (registry : PluginRegistry.t) (options : ProcessOptions)
           (result0 : string) (placeholder : string) : result string :=
  resolved <- resolvePlaceholder registry options placeholder ;;
  OK (replace result0 placeholder resolved).

(** The [while] loop; [remaining] is [maxIterations - iterations].  The
    loop returns the working string and the number of passes made. *)
Fixpoint loop (registry : PluginRegistry.t) (options : ProcessOptions)
         (remaining : nat) (result0 previousResult : string) (iterations : nat)
  : result (string * nat) :=
  match remaining with
  | O => OK (result0, iterations)
  | S remaining' =>
      if String.eqb result0 previousResult then OK (result0, iterations)
      else
        match findPlaceholders result0 with
        | [] => OK (result0, iterations)
        | placeholders =>
            result1 <- foldM (replaceOne registry options) placeholders result0 ;;
            loop registry options remaining' result1 result0 (S iterations)
        end
  end.

Definition process (registry : PluginRegistry.t) (options : ProcessOptions)
           (text : string) : result string :=
  r <- loop registry options maxIterations text "" 0 ;;
  OK (fst r).

End TextProcessor.

(** ** JsonProcessor *)

Module JsonProcessor.

Definition maxIterations : nat := 10.

Definition failure (placeholder pathStr message : string) : string :=
  "Failed to resolve placeholder " ++ quote ++ placeholder ++ quote
    ++ " at path " ++ quote ++ pathStr ++ quote ++ ": " ++ message.

(** [JsonProcessor.resolvePlaceholder]: the typed value. *)
Definition resolvePlaceholder (registry : PluginRegistry.t)
           (options : ProcessOptions) (placeholder : string)
           (path : list string) : result JsonValue :=
  match tryResolve registry options placeholder with
  | OK v => OK v
  | Err message => Err (failure placeholder (join "." path) message)
  end.

Record Span : Type := {
  spanPlaceholder : string;
  spanStart : Z;
  spanEnd : Z
}.

(** The comparator of [sortPlaceholdersByPosition]. *)
Definition compareSpans (a b : Span) : Z :=
  if (spanStart b <=? spanStart a) && (spanEnd a <=? spanEnd b) then -1
  else if (spanStart a <=? spanStart b) && (spanEnd b <=? spanEnd a) then 1
  else spanStart a - spanStart b.

Fixpoint insertSpan (x : Span) (sorted : list Span) : list Span :=
  match sorted with
  | [] => [x]
  | y :: sorted' =>
      if compareSpans x y <? 0 then x :: y :: sorted'
      else y :: insertSpan x sorted'
  end.

(** [Array.prototype.sort] is stable; it is modelled as an insertion sort
    driven by the comparator. *)
Definition sortSpans (spans : list Span) : list Span :=
  fold_left (fun sorted x => insertSpan x sorted) spans [].

Definition sortPlaceholdersByPosition (content : string)
           (placeholders : list string) : list string :=
  map spanPlaceholder
      (sortSpans
         (map (fun ph => {| spanPlaceholder := ph;
                            spanStart := indexOf content ph;
                            spanEnd := indexOf content ph + len ph |})
              placeholders)).

(** [currentPlaceholders.some(other => other !== placeholder &&
    placeholder.includes(other))] *)
Definition containsOthers (currentPlaceholders : list string)
           (placeholder : string) : bool :=
  existsb (fun other => negb (String.eqb other placeholder)
                        && includes placeholder other)
          currentPlaceholders.

(** The effect of resolving one placeholder inside a pass, on the working
    string and on [lastResolvedValue]. *)
Definition resolveAndReplace (registry : PluginRegistry.t)
           (options : ProcessOptions) (path : list string)
           (isPurePlaceholder : bool) (currentPlaceholders : list string)
           (state : string * JsonValue) (placeholder : string)
  : result (string * JsonValue) :=
  let '(result0, lastResolvedValue) := state in
  resolved <- resolvePlaceholder registry options placeholder path ;;
  let lastResolvedValue' :=
    if isPurePlaceholder && (List.length currentPlaceholders =? 1)%nat
    then resolved else lastResolvedValue in
  OK (replaceAll result0 placeholder (toStr resolved), lastResolvedValue').

(** One iteration of [for (const placeholder of sorted)]. *)
Definition passStep (registry : PluginRegistry.t) (options : ProcessOptions)
           (path : list string) (isPurePlaceholder : bool)
           (currentPlaceholders : list string)
           (state : string * JsonValue) (placeholder : string)
  : result (string * JsonValue) :=
  if containsOthers currentPlaceholders placeholder then OK state
  else resolveAndReplace registry options path isPurePlaceholder
                         currentPlaceholders state placeholder.

(** One pass of the [while] loop over the placeholders found in the working
    string. *)
Definition pass (registry : PluginRegistry.t) (options : ProcessOptions)
           (path : list string) (isPurePlaceholder : bool)
           (currentPlaceholders : list string) (state : string * JsonValue)
  : result (string * JsonValue) :=
  foldM (passStep registry options path isPurePlaceholder currentPlaceholders)
        (sortPlaceholdersByPosition (fst state) currentPlaceholders) state.

(** The [while] loop of [processStringValue]; [remaining] is
    [maxIterations - iterations].  It returns the working string,
    [lastResolvedValue] and the number of passes made. *)
Fixpoint loop (registry : PluginRegistry.t) (options : ProcessOptions)
         (path : list string) (isPurePlaceholder : bool) (remaining : nat)
         (result0 previousResult : string) (lastResolvedValue : JsonValue)
         (iterations : nat) : result (string * JsonValue * nat) :=
  match remaining with
  | O => OK (result0, lastResolvedValue, iterations)
  | S remaining' =>
      if String.eqb result0 previousResult
      then OK (result0, lastResolvedValue, iterations)
      else
        match findPlaceholders result0 with
        | [] => OK (result0, lastResolvedValue, iterations)
        | currentPlaceholders =>
            state <- pass registry options path isPurePlaceholder
                          currentPlaceholders (result0, lastResolvedValue) ;;
            loop registry options path isPurePlaceholder remaining'
                 (fst state) result0 (snd state) (S iterations)
        end
  end.

Definition isNull (v : JsonValue) : bool :=
  match v with JNull => true | _ => false end.

(** What follows the [while] loop. *)
Definition afterLoop (registry : PluginRegistry.t) (options : ProcessOptions)
           (path : list string) (isPurePlaceholder : bool)
           (result0 : string) (lastResolvedValue : JsonValue)
  : result JsonValue :=
  if isPurePlaceholder then
    if negb (isNull lastResolvedValue) then OK lastResolvedValue
    else if isPlaceholder result0
         then resolvePlaceholder registry options result0 path
         else OK (JString result0)
  else OK (JString result0).

Definition processStringValue (registry : PluginRegistry.t)
           (options : ProcessOptions) (value : string) (path : list string)
  : result JsonValue :=
  let placeholders := findPlaceholders value in
  match placeholders with
  | [] => OK (JString value)
  | _ =>
      let isPurePlaceholder := isPlaceholder value in
      if isPurePlaceholder && (List.length placeholders =? 1)%nat then
        resolvePlaceholder registry options value path
      else
        r <- loop registry options path isPurePlaceholder maxIterations
                  value "" JNull 0 ;;
        let '(result0, lastResolvedValue, _) := r in
        afterLoop registry options path isPurePlaceholder result0
                  lastResolvedValue
  end.

(** [processed[key] = value] on an object that started as [{}].  The key
    [__proto__] reaches the setter inherited from [Object.prototype], which
    creates no own property; any other key is updated in place or added
    after the properties already there. *)
Fixpoint setProperty (processed : list (string * JsonValue)) (key : string)
         (v : JsonValue) : list (string * JsonValue) :=
  match processed with
  | [] => [(key, v)]
  | (k, v0) :: processed' =>
      if String.eqb k key then (k, v) :: processed'
      else (k, v0) :: setProperty processed' key v
  end.

Definition assign (processed : list (string * JsonValue)) (key : string)
           (v : JsonValue) : list (string * JsonValue) :=
  if String.eqb key "__proto__" then processed else setProperty processed key v.

Definition indexKey (i : nat) : string := "[" ++ ofNat i ++ "]".

Section Each.

(** The recursive call of [processNode] and the path of the node at hand. *)
Variable processNode : JsonValue -> list string -> result JsonValue.
Variable path : list string.

(** [for (let i = 0; i < node.length; i++) processed.push(...)] *)
Fixpoint eachItem (items : list JsonValue) (i : nat)
         (processed : list JsonValue) : result (list JsonValue) :=
  match items with
  | [] => OK processed
  | item :: items' =>
      v <- processNode item (path ++ [indexKey i])%list ;;
      eachItem items' (S i) (processed ++ [v])%list
  end.

(** [for (const [key, value] of Object.entries(node)) processed[key] = ...] *)
Fixpoint eachEntry (entries : list (string * JsonValue))
         (processed : list (string * JsonValue))
  : result (list (string * JsonValue)) :=
  match entries with
  | [] => OK processed
  | (key, v0) :: entries' =>
      v <- processNode v0 (path ++ [key])%list ;;
      eachEntry entries' (assign processed key v)
  end.

End Each.

Section ProcessNode.

Variable registry : PluginRegistry.t.
Variable options : ProcessOptions.

Fixpoint processNode (node : JsonValue) (path : list string)
  : result JsonValue :=
  match node with
  | JNull => OK JNull
  | JArray items =>
      processed <- eachItem processNode path items 0%nat [] ;;
      OK (JArray processed)
  | JObject entries =>
      processed <- eachEntry processNode path entries [] ;;
      OK (JObject processed)
  | JString s => processStringValue registry options s path
  | JBool _ | JNumber _ => OK node
  end.

(** [process] between [JSON.parse] and [JSON.stringify]: the document is
    the parsed tree. *)
Definition process (ast : JsonValue) : result JsonValue :=
  processNode ast [].

End ProcessNode.

End JsonProcessor.

(** ** Plugins and transforms of the repository *)

Module MockPlugin.

Definition resolveRequest (request : PluginResolveRequest)
  : result PlaceholderResult :=
  let action := action (placeholder request) in
  match args (placeholder request) with
  | [] =>
      Err ("Mock plugin: action '" ++ action
             ++ "' requires at least one argument")
  | value :: _ =>
      if String.eqb action "echo" then
        OK {| value := JString value; type := TString |}
      else if String.eqb action "uppercase" then
        OK {| value := JString (toUpperCase value); type := TString |}
      else if String.eqb action "reverse" then
        OK {| value := JString (reverse value); type := TString |}
      else if String.eqb action "number" then
        match toNumber value with
        | Some num => OK {| value := JNumber num; type := TNumber |}
        | None =>
            Err ("Mock plugin: cannot convert '" ++ value ++ "' to number")
        end
      else if String.eqb action "constant" then
        OK {| value := JString value; type := TString |}
      else if String.eqb action "async" then
        Err "Async action should be handled by AsyncMockPlugin"
      else
        Err ("Mock plugin: unknown action '" ++ action
               ++ "'. Available: echo, uppercase, reverse, number, constant")
  end.

Definition plugin : PlaceholderPlugin :=
  {| pluginName := "mock"; resolve := resolveRequest |}.

End MockPlugin.

Module GeneratorPlugin.

(** What the branches without an argument draw from [Math.random]. *)
Record RandomSource : Type := {
  randomUuid : string;
  randomNumber : Z;
  randomString : string;
  randomBoolean : bool
}.

Definition lowerChar (c : ascii) : ascii :=
  let n := nat_of_ascii c in
  if ((65 <=? n) && (n <=? 90))%nat then ascii_of_nat (n + 32) else c.

(** [args.length > 0 && args[0]]: the first argument when it is a non-empty
    string. *)
Definition firstArg (args : list string) : option string :=
  match args with
  | a :: _ => if String.eqb a "" then None else Some a
  | [] => None
  end.

Definition handleUuid (random : RandomSource) (args : list string)
  : result PlaceholderResult :=
  match firstArg args with
  | Some a => OK {| value := JString a; type := TString |}
  | None => OK {| value := JString (randomUuid random); type := TString |}
  end.

Definition handleNumber (random : RandomSource) (args : list string)
  : result PlaceholderResult :=
  match firstArg args with
  | Some a =>
      match parseFloat a with
      | Some v => OK {| value := JNumber v; type := TNumber |}
      | None => Err ("Generator plugin: invalid number '" ++ a ++ "'")
      end
  | None => OK {| value := JNumber (randomNumber random); type := TNumber |}
  end.

Definition handleString (random : RandomSource) (args : list string)
  : result PlaceholderResult :=
  match firstArg args with
  | Some a => OK {| value := JString a; type := TString |}
  | None => OK {| value := JString (randomString random); type := TString |}
  end.

Definition handleBoolean (random : RandomSource) (args : list string)
  : result PlaceholderResult :=
  match firstArg args with
  | Some a =>
      let arg := mapChars lowerChar a in
      if String.eqb arg "true" || String.eqb arg "1" || String.eqb arg "yes" then
        OK {| value := JBool true; type := TBoolean |}
      else if String.eqb arg "false" || String.eqb arg "0" || String.eqb arg "no" then
        OK {| value := JBool false; type := TBoolean |}
      else Err ("Generator plugin: invalid boolean '" ++ a ++ "'")
  | None => OK {| value := JBool (randomBoolean random); type := TBoolean |}
  end.

Definition resolveRequest (random : RandomSource)
           (request : PluginResolveRequest) : result PlaceholderResult :=
  let action := action (placeholder request) in
  let args := args (placeholder request) in
  if String.eqb action "uuid" then handleUuid random args
  else if String.eqb action "number" || String.eqb action "zugnummer" then
    handleNumber random args
  else if String.eqb action "string" then handleString random args
  else if String.eqb action "boolean" then handleBoolean random args
  else
    Err ("Generator plugin: unknown action '" ++ action
           ++ "'. Available: uuid, number, zugnummer, string, boolean").

Definition plugin (random : RandomSource) : PlaceholderPlugin :=
  {| pluginName := "gen"; resolve := resolveRequest random |}.

End GeneratorPlugin.

Module TimePlugin.

Section Luxon.

(** [DateTime.fromMillis(ms, { zone: 'utc' }).toFormat(format)] of the
    luxon library. *)
Variable toFormat : Z -> string -> string.

(** [handleCalc], which reads the clock and luxon's durations. *)
Variable handleCalc :
  list string -> ProcessContext -> result PlaceholderResult.

Definition handleFormat (args : list string) : result PlaceholderResult :=
  match args with
  | a0 :: format :: _ =>
      match parseFloat a0 with
      | None => Err ("Time plugin format: invalid timestamp '" ++ a0 ++ "'")
      | Some timestamp =>
          let isSeconds := timestamp <? 10000000000 in
          let millis := if isSeconds then timestamp * 1000 else timestamp in
          OK {| value := JString (toFormat millis format); type := TString |}
      end
  | _ => Err "Time plugin format: requires 2 arguments (timestamp, format)"
  end.

Definition resolveRequest (request : PluginResolveRequest)
  : result PlaceholderResult :=
  let action := action (placeholder request) in
  let args := args (placeholder request) in
  if String.eqb action "calc" then handleCalc args (requestContext request)
  else if String.eqb action "format" then handleFormat args
  else
    Err ("Time plugin: unknown action '" ++ action
           ++ "'. Available: calc, format").

Definition plugin : PlaceholderPlugin :=
  {| pluginName := "time"; resolve := resolveRequest |}.

End Luxon.

End TimePlugin.

Module ToNumberTransform.

Definition applyTo (input : PlaceholderResult) (_params : list string)
  : result PlaceholderResult :=
  match type input with
  | TNumber => OK input
  | _ =>
      let converted :=
        match value input with
        | JString s => OK (toNumber s)
        | JBool b => OK (Some (if b then 1 else 0))
        | JNull => Err "Cannot convert null or undefined to number"
        | JNumber n => OK (Some n)
        | v => OK (toNumber (toStr v))
        end in
      numValue <- converted ;;
      match numValue with
      | Some n => OK {| value := JNumber n; type := TNumber |}
      | None =>
          Err ("Cannot convert " ++ quote ++ toStr (value input) ++ quote
                 ++ " to number")
      end
  end.

Definition transform : Transform :=
  {| transformName := "toNumber"; apply := applyTo |}.

End ToNumberTransform.

(** ** Fixtures: the registry and options of the test suite *)

Definition defaultOptions : ProcessOptions :=
  {| includePlugins := None; excludePlugins := None; context := None |}.

(** [registerPlugin(new MockPlugin())], [registerTransform(new
    ToNumberTransform())] on a fresh registry. *)
Definition mockRegistry : PluginRegistry.t :=
  {| PluginRegistry.plugins := [("mock", MockPlugin.plugin)];
     PluginRegistry.transforms := [("toNumber", ToNumberTransform.transform)] |}.

(** The registry of the end-to-end tests, with luxon's formatting and
    [handleCalc] supplied from outside. *)
Definition engineRegistry (random : GeneratorPlugin.RandomSource)
           (toFormat : Z -> string -> string)
           (handleCalc : list string -> ProcessContext -> result PlaceholderResult)
  : PluginRegistry.t :=
  {| PluginRegistry.plugins :=
       [("gen", GeneratorPlugin.plugin random);
        ("time", TimePlugin.plugin toFormat handleCalc)];
     PluginRegistry.transforms := [("toNumber", ToNumberTransform.transform)] |}.

(** ** Notions used in the statements *)

Definition isBrace (c : ascii) : bool := Ascii.eqb c "{" || Ascii.eqb c "}".

(** No brace at all in [s]. *)
Definition braceFree (s : string) : bool :=
  forallChars (fun c => negb (isBrace c)) s.

(** A segment of a main part without braces and without backslashes; colons
    are allowed. *)
Definition plainSegment (s : string) : bool :=
  forallChars (fun c => negb (isBrace c || Ascii.eqb c "\")) s.

(** Every colon of [s] written as backslash-colon. *)
Fixpoint escapeColons (s : string) : string :=
  match s with
  | EmptyString => EmptyString
  | String c s' =>
      if Ascii.eqb c ":" then String "\" (String ":" (escapeColons s'))
      else String c (escapeColons s')
  end.

(** The main segment of a token: the first part [parse] takes from
    [splitByPipe]. *)
Definition mainPartOf (token : string) : string :=
  hd "" (splitByPipe (slice (trim token) 2 (-2))).

Definition failureOf {A : Type} (r : result A) : option string :=
  match r with
  | OK _ => None
  | Err e => Some e
  end.

Section Leaves.

Variable path : list string.

Fixpoint leavesOfItems (leaves : JsonValue -> list string -> list (list string * string))
         (items : list JsonValue) (i : nat) : list (list string * string) :=
  match items with
  | [] => []
  | item :: items' =>
      (leaves item (path ++ [JsonProcessor.indexKey i]) ++ leavesOfItems leaves items' (S i))%list
  end.

Fixpoint leavesOfEntries (leaves : JsonValue -> list string -> list (list string * string))
         (entries : list (string * JsonValue)) : list (list string * string) :=
  match entries with
  | [] => []
  | (key, v) :: entries' =>
      (leaves v (path ++ [key]) ++ leavesOfEntries leaves entries')%list
  end.

End Leaves.

(** The string leaves of a document with their paths, in the order
    [processNode] visits them. *)
Fixpoint stringLeaves (node : JsonValue) (path : list string)
  : list (list string * string) :=
  match node with
  | JString s => [(path, s)]
  | JArray items => leavesOfItems path stringLeaves items 0%nat
  | JObject entries => leavesOfEntries path stringLeaves entries
  | JNull | JBool _ | JNumber _ => []
  end.

(** The error of the first leaf, in visiting order, whose processing
    fails. *)
Fixpoint firstFailure (registry : PluginRegistry.t) (options : ProcessOptions)
         (leaves : list (list string * string)) : option string :=
  match leaves with
  | [] => None
  | (path, s) :: leaves' =>
      match JsonProcessor.processStringValue registry options s path with
      | Err e => Some e
      | OK _ => firstFailure registry options leaves'
      end
  end.

Fixpoint distinct (keys : list string) : bool :=
  match keys with
  | [] => true
  | k :: keys' => negb (inList k keys') && distinct keys'
  end.

(** Every object of the document has distinct keys, none of them
    [__proto__]. *)
Fixpoint plainKeys (node : JsonValue) : bool :=
  match node with
  | JArray items => forallb plainKeys items
  | JObject entries =>
      distinct (map fst entries)
      && negb (inList "__proto__" (map fst entries))
      && forallb (fun e => plainKeys (snd e)) entries
  | JNull | JBool _ | JNumber _ | JString _ => true
  end.

(** No string leaf of the document contains an opening or a closing pair of
    braces. *)
Definition tokenFree (doc : JsonValue) : Prop :=
  Forall (fun leaf => includes (snd leaf) "{{" = false
                      /\ includes (snd leaf) "}}" = false)
         (stringLeaves doc []).

(** The placeholders of a pass that contain no other placeholder of that
    pass. *)
Definition innermost (currentPlaceholders sorted : list string) : list string :=
  filter (fun p => negb (JsonProcessor.containsOthers currentPlaceholders p)) sorted.

Definition innerToken : string := "{{gen:number:1710508545}}".
Definition flatToken : string := "{{time:format:1710508545:dd.MM.yyyy}}".

(** A registry for the nested example: luxon's formatting is replaced by
    the date of the timestamp [1710508545], and no random value is drawn. *)
Definition exampleRegistry : PluginRegistry.t :=
  engineRegistry
    {| GeneratorPlugin.randomUuid := "00000000-0000-4000-8000-000000000000";
       GeneratorPlugin.randomNumber := 0;
       GeneratorPlugin.randomString := "AAAAAAAA";
       GeneratorPlugin.randomBoolean := false |}
    (fun _ _ => "15.03.2024")
    (fun _ _ => Err "Time plugin calc: requires 2 arguments (offset, unit/format)").

(** [n] copies of [token], separated by single spaces. *)
Fixpoint copies (n : nat) (token : string) : string :=
  match n with
  | O => ""
  | S O => token
  | S k => token ++ " " ++ copies k token
  end.

(** [core] wrapped in [n] layers of [{{mock:echo:...}}]. *)
Fixpoint nestEcho (n : nat) (core : string) : string :=
  match n with
  | O => core
  | S k => "{{mock:echo:" ++ nestEcho k core ++ "}}"
  end.

Definition duplicatedLeaf : string :=
  "{{mock:number:42:a}} and {{mock:number:42:a}}".

(** ** The remaining transforms, the parser's [replaceAll], the engine *)

Module ToStringTransform.

Section Stringify.

(** [JSON.stringify(value)], which does not throw on the values of the
    embedding. *)
Variable jsonStringify : JsonValue -> string.

Definition applyTo (input : PlaceholderResult) (_params : list string)
  : result PlaceholderResult :=
  match type input with
  | TString => OK input
  | _ =>
      let stringValue :=
        match value input with
        | JNull => "null"
        | JArray _ | JObject _ => jsonStringify (value input)
        | v => toStr v
        end in
      OK {| value := JString stringValue; type := TString |}
  end.

Definition transform : Transform :=
  {| transformName := "toString"; apply := applyTo |}.

End Stringify.

End ToStringTransform.

Module ToBooleanTransform.

Definition truthyStrings : list string := ["true"; "yes"; "1"; "on"; "y"].
Definition falsyStrings : list string := ["false"; "no"; "0"; "off"; "n"; ""].

(** [s.toLowerCase()] on the letters A to Z. *)
Definition toLowerCase (s : string) : string :=
  mapChars GeneratorPlugin.lowerChar s.

(** [Boolean(v)] *)
Definition truthy (v : JsonValue) : bool :=
  match v with
  | JNull => false
  | JBool b => b
  | JNumber n => negb (n =? 0)
  | JString s => negb (String.eqb s "")
  | JArray _ | JObject _ => true
  end.

Definition applyTo (input : PlaceholderResult) (_params : list string)
  : result PlaceholderResult :=
  match type input with
  | TBoolean => OK input
  | _ =>
      let boolValue :=
        match value input with
        | JString s =>
            let lower := trim (toLowerCase s) in
            if inList lower truthyStrings then true
            else if inList lower falsyStrings then false
            else truthy (JString s)
        | JNumber n => negb (n =? 0)
        | v => truthy v
        end in
      OK {| value := JBool boolValue; type := TBoolean |}
  end.

Definition transform : Transform :=
  {| transformName := "toBoolean"; apply := applyTo |}.

End ToBooleanTransform.

(** [PlaceholderParser.replaceAll] and its [sortPlaceholdersByPosition].
    The resolver is a callback of the caller; it may count its calls, so it
    threads a state. *)
Module ParserReplaceAll.

Section Resolver.

Variable State : Type.
Variable resolveFn : State -> string -> string * State.

Definition maxIterations : nat := 10.

(** The comparator of the parser's sort, on the working string. *)
Definition comparePlaceholders (content a b : string) : Z :=
  if includes a b then 1
  else if includes b a then -1
  else indexOf content a - indexOf content b.

Fixpoint insertPlaceholder (content x : string) (sorted : list string)
  : list string :=
  match sorted with
  | [] => [x]
  | y :: sorted' =>
      if comparePlaceholders content x y <? 0 then x :: y :: sorted'
      else y :: insertPlaceholder content x sorted'
  end.

(** [placeholders.sort(...)], as an insertion sort driven by the
    comparator. *)
Definition sortPlaceholdersByPosition (content : string)
           (placeholders : list string) : list string :=
  fold_left (fun sorted x => insertPlaceholder content x sorted) placeholders [].

(** One iteration of [for (const placeholder of sorted)]. *)
Definition replaceOne (acc : string * State) (placeholder : string)
  : string * State :=
  let '(resolved, state') := resolveFn (snd acc) placeholder in
  (JsString.replaceAll (fst acc) placeholder resolved, state').

(** The [while] loop; it returns the working string, the state of the
    resolver and the number of passes made. *)
Fixpoint loop (remaining : nat) (result0 previousResult : string)
         (state : State) (iterations : nat) : string * State * nat :=
  match remaining with
  | O => (result0, state, iterations)
  | S remaining' =>
      if String.eqb result0 previousResult then (result0, state, iterations)
      else
        match findPlaceholders result0 with
        | [] => (result0, state, iterations)
        | placeholders =>
            let acc :=
              fold_left replaceOne
                        (sortPlaceholdersByPosition result0 placeholders)
                        (result0, state) in
            loop remaining' (fst acc) result0 (snd acc) (S iterations)
        end
  end.

Definition replaceAll (content : string) (state : State) : string * State :=
  fst (loop maxIterations content "" state 0).

End Resolver.

End ParserReplaceAll.

Module PlaceholderEngine.

Record CompareError : Type := {
  errorPath : string;
  errorMessage : string
}.

Record CompareResult : Type := {
  success : bool;
  errors : list CompareError
}.

Section Json.

(** [JSON.parse], with a SyntaxError as [Err], and
    [JSON.stringify(v, null, 2)]. *)
Variable jsonParse : string -> result JsonValue.
Variable jsonStringify : JsonValue -> string.

Variable registry : PluginRegistry.t.

(** [JsonProcessor.process] on the document text. *)
Definition processJson (options : ProcessOptions) (jsonString : string)
  : result string :=
  ast <- jsonParse jsonString ;;
  processed <- JsonProcessor.processNode registry options ast [] ;;
  OK (jsonStringify processed).

(** [processGenerate]; [format] is [options.format]. *)
Definition processGenerate (format : string) (options : ProcessOptions)
           (content : string) : result string :=
  if String.eqb format "json" then processJson options content
  else if String.eqb format "text" then
    TextProcessor.process registry options content
  else if String.eqb format "xml" then Err "XML format not yet implemented"
  else Err ("Unknown format: " ++ format).

Definition processCompare (_actual _expected : string) : result CompareResult :=
  Err "Compare mode not yet implemented".

Definition processThreePhase (format : string) (context : option ProcessContext)
           (template actual : string) : result CompareResult :=
  afterGen <- processGenerate format
                {| includePlugins := Some ["gen"];
                   excludePlugins := None;
                   context := context |} template ;;
  afterTime <- processGenerate format
                 {| includePlugins := Some ["time"];
                    excludePlugins := None;
                    context := context |} afterGen ;;
  processCompare actual afterTime.

End Json.

End PlaceholderEngine.

(** ** Further notions used in the statements *)

(** A flat token: a pair of opening braces, a body, a pair of closing
    braces. *)
Definition tokenOf (body : string) : string := "{{" ++ body ++ "}}".

(** Text made of pieces, each the body of a token and the text that follows
    it; [show] gives what stands for a body. *)
Fixpoint fillWith (show : string -> string) (pieces : list (string * string))
  : string :=
  match pieces with
  | [] => ""
  | (body, text) :: pieces' => show body ++ text ++ fillWith show pieces'
  end.

(** The text with its tokens written out. *)
Definition fill (pieces : list (string * string)) : string :=
  fillWith tokenOf pieces.

(** The pieces are flat: no brace in a body or in a text. *)
Definition flatPieces (pieces : list (string * string)) : bool :=
  forallb (fun p => braceFree (fst p) && braceFree (snd p)) pieces.

(** The distinct strings of a list, in the order of their first
    occurrence. *)
Definition distinctOf (l : list string) : list string :=
  fold_left (fun set x => setAdd x set) l [].

(** What stands for a body once the tokens whose bodies are in [done] have
    been replaced by their values. *)
Definition shownAfter (value : string -> string) (done : list string)
           (body : string) : string :=
  if inList body done then value body else tokenOf body.

Definition openFree (s : string) : bool :=
  forallChars (fun c => negb (Ascii.eqb c "{")) s.

Definition noDollar (s : string) : bool :=
  forallChars (fun c => negb (Ascii.eqb c "$")) s.

Definition headOk (s : string) : bool :=
  match s with
  | EmptyString => false
  | String c _ => negb (isWhiteSpace c)
  end.

Fixpoint lastOk (s : string) : bool :=
  match s with
  | EmptyString => false
  | String c EmptyString => negb (isWhiteSpace c)
  | String _ s' => lastOk s'
  end.

(** A segment of a token as the parser returns it: not empty, no white
    space at either end, and no brace, backslash, pipe or line terminator
    inside. *)
Definition segmentOk (s : string) : bool :=
  headOk s && lastOk s
  && forallChars (fun c => negb (isBrace c || Ascii.eqb c "\" || Ascii.eqb c "|"
                                 || isLineTerminator c)) s.

(** A transform name or parameter: a segment without a colon. *)
Definition wordOk (s : string) : bool :=
  segmentOk s && forallChars (fun c => negb (Ascii.eqb c ":")) s.

(** A code unit that may stand anywhere between the braces of a rendered
    token without being read as a brace, a pipe or a line end. *)
Definition innerChar (c : ascii) : bool :=
  negb (isBrace c || Ascii.eqb c "|" || isLineTerminator c).

Definition renderTransform (t : ParsedTransform) : string :=
  "|" ++ join ":" (name t :: params t).

Fixpoint concatAll (parts : list string) : string :=
  match parts with
  | [] => ""
  | p :: parts' => p ++ concatAll parts'
  end.

(** The token in the format of the parser,
    [{{module:action:arg1:argN|transform1:param|transform2}}], with the
    colons inside a segment of the main part escaped. *)
Definition render (p : ParsedPlaceholder) : string :=
  "{{" ++ join ":" (map escapeColons (module p :: action p :: args p))
       ++ concatAll (map renderTransform (PlaceholderParser.transforms p))
       ++ "}}".

Definition transformOk (t : ParsedTransform) : bool :=
  wordOk (name t) && forallb wordOk (params t).

Definition placeholderOk (p : ParsedPlaceholder) : bool :=
  String.eqb (original p) (render p)
  && forallb segmentOk (module p :: action p :: args p)
  && forallb transformOk (PlaceholderParser.transforms p).

(** The integers a number of the code holds exactly: on them
    [parseFloat], [Number] and [String] act as [parseFloat], [toNumber]
    and [ofZ] of the embedding do on decimal integer literals. *)
Definition safeInteger (n : Z) : bool := Z.abs n <? 2 ^ 53.

(** [p] occurs in [s] as a substring. *)
Definition occursIn (p s : string) : Prop :=
  exists pre post, s = pre ++ p ++ post.

(** Among the tokens found in a pass, [p] contains no other one as a
    substring. *)
Definition innermostIn (current : list string) (p : string) : Prop :=
  forall other, In other current -> other <> p -> ~ occursIn other p.


(** * Properties *)

(** ** The cases of the test suite *)

Example registry_of_the_tests :
  (r <- PluginRegistry.registerPlugin PluginRegistry.empty MockPlugin.plugin ;;
   PluginRegistry.registerTransform r ToNumberTransform.transform)
  = OK mockRegistry
  /\ PluginRegistry.registerPlugin mockRegistry MockPlugin.plugin
     = Err "Plugin 'mock' is already registered".
Proof. split; reflexivity. Qed.

Example isPlaceholder_cases :
  map isPlaceholder
      ["{{gen:uuid}}"; "{{time:calc:350:iso}}"; "  {{gen:uuid}}  ";
       "not a placeholder"; "{{incomplete"; "incomplete}}"; "{single}"]
  = [true; true; true; false; false; false; false].
Proof. vm_compute. reflexivity. Qed.

Example findPlaceholders_nested :
  findPlaceholders "{{compare:startsWith:{{time:calc:0:dd.MM.yyyy}}}}"
  = ["{{compare:startsWith:{{time:calc:0:dd.MM.yyyy}}}}";
     "{{time:calc:0:dd.MM.yyyy}}"].
Proof. vm_compute. reflexivity. Qed.

Example findPlaceholders_deduplicates :
  findPlaceholders "{{gen:uuid:inst1}} and {{gen:uuid:inst1}} again"
  = ["{{gen:uuid:inst1}}"].
Proof. vm_compute. reflexivity. Qed.

Example parse_transforms :
  parse "{{gen:value:test|toNumber|multiply:2}}"
  = OK {| original := "{{gen:value:test|toNumber|multiply:2}}";
          module := "gen";
          action := "value";
          args := ["test"];
          transforms := [{| name := "toNumber"; params := [] |};
                         {| name := "multiply"; params := ["2"] |}] |}.
Proof. vm_compute. reflexivity. Qed.

Example parse_whitespace :
  parse "  {{ gen : uuid : inst1 }}  "
  = OK {| original := "{{ gen : uuid : inst1 }}";
          module := "gen";
          action := "uuid";
          args := ["inst1"];
          transforms := [] |}.
Proof. vm_compute. reflexivity. Qed.

Example parse_missing_action :
  parse "{{gen}}"
  = Err "Invalid placeholder format. Expected at least module:action, got: gen".
Proof. vm_compute. reflexivity. Qed.

Example json_types_and_interpolation :
  JsonProcessor.process mockRegistry defaultOptions
    (JObject [("count", JString "{{mock:number:42}}");
              ("value", JString "{{mock:echo:123|toNumber}}");
              ("label", JString "Count: {{mock:number:42}}");
              ("items", JArray [JString "{{mock:number:1}}"; JNull;
                                JString "{{mock:uppercase:{{mock:echo:hello}}}}"])])
  = OK (JObject [("count", JNumber 42);
                 ("value", JNumber 123);
                 ("label", JString "Count: 42");
                 ("items", JArray [JNumber 1; JNull; JString "HELLO"])]).
Proof. vm_compute. reflexivity. Qed.

Example json_error_path :
  JsonProcessor.process mockRegistry defaultOptions
    (JObject [("user", JObject [("age", JString "{{mock:number:notANumber}}")])])
  = Err ("Failed to resolve placeholder " ++ quote
           ++ "{{mock:number:notANumber}}" ++ quote ++ " at path " ++ quote
           ++ "user.age" ++ quote
           ++ ": Mock plugin: cannot convert 'notANumber' to number").
Proof. vm_compute. reflexivity. Qed.

Example text_two_placeholders :
  TextProcessor.process mockRegistry defaultOptions
    "{{mock:echo:Hello}} {{mock:echo:World}}!"
  = OK "Hello World!".
Proof. vm_compute. reflexivity. Qed.

(** ** Strings *)

Lemma append_nil_r (s : string) : s ++ "" = s.
Proof.
  induction s as [|c s IH]; simpl; [reflexivity | now rewrite IH].
Qed.

Lemma append_assoc (s t u : string) : (s ++ t) ++ u = s ++ (t ++ u).
Proof.
  induction s as [|c s IH]; simpl; [reflexivity | now rewrite IH].
Qed.

Lemma pushChar_append (current : string) (c : ascii) (s : string) :
  pushChar current c ++ s = current ++ String c s.
Proof.
  unfold pushChar. now rewrite append_assoc.
Qed.

Lemma append_eq_nil (s t : string) : s ++ t = "" -> s = "" /\ t = "".
Proof.
  destruct s; simpl; [auto | discriminate].
Qed.

Lemma inList_In (x : string) (l : list string) : inList x l = true <-> In x l.
Proof.
  unfold inList. rewrite existsb_exists. split.
  - intros [y [Hy Heq]]. apply String.eqb_eq in Heq. now subst.
  - intros H. exists x. split; [assumption | apply String.eqb_refl].
Qed.

(** ** The scanner on brace-free text *)

Lemma scanFrom_plain (recur : string -> list string -> list string)
      (content : string) (c : ascii) (rest : string) i depth start acc :
  isBrace c = false ->
  scanFrom recur content (String c rest) i depth start acc
  = match rest with
    | EmptyString => acc
    | String _ _ => scanFrom recur content rest (i + 1) depth start acc
    end.
Proof.
  intros Hc. unfold isBrace in Hc.
  apply orb_false_iff in Hc as [Hopen Hclose].
  destruct rest as [|next rest]; [reflexivity |].
  cbn [scanFrom]. rewrite Hopen, Hclose. reflexivity.
Qed.

Lemma scanFrom_braceFree (recur : string -> list string -> list string)
      (content body : string) :
  braceFree body = true ->
  forall rest i depth start acc,
  exists j,
    scanFrom recur content (body ++ rest) i depth start acc
    = scanFrom recur content rest j depth start acc.
Proof.
  induction body as [|c body IH]; intros Hfree rest i depth start acc.
  - exists i. reflexivity.
  - unfold braceFree in Hfree. cbn [forallChars] in Hfree.
    apply andb_true_iff in Hfree as [Hc Hbody].
    apply negb_true_iff in Hc.
    change (String c body ++ rest) with (String c (body ++ rest)).
    rewrite scanFrom_plain by exact Hc.
    destruct (body ++ rest) eqn:E.
    + apply append_eq_nil in E as [_ ->]. exists i. reflexivity.
    + rewrite <- E. apply IH. exact Hbody.
Qed.

Lemma scanFrom_braceFree_end (recur : string -> list string -> list string)
      (content post : string) i depth start acc :
  braceFree post = true ->
  scanFrom recur content post i depth start acc = acc.
Proof.
  intros Hfree.
  destruct (scanFrom_braceFree recur content post Hfree "" i depth start acc)
    as [j Hj].
  rewrite append_nil_r in Hj. rewrite Hj. reflexivity.
Qed.


(** ** Input without placeholders *)

Lemma text_without_placeholders registry options (text : string) :
  findPlaceholders text = [] ->
  TextProcessor.process registry options text = OK text.
Proof.
  intros Hnone. unfold TextProcessor.process, TextProcessor.maxIterations.
  cbn [TextProcessor.loop].
  destruct (String.eqb text ""); [reflexivity |].
  rewrite Hnone. reflexivity.
Qed.

Lemma leaf_without_placeholders registry options (s : string) path :
  findPlaceholders s = [] ->
  JsonProcessor.processStringValue registry options s path = OK (JString s).
Proof.
  intros Hnone. unfold JsonProcessor.processStringValue.
  rewrite Hnone. reflexivity.
Qed.



(** ** Escaped colons in [splitByColon] *)

Lemma splitByColonFrom_escaped (rest : string) parts current depth :
  splitByColonFrom ("\:" ++ rest) parts current depth
  = splitByColonFrom rest parts (current ++ ":") depth.
Proof. reflexivity. Qed.

Lemma splitByColonFrom_plain (c : ascii) (rest : string) parts current depth :
  isBrace c || Ascii.eqb c "\" = false -> Ascii.eqb c ":" = false ->
  splitByColonFrom (String c rest) parts current depth
  = splitByColonFrom rest parts (pushChar current c) depth.
Proof.
  intros Hc Hcolon. apply orb_false_iff in Hc as [Hbrace Hback].
  unfold isBrace in Hbrace. apply orb_false_iff in Hbrace as [Hopen Hclose].
  cbn [splitByColonFrom]. rewrite Hopen, Hclose, Hback, Hcolon.
  destruct rest; reflexivity.
Qed.

Lemma splitByColonFrom_separator (rest : string) parts current :
  splitByColonFrom (String ":" rest) parts current 0
  = splitByColonFrom rest (parts ++ [trim current])%list "" 0.
Proof. destruct rest; reflexivity. Qed.

Lemma splitByColonFrom_escaped_run (s : string) :
  plainSegment s = true ->
  forall rest parts current depth,
    splitByColonFrom (escapeColons s ++ rest) parts current depth
    = splitByColonFrom rest parts (current ++ s) depth.
Proof.
  induction s as [|c s IH]; intros Hplain rest parts current depth.
  - now rewrite append_nil_r.
  - unfold plainSegment in Hplain. cbn [forallChars] in Hplain.
    apply andb_true_iff in Hplain as [Hc Hs]. apply negb_true_iff in Hc.
    cbn [escapeColons]. destruct (Ascii.eqb c ":") eqn:Hcolon.
    + apply Ascii.eqb_eq in Hcolon. subst c.
      change (String "\" (String ":" (escapeColons s)) ++ rest)
        with ("\:" ++ (escapeColons s ++ rest)).
      rewrite splitByColonFrom_escaped, IH by exact Hs.
      now rewrite append_assoc.
    + change (String c (escapeColons s) ++ rest)
        with (String c (escapeColons s ++ rest)).
      rewrite splitByColonFrom_plain, IH by assumption.
      now rewrite pushChar_append.
Qed.

Lemma splitByColonFrom_escaped_segments (segs : list string) (last : string) :
  Forall (fun s => plainSegment s = true) segs ->
  plainSegment last = true -> last <> "" ->
  forall parts,
    splitByColonFrom (join ":" (map escapeColons (segs ++ [last]))) parts "" 0
    = (parts ++ map trim (segs ++ [last]))%list.
Proof.
  intros Hsegs Hlast Hne.
  induction Hsegs as [|s segs Hs Hsegs IH]; intros parts.
  - cbn [app map join].
    rewrite <- (append_nil_r (escapeColons last)).
    rewrite splitByColonFrom_escaped_run by exact Hlast.
    cbn [splitByColonFrom append]. unfold pushLast.
    destruct (String.eqb_spec last ""); [contradiction | reflexivity].
  - change ((s :: segs) ++ [last])%list with (s :: (segs ++ [last]))%list.
    cbn [map]. specialize (IH (parts ++ [trim s])%list).
    destruct (map escapeColons (segs ++ [last])) as [|p ps] eqn:E.
    + destruct segs; discriminate E.
    + change (join ":" (escapeColons s :: p :: ps))
        with (escapeColons s ++ String ":" (join ":" (p :: ps))).
      rewrite splitByColonFrom_escaped_run by exact Hs.
      rewrite splitByColonFrom_separator. cbn [append].
      rewrite IH. now rewrite <- app_assoc.
Qed.

(** C7.  In the main part of a token a backslash-colon never separates two
    segments and reaches the segment as a colon: the loop of [splitByColon]
    passes over it with one colon added to the segment at hand, a main part
    whose segments carry their colons escaped splits back into those
    segments, and [{{time:calc:0:HH\:mm\:ss}}] parses to the two arguments
    [0] and [HH:mm:ss]. *)
Theorem escaped_colon_fidelity :
  (forall rest parts current depth,
      splitByColonFrom ("\:" ++ rest) parts current depth
      = splitByColonFrom rest parts (current ++ ":") depth)
  /\ (forall segs last,
         Forall (fun s => plainSegment s = true) segs ->
         plainSegment last = true -> last <> "" ->
         splitByColon (join ":" (map escapeColons (segs ++ [last])))
         = map trim (segs ++ [last]))
  /\ parse "{{time:calc:0:HH\:mm\:ss}}"
     = OK {| original := "{{time:calc:0:HH\:mm\:ss}}";
             module := "time";
             action := "calc";
             args := ["0"; "HH:mm:ss"];
             transforms := [] |}.
Proof.
  split; [exact splitByColonFrom_escaped |].
  split; [| vm_compute; reflexivity].
  intros segs last Hsegs Hlast Hne. unfold splitByColon.
  now rewrite splitByColonFrom_escaped_segments.
Qed.

Lemma escaped_colon_fidelity_witness :
  splitByColon "time:calc:0:HH\:mm\:ss" = ["time"; "calc"; "0"; "HH:mm:ss"].
Proof.
  destruct escaped_colon_fidelity as [_ [Hsegments _]].
  apply (Hsegments ["time"; "calc"; "0"] "HH:mm:ss").
  - repeat constructor.
  - reflexivity.
  - discriminate.
Defined.

(** ** Trimming *)

Lemma trimEnd_idempotent (s : string) : trimEnd (trimEnd s) = trimEnd s.
Proof.
  induction s as [|c s IH]; [reflexivity |].
  cbn [trimEnd]. destruct (trimEnd s) as [|d t] eqn:E.
  - destruct (isWhiteSpace c) eqn:Hc; [reflexivity |].
    cbn [trimEnd]. now rewrite Hc.
  - cbn [trimEnd]. cbn [trimEnd] in IH. now rewrite IH.
Qed.

Lemma trimStart_head (s : string) :
  trimStart s = ""
  \/ exists c t, trimStart s = String c t /\ isWhiteSpace c = false.
Proof.
  induction s as [|c s IH]; [now left |].
  cbn [trimStart]. destruct (isWhiteSpace c) eqn:Hc; [exact IH |].
  right. now exists c, s.
Qed.

Lemma trimStart_trimEnd (c : ascii) (t : string) :
  isWhiteSpace c = false ->
  trimStart (trimEnd (String c t)) = trimEnd (String c t).
Proof.
  intros Hc. cbn [trimEnd]. rewrite Hc.
  destruct (trimEnd t); cbn [trimStart]; now rewrite Hc.
Qed.

Lemma trim_idempotent (s : string) : trim (trim s) = trim s.
Proof.
  unfold trim. destruct (trimStart_head s) as [-> | [c [t [-> Hc]]]].
  - reflexivity.
  - rewrite trimStart_trimEnd by exact Hc. apply trimEnd_idempotent.
Qed.

Lemma isPlaceholder_trim (s : string) : isPlaceholder (trim s) = isPlaceholder s.
Proof. unfold isPlaceholder. now rewrite trim_idempotent. Qed.

(** ** The parser *)

Lemma substring_length (s : string) :
  forall n m, (n + m <= String.length s)%nat ->
              String.length (substring n m s) = m.
Proof.
  induction s as [|c s IH]; intros n m Hle; cbn [String.length] in Hle.
  - assert (n = 0%nat) by lia. assert (m = 0%nat) by lia. now subst.
  - destruct n as [|n]; destruct m as [|m]; cbn [substring String.length].
    + reflexivity.
    + f_equal. apply IH. lia.
    + apply IH. lia.
    + apply IH. lia.
Qed.

Lemma isPlaceholder_interior (token : string) :
  isPlaceholder token = true -> slice (trim token) 2 (-2) <> "".
Proof.
  unfold isPlaceholder. intros H.
  apply andb_true_iff in H as [H _]. apply andb_true_iff in H as [_ Hlen].
  apply Z.leb_le in Hlen. unfold len in Hlen.
  intros Hempty.
  assert (Hl : String.length (slice (trim token) 2 (-2))
               = (String.length (trim token) - 4)%nat).
  { unfold slice, sliceIndex, len. cbn [Z.ltb Z.compare].
    rewrite Z.min_l by lia. rewrite Z.max_l by lia.
    rewrite substring_length; lia. }
  rewrite Hempty in Hl. cbn [String.length] in Hl. lia.
Qed.

Lemma pushChar_not_empty (current : string) (c : ascii) : pushChar current c <> "".
Proof. unfold pushChar. destruct current; discriminate. Qed.

Lemma splitByPipeFrom_not_empty (rest : string) :
  forall parts current depth,
    rest <> "" \/ parts <> [] \/ current <> "" ->
    splitByPipeFrom rest parts current depth <> [].
Proof.
  induction rest as [|c rest IH]; intros parts current depth H.
  - cbn [splitByPipeFrom]. unfold pushLast.
    destruct (String.eqb_spec current "") as [-> | Hcur].
    + destruct H as [H | [H | H]]; [now elim H | exact H | now elim H].
    + destruct parts; discriminate.
  - cbn [splitByPipeFrom].
    repeat match goal with
           | |- context [if ?b then _ else _] => destruct b
           end;
      apply IH; right;
      first [ right; apply pushChar_not_empty
            | left; destruct parts; discriminate ].
Qed.

Lemma splitByPipe_not_empty (inner : string) :
  inner <> "" -> splitByPipe inner <> [].
Proof. intros H. apply splitByPipeFrom_not_empty. now left. Qed.

(** C3, as amended.  [parse] fails exactly when [isPlaceholder] rejects the
    token or the colon split of its main segment has fewer than two parts;
    the main segment always exists; and the module, the action and the
    arguments of a parsed placeholder are the trimmed parts of that split in
    order, so a part that is empty gives an empty module or action. *)
Theorem parse_fails_exactly (token : string) :
  ((exists msg, parse token = Err msg) <->
     isPlaceholder token = false
     \/ (List.length (splitByColon (mainPartOf token)) < 2)%nat)
  /\ (isPlaceholder token = true ->
      splitByPipe (slice (trim token) 2 (-2)) <> [])
  /\ (forall p, parse token = OK p ->
        let parts := splitByColon (mainPartOf token) in
        original p = trim token
        /\ module p = trim (nth 0 parts "")
        /\ action p = trim (nth 1 parts "")
        /\ args p = map trim (skipn 2 parts)).
Proof.
  assert (Hdefined : isPlaceholder token = true ->
                     splitByPipe (slice (trim token) 2 (-2)) <> []).
  { intros Hp. apply splitByPipe_not_empty. now apply isPlaceholder_interior. }
  unfold parse, mainPartOf. rewrite isPlaceholder_trim.
  destruct (isPlaceholder token) eqn:Hp; cbn [negb].
  - specialize (Hdefined eq_refl).
    destruct (splitByPipe (slice (trim token) 2 (-2)))
      as [|mainPart transformParts]; [now elim Hdefined |].
    cbn [hd]. unfold parseMainPart.
    destruct (splitByColon mainPart) as [|m [|a rest]]; cbn [bind List.length].
    + split; [| split; [discriminate | discriminate]].
      split; [intros _; right; lia | intros _; eexists; reflexivity].
    + split; [| split; [discriminate | discriminate]].
      split; [intros _; right; lia | intros _; eexists; reflexivity].
    + split; [| split; [discriminate |]].
      * split; [intros [msg Hmsg]; discriminate |].
        intros [H | H]; [discriminate | lia].
      * intros p Hparsed. injection Hparsed as <-. cbn. auto.
  - split; [| split; [discriminate | discriminate]].
    split; [intros _; now left | intros _; eexists; reflexivity].
Qed.

Lemma parse_fails_exactly_witness :
  (exists msg, parse "{{gen}}" = Err msg)
  /\ exists p,
      parse "  {{ gen : uuid : inst1 }}  " = OK p
      /\ module p = "gen" /\ action p = "uuid" /\ args p = ["inst1"].
Proof.
  split.
  - destruct (parse_fails_exactly "{{gen}}") as [[_ Hfails] _].
    apply Hfails. right. vm_compute. lia.
  - destruct (parse_fails_exactly "  {{ gen : uuid : inst1 }}  ")
      as [_ [_ Hfields]].
    pose (p := {| original := "{{ gen : uuid : inst1 }}"; module := "gen";
                  action := "uuid"; args := ["inst1"]; transforms := [] |}).
    assert (Hp : parse "  {{ gen : uuid : inst1 }}  " = OK p)
      by (vm_compute; reflexivity).
    exists p. split; [exact Hp |].
    destruct (Hfields p Hp) as [_ [Hmodule [Haction Hargs]]].
    rewrite Hmodule, Haction, Hargs. vm_compute. repeat split.
Defined.

(** C3, as stated, fails: a token whose first segment is empty is parsed,
    with the empty string as its module. *)
Lemma parse_accepts_empty_module :
  parse "{{:a:b}}"
  = OK {| original := "{{:a:b}}"; module := ""; action := "a";
          args := ["b"]; transforms := [] |}
  /\ ~ (forall token p, parse token = OK p ->
                        trim (module p) <> "" /\ trim (action p) <> "").
Proof.
  assert (H : parse "{{:a:b}}"
              = OK {| original := "{{:a:b}}"; module := ""; action := "a";
                      args := ["b"]; transforms := [] |})
    by (vm_compute; reflexivity).
  split; [exact H |].
  intros Hall. destruct (Hall _ _ H) as [Hmodule _]. now apply Hmodule.
Qed.

(** ** Selective filtering *)

Lemma substring_none (s : string) : substring (String.length s) 0 s = "".
Proof. induction s as [|c s IH]; [reflexivity | exact IH]. Qed.

Lemma prefix_refl (s : string) : prefix s s = true.
Proof.
  induction s as [|c s IH]; [reflexivity |].
  cbn [prefix]. now destruct (ascii_dec c c).
Qed.

Lemma getSubstitution_plain (matched before after template : string) :
  forallChars (fun c => negb (Ascii.eqb c "$")) template = true ->
  getSubstitution matched before after template = template.
Proof.
  induction template as [|c t IH]; [reflexivity |].
  cbn [forallChars getSubstitution]. intros H.
  apply andb_true_iff in H as [Hc Ht]. apply negb_true_iff in Hc.
  rewrite Hc. now rewrite IH.
Qed.

(** Replacing a string by itself inside itself changes nothing, when it
    holds no dollar sign. *)
Lemma replace_self (s : string) :
  forallChars (fun c => negb (Ascii.eqb c "$")) s = true ->
  replace s s s = s.
Proof.
  intros Hplain. unfold replace, indexOf.
  assert (Hzero : indexOfFrom s s 0 = 0)
    by (destruct s; cbn [indexOfFrom]; now rewrite prefix_refl).
  rewrite Hzero. cbn [Z.ltb Z.compare Z.to_nat Nat.add].
  unfold dropChars. rewrite Nat.sub_diag, substring_none.
  replace (substring 0 0 s) with "" by now destruct s.
  cbn [append]. rewrite append_nil_r. now apply getSubstitution_plain.
Qed.

(** A token whose module is missing from the include list, or present in
    the exclude list, resolves to the token string itself in both
    processors, with no error; a module named in both lists is covered by
    the second case, since passing the include check leaves the exclude
    check to run.  A JSON leaf that is exactly such a token stays that
    string, and so does a text that is exactly such a token and holds no
    dollar sign. *)
Lemma filtered_token_is_returned registry options token parsed :
  parse token = OK parsed ->
  (exists included, includePlugins options = Some included
                    /\ ~ In (module parsed) included)
  \/ (exists excludedList, excludePlugins options = Some excludedList
                           /\ In (module parsed) excludedList) ->
  (forall path,
      JsonProcessor.resolvePlaceholder registry options token path
      = OK (JString token))
  /\ TextProcessor.resolvePlaceholder registry options token = OK token
  /\ (forall path,
         isPlaceholder token = true ->
         List.length (findPlaceholders token) = 1%nat ->
         JsonProcessor.processStringValue registry options token path
         = OK (JString token))
  /\ (findPlaceholders token = [token] ->
      forallChars (fun c => negb (Ascii.eqb c "$")) token = true ->
      TextProcessor.process registry options token = OK token).
Proof.
  intros Hparse Hfiltered.
  assert (Hskip : notIncluded options (module parsed) = true
                  \/ excluded options (module parsed) = true).
  { destruct Hfiltered as [[l [Hl Hnot]] | [l [Hl Hin]]].
    - left. unfold notIncluded. rewrite Hl. apply negb_true_iff.
      destruct (inList (module parsed) l) eqn:E; [| reflexivity].
      apply inList_In in E. contradiction.
    - right. unfold excluded. rewrite Hl. now apply inList_In. }
  assert (Hjson : forall path,
             JsonProcessor.resolvePlaceholder registry options token path
             = OK (JString token)).
  { intros path. unfold JsonProcessor.resolvePlaceholder, tryResolve.
    rewrite Hparse. cbn [bind].
    destruct Hskip as [-> | Hex]; [reflexivity |].
    rewrite Hex. now destruct (notIncluded options (module parsed)). }
  assert (Htext : TextProcessor.resolvePlaceholder registry options token
                  = OK token).
  { unfold TextProcessor.resolvePlaceholder. rewrite Hparse. cbn [bind].
    destruct Hskip as [-> | Hex]; [reflexivity |].
    rewrite Hex. now destruct (notIncluded options (module parsed)). }
  split; [exact Hjson |]. split; [exact Htext |]. split.
  - intros path Hpure Hone. unfold JsonProcessor.processStringValue.
    rewrite Hpure, Hone. cbn [Nat.eqb andb].
    destruct (findPlaceholders token); [discriminate Hone | apply Hjson].
  - intros Hfound Hplain.
    unfold TextProcessor.process, TextProcessor.maxIterations.
    cbn [TextProcessor.loop].
    destruct (String.eqb_spec token "") as [-> | _];
      [vm_compute in Hfound; discriminate |].
    rewrite Hfound. cbn [foldM]. unfold TextProcessor.replaceOne.
    rewrite Htext. cbn [bind]. rewrite replace_self by exact Hplain.
    now rewrite String.eqb_refl.
Qed.

Example filtered_token_in_both_lists :
  JsonProcessor.processStringValue mockRegistry
    {| includePlugins := Some ["mock"; "gen"];
       excludePlugins := Some ["mock"];
       context := None |}
    "{{mock:echo:should-not-replace}}" ["value"]
  = OK (JString "{{mock:echo:should-not-replace}}").
Proof.
  destruct (filtered_token_is_returned mockRegistry
              {| includePlugins := Some ["mock"; "gen"];
                 excludePlugins := Some ["mock"];
                 context := None |}
              "{{mock:echo:should-not-replace}}" _ eq_refl)
    as [_ [_ [Hleaf _]]].
  - right. exists ["mock"]. split; [reflexivity | now left].
  - apply Hleaf; vm_compute; reflexivity.
Defined.

(** ** Failures *)

Lemma firstFailure_app registry options leaves1 leaves2 :
  firstFailure registry options (leaves1 ++ leaves2)
  = match firstFailure registry options leaves1 with
    | Some e => Some e
    | None => firstFailure registry options leaves2
    end.
Proof.
  induction leaves1 as [|[path s] leaves1 IH]; [reflexivity |].
  cbn [app firstFailure].
  destruct (JsonProcessor.processStringValue registry options s path);
    [exact IH | reflexivity].
Qed.

Section DocumentFailure.

Variable registry : PluginRegistry.t.
Variable options : ProcessOptions.

Let processNode := JsonProcessor.processNode registry options.

Lemma eachItem_failure (path : list string) (items : list JsonValue) :
  Forall (fun item => forall p,
              failureOf (processNode item p)
              = firstFailure registry options (stringLeaves item p)) items ->
  forall i processed,
    failureOf (JsonProcessor.eachItem processNode path items i processed)
    = firstFailure registry options (leavesOfItems path stringLeaves items i).
Proof.
  induction 1 as [|item items Hitem _ IH]; intros i processed.
  - reflexivity.
  - cbn [JsonProcessor.eachItem leavesOfItems]. rewrite firstFailure_app.
    rewrite <- Hitem.
    destruct (processNode item (path ++ [JsonProcessor.indexKey i])%list);
      cbn [bind failureOf]; [apply IH | reflexivity].
Qed.

Lemma eachEntry_failure (path : list string)
      (entries : list (string * JsonValue)) :
  Forall (fun e => forall p,
              failureOf (processNode (snd e) p)
              = firstFailure registry options (stringLeaves (snd e) p))
         entries ->
  forall processed,
    failureOf (JsonProcessor.eachEntry processNode path entries processed)
    = firstFailure registry options (leavesOfEntries path stringLeaves entries).
Proof.
  induction 1 as [|[key v] entries Hentry _ IH]; intros processed.
  - reflexivity.
  - cbn [JsonProcessor.eachEntry leavesOfEntries]. rewrite firstFailure_app.
    cbn [snd] in Hentry. rewrite <- Hentry.
    destruct (processNode v (path ++ [key])%list);
      cbn [bind failureOf]; [apply IH | reflexivity].
Qed.

(** The walk over a document fails exactly when the processing of one of
    its string leaves fails, with the error of the first such leaf. *)
Lemma processNode_failure (node : JsonValue) :
  forall path,
    failureOf (processNode node path)
    = firstFailure registry options (stringLeaves node path).
Proof.
  induction node as [| b | n | s | items IH | entries IH]
    using JsonValue_induction; intros path; try reflexivity.
  - unfold processNode. cbn [JsonProcessor.processNode stringLeaves].
    rewrite <- (eachItem_failure path items IH 0%nat []).
    fold processNode.
    now destruct (JsonProcessor.eachItem processNode path items 0 []).
  - unfold processNode. cbn [JsonProcessor.processNode stringLeaves].
    rewrite <- (eachEntry_failure path entries IH []).
    fold processNode.
    now destruct (JsonProcessor.eachEntry processNode path entries []).
Qed.

End DocumentFailure.

(** ** The substitution loops *)

Lemma foldM_error {A S : Type} (f : S -> A -> result S) (xs : list A) :
  forall s e, foldM f xs s = Err e -> exists s' x, In x xs /\ f s' x = Err e.
Proof.
  induction xs as [|x xs IH]; intros s e H; cbn [foldM] in H.
  - discriminate.
  - destruct (f s x) as [s1 | e1] eqn:Hstep; cbn [bind] in H.
    + destruct (IH _ _ H) as [s' [y [Hin Hy]]].
      exists s', y. split; [now right | exact Hy].
    + injection H as <-. exists s, x. split; [now left | exact Hstep].
Qed.

Lemma text_replaceOne_error registry options s p e :
  TextProcessor.replaceOne registry options s p = Err e ->
  TextProcessor.resolvePlaceholder registry options p = Err e.
Proof.
  unfold TextProcessor.replaceOne.
  destruct (TextProcessor.resolvePlaceholder registry options p);
    cbn [bind]; intros H; [discriminate H | exact H].
Qed.

Lemma text_loop_bounded registry options (remaining : nat) :
  forall result0 previousResult iterations,
    match TextProcessor.loop registry options remaining result0 previousResult
                             iterations with
    | OK (_, passes) => (passes <= iterations + remaining)%nat
    | Err e =>
        exists p, TextProcessor.resolvePlaceholder registry options p = Err e
    end.
Proof.
  induction remaining as [|remaining IH]; intros result0 previousResult iterations;
    cbn [TextProcessor.loop].
  - lia.
  - destruct (String.eqb result0 previousResult); [lia |].
    destruct (findPlaceholders result0) as [|p ps]; [lia |].
    destruct (foldM (TextProcessor.replaceOne registry options) (p :: ps) result0)
      as [result1 | e] eqn:Hpass; cbn [bind].
    + specialize (IH result1 result0 (S iterations)).
      destruct (TextProcessor.loop registry options remaining result1 result0
                                   (S iterations)) as [[r passes] | e];
        [lia | exact IH].
    + destruct (foldM_error _ _ _ _ Hpass) as [s' [x [_ Hx]]].
      exists x. now apply text_replaceOne_error in Hx.
Qed.

Lemma json_passStep_error registry options path isPure current state p e :
  JsonProcessor.passStep registry options path isPure current state p = Err e ->
  JsonProcessor.resolvePlaceholder registry options p path = Err e.
Proof.
  unfold JsonProcessor.passStep, JsonProcessor.resolveAndReplace.
  destruct (JsonProcessor.containsOthers current p); [discriminate |].
  destruct state as [result0 lastResolvedValue].
  destruct (JsonProcessor.resolvePlaceholder registry options p path);
    cbn [bind]; intros H; [discriminate H | now injection H as ->].
Qed.

Lemma json_loop_bounded registry options path isPure (remaining : nat) :
  forall result0 previousResult lastResolvedValue iterations,
    match JsonProcessor.loop registry options path isPure remaining result0
                             previousResult lastResolvedValue iterations with
    | OK (_, _, passes) => (passes <= iterations + remaining)%nat
    | Err e =>
        exists p,
          JsonProcessor.resolvePlaceholder registry options p path = Err e
    end.
Proof.
  induction remaining as [|remaining IH];
    intros result0 previousResult lastResolvedValue iterations;
    cbn [JsonProcessor.loop].
  - lia.
  - destruct (String.eqb result0 previousResult); [lia |].
    destruct (findPlaceholders result0) as [|p ps]; [lia |].
    destruct (JsonProcessor.pass registry options path isPure (p :: ps)
                                 (result0, lastResolvedValue))
      as [state | e] eqn:Hpass; cbn [bind].
    + specialize (IH (fst state) result0 (snd state) (S iterations)).
      destruct (JsonProcessor.loop registry options path isPure remaining
                  (fst state) result0 (snd state) (S iterations))
        as [[[r l] passes] | e]; [lia | exact IH].
    + unfold JsonProcessor.pass in Hpass.
      destruct (foldM_error _ _ _ _ Hpass) as [s' [x [_ Hx]]].
      exists x. now apply json_passStep_error in Hx.
Qed.

(** An error of [processStringValue] is the error of a resolution. *)
Lemma processStringValue_error registry options value path e :
  JsonProcessor.processStringValue registry options value path = Err e ->
  exists p, JsonProcessor.resolvePlaceholder registry options p path = Err e.
Proof.
  unfold JsonProcessor.processStringValue.
  destruct (findPlaceholders value) as [|p ps]; [discriminate |].
  destruct (isPlaceholder value && (List.length (p :: ps) =? 1)%nat).
  - intros H. now exists value.
  - pose proof (json_loop_bounded registry options path (isPlaceholder value)
                  JsonProcessor.maxIterations value "" JNull 0%nat) as Hloop.
    destruct (JsonProcessor.loop registry options path (isPlaceholder value)
                JsonProcessor.maxIterations value "" JNull 0)
      as [[[result0 lastResolvedValue] passes] | e0]; cbn [bind].
    + unfold JsonProcessor.afterLoop.
      destruct (isPlaceholder value); [| discriminate].
      destruct (negb (JsonProcessor.isNull lastResolvedValue)); [discriminate |].
      destruct (isPlaceholder result0); [| discriminate].
      intros H. now exists result0.
    + intros H. injection H as <-. exact Hloop.
Qed.

(** A leaf that is not a placeholder as a whole becomes a string. *)
Lemma interpolated_leaf_is_string registry options value path v :
  isPlaceholder value = false ->
  JsonProcessor.processStringValue registry options value path = OK v ->
  exists s, v = JString s.
Proof.
  intros Hpure. unfold JsonProcessor.processStringValue. rewrite Hpure.
  cbn [andb].
  destruct (findPlaceholders value) as [|p ps].
  - intros H. injection H as <-. now exists value.
  - destruct (JsonProcessor.loop registry options path false
                JsonProcessor.maxIterations value "" JNull 0)
      as [[[result0 lastResolvedValue] passes] | e0]; cbn [bind];
      [| discriminate].
    unfold JsonProcessor.afterLoop. intros H. injection H as <-.
    now exists result0.
Qed.

(** C6.  The loops of the text processor and of the JSON processor make at
    most ten passes; both are total functions.  Reaching the bound is no
    error: a loop fails only with the error of a token resolution, and so
    does the processing of a JSON leaf, which for a leaf that is not a
    placeholder as a whole returns a string.  On eleven copies of one token
    the text loop stops after ten passes with the last copy in place, and
    on eleven nested tokens after a prefix the JSON loop stops after ten
    passes with the outermost token in place; both return that string. *)
Theorem substitution_loops_are_bounded :
  (forall registry options text,
      match TextProcessor.loop registry options TextProcessor.maxIterations
                               text "" 0 with
      | OK (result0, passes) =>
          (passes <= 10)%nat
          /\ TextProcessor.process registry options text = OK result0
      | Err e =>
          exists p, TextProcessor.resolvePlaceholder registry options p = Err e
      end)
  /\ (forall registry options path isPure value,
         match JsonProcessor.loop registry options path isPure
                                  JsonProcessor.maxIterations value "" JNull 0 with
         | OK (_, _, passes) => (passes <= 10)%nat
         | Err e =>
             exists p,
               JsonProcessor.resolvePlaceholder registry options p path = Err e
         end)
  /\ (forall registry options path value,
         match JsonProcessor.processStringValue registry options value path with
         | OK v => isPlaceholder value = false -> exists s, v = JString s
         | Err e =>
             exists p,
               JsonProcessor.resolvePlaceholder registry options p path = Err e
         end)
  /\ TextProcessor.loop mockRegistry defaultOptions TextProcessor.maxIterations
                        (copies 11 "{{mock:echo:x}}") "" 0
     = OK ("x x x x x x x x x x {{mock:echo:x}}", 10%nat)
  /\ JsonProcessor.loop mockRegistry defaultOptions [] false
                        JsonProcessor.maxIterations
                        ("id-" ++ nestEcho 11 "x") "" JNull 0
     = OK ("id-{{mock:echo:x}}", JNull, 10%nat)
  /\ JsonProcessor.processStringValue mockRegistry defaultOptions
       ("id-" ++ nestEcho 11 "x") []
     = OK (JString "id-{{mock:echo:x}}").
Proof.
  split; [| split; [| split; [| repeat split; vm_compute; reflexivity]]].
  - intros registry options text.
    pose proof (text_loop_bounded registry options TextProcessor.maxIterations
                  text "" 0%nat) as H.
    unfold TextProcessor.process.
    destruct (TextProcessor.loop registry options TextProcessor.maxIterations
                                 text "" 0) as [[result0 passes] | e];
      [| exact H].
    split; [exact H | reflexivity].
  - intros registry options path isPure value.
    exact (json_loop_bounded registry options path isPure
             JsonProcessor.maxIterations value "" JNull 0%nat).
  - intros registry options path value.
    destruct (JsonProcessor.processStringValue registry options value path)
      as [v | e] eqn:H.
    + intros Hpure. eapply interpolated_leaf_is_string; eassumption.
    + eapply processStringValue_error; eassumption.
Qed.

Lemma substitution_loops_are_bounded_witness :
  isPlaceholder "Count: {{mock:number:42}}" = false
  /\ exists s,
      JsonProcessor.processStringValue mockRegistry defaultOptions
        "Count: {{mock:number:42}}" ["label"]
      = OK (JString s).
Proof.
  split; [reflexivity |].
  destruct substitution_loops_are_bounded as [_ [_ [Hleaf _]]].
  specialize (Hleaf mockRegistry defaultOptions ["label"]
                    "Count: {{mock:number:42}}").
  destruct (JsonProcessor.processStringValue mockRegistry defaultOptions
              "Count: {{mock:number:42}}" ["label"]) as [v | e] eqn:H.
  - destruct (Hleaf eq_refl) as [s ->]. now exists s.
  - vm_compute in H. discriminate H.
Defined.

(** ** Innermost-first resolution in the JSON loop *)

Lemma pass_resolves_innermost registry options path isPure current :
  forall sorted state,
    foldM (JsonProcessor.passStep registry options path isPure current)
          sorted state
    = foldM (JsonProcessor.resolveAndReplace registry options path isPure current)
            (innermost current sorted) state.
Proof.
  induction sorted as [|p sorted IH]; intros state; [reflexivity |].
  unfold innermost. cbn [foldM filter]. unfold JsonProcessor.passStep at 1.
  destruct (JsonProcessor.containsOthers current p); cbn [negb bind foldM].
  - apply IH.
  - destruct (JsonProcessor.resolveAndReplace registry options path isPure
                current state p); cbn [bind]; [apply IH | reflexivity].
Qed.

Lemma json_loop_step registry options path isPure remaining result0
      previousResult lastResolvedValue iterations :
  JsonProcessor.loop registry options path isPure (S remaining) result0
                     previousResult lastResolvedValue iterations
  = if String.eqb result0 previousResult
    then OK (result0, lastResolvedValue, iterations)
    else
      match findPlaceholders result0 with
      | [] => OK (result0, lastResolvedValue, iterations)
      | currentPlaceholders =>
          state <- JsonProcessor.pass registry options path isPure
                     currentPlaceholders (result0, lastResolvedValue) ;;
          JsonProcessor.loop registry options path isPure remaining
            (fst state) result0 (snd state) (S iterations)
      end.
Proof. reflexivity. Qed.

(** ** Type preservation *)

(** A leaf that is a placeholder as a whole and holds one found token
    becomes what resolving it gives, with that type. *)
Lemma pure_leaf_keeps_type registry options value path v :
  isPlaceholder value = true ->
  List.length (findPlaceholders value) = 1%nat ->
  JsonProcessor.resolvePlaceholder registry options value path = OK v ->
  JsonProcessor.processStringValue registry options value path = OK v.
Proof.
  intros Hpure Hone Hv.
  unfold JsonProcessor.processStringValue. rewrite Hpure, Hone.
  cbn [Nat.eqb andb].
  destruct (findPlaceholders value); [discriminate Hone | exact Hv].
Qed.

(** C1, at the failing input.  The leaf
    [{{mock:number:42:a}} and {{mock:number:42:a}}] holds a token and other
    text; the scanner finds the one token [{{mock:number:42:a}}], the leaf
    as a whole passes [isPlaceholder], and the leaf is resolved as if it
    were one token: the output leaf is the number [42], not a string. *)
Theorem duplicated_token_leaf_becomes_number :
  findPlaceholders duplicatedLeaf = ["{{mock:number:42:a}}"]
  /\ trim duplicatedLeaf <> "{{mock:number:42:a}}"
  /\ isPlaceholder duplicatedLeaf = true
  /\ JsonProcessor.processStringValue mockRegistry defaultOptions
       duplicatedLeaf ["label"]
     = OK (JNumber 42)
  /\ JsonProcessor.process mockRegistry defaultOptions
       (JObject [("label", JString duplicatedLeaf)])
     = OK (JObject [("label", JNumber 42)]).
Proof.
  repeat split; try (vm_compute; reflexivity).
  vm_compute. discriminate.
Qed.

(** ** Text mode *)

(** C8, at the failing input.  The text processor replaces the first
    occurrence of a token in a pass, not every occurrence: one pass over two
    copies of a token leaves the second copy, and on eleven copies the ten
    passes leave the last copy in the result.  The JSON loop replaces all
    eleven.  Nor is the loop that of JSON mode: a nested token is resolved
    outermost first, which here fails on the upper-cased inner token. *)
Theorem text_replaces_first_occurrence_only :
  foldM (TextProcessor.replaceOne mockRegistry defaultOptions)
        (findPlaceholders (copies 2 "{{mock:echo:x}}"))
        (copies 2 "{{mock:echo:x}}")
  = OK "x {{mock:echo:x}}"
  /\ TextProcessor.process mockRegistry defaultOptions
       (copies 11 "{{mock:echo:x}}")
     = OK "x x x x x x x x x x {{mock:echo:x}}"
  /\ JsonProcessor.processStringValue mockRegistry defaultOptions
       ("all: " ++ copies 11 "{{mock:echo:x}}") []
     = OK (JString "all: x x x x x x x x x x x")
  /\ TextProcessor.process mockRegistry defaultOptions
       "{{mock:uppercase:{{mock:echo:hi}}}}"
     = Err ("Failed to resolve placeholder " ++ quote ++ "{{MOCK:ECHO:HI}}"
              ++ quote
              ++ ": Plugin 'MOCK' not found. Available plugins: mock")
  /\ JsonProcessor.processStringValue mockRegistry defaultOptions
       "{{mock:uppercase:{{mock:echo:hi}}}}" []
     = OK (JString "HI").
Proof.
  repeat split; vm_compute; reflexivity.
Qed.

(** ** Documents without tokens *)

Lemma indexOfFrom_none_shift (p s : string) :
  forall i j, 0 <= i -> 0 <= j ->
              indexOfFrom s p i = -1 -> indexOfFrom s p j = -1.
Proof.
  induction s as [|c s IH]; intros i j Hi Hj; cbn [indexOfFrom].
  - destruct (prefix p ""); [lia | reflexivity].
  - destruct (prefix p (String c s)); [lia |].
    apply IH; lia.
Qed.

Lemma indexOf_none_tail (p : string) (c : ascii) (s : string) :
  indexOf (String c s) p = -1 ->
  prefix p (String c s) = false /\ indexOf s p = -1.
Proof.
  unfold indexOf. cbn [indexOfFrom].
  destruct (prefix p (String c s)); [discriminate |].
  intros H. split; [reflexivity |].
  now apply (indexOfFrom_none_shift p s (0 + 1) 0).
Qed.

Lemma includes_false (s p : string) : includes s p = false -> indexOf s p = -1.
Proof.
  unfold includes, indexOf. intros H. apply Z.leb_gt in H.
  assert (Hge : forall t i, 0 <= i ->
                            indexOfFrom t p i = -1 \/ i <= indexOfFrom t p i).
  { induction t as [|c t IH]; intros i Hi; cbn [indexOfFrom].
    - destruct (prefix p ""); [right; lia | now left].
    - destruct (prefix p (String c t)); [right; lia |].
      destruct (IH (i + 1)) as [-> | Hle]; [lia | now left | right; lia]. }
  destruct (Hge s 0) as [Hnone | Hle]; [lia | exact Hnone | lia].
Qed.

Lemma scanFrom_step (recur : string -> list string -> list string)
      (content : string) (c next : ascii) (rest2 : string) i depth start acc :
  scanFrom recur content (String c (String next rest2)) i depth start acc
  = if Ascii.eqb c "{" && Ascii.eqb next "{" then
      scanFrom recur content rest2 (i + 2) (depth + 1)
               (if depth =? 0 then i else start) acc
    else if Ascii.eqb c "}" && Ascii.eqb next "}" then
      if (depth - 1 =? 0) && negb (start =? -1) then
        scanFrom recur content rest2 (i + 2) (depth - 1) start
                 (recur (slice (slice content start (i + 2)) 2 (-2))
                        (setAdd (slice content start (i + 2)) acc))
      else scanFrom recur content rest2 (i + 2) (depth - 1) start acc
    else scanFrom recur content (String next rest2) (i + 1) depth start acc.
Proof. reflexivity. Qed.

Lemma scanFrom_without_open (recur : string -> list string -> list string)
      (content : string) (n : nat) :
  forall rest i depth acc,
    (String.length rest <= n)%nat ->
    indexOf rest "{{" = -1 ->
    scanFrom recur content rest i depth (-1) acc = acc.
Proof.
  induction n as [|n IH]; intros rest i depth acc Hlen Hnone.
  - destruct rest; [reflexivity | cbn [String.length] in Hlen; lia].
  - destruct rest as [|c rest1]; [reflexivity |].
    destruct rest1 as [|next rest2]; [reflexivity |].
    apply indexOf_none_tail in Hnone as [Hprefix Hnone1].
    pose proof Hnone1 as Hnone2.
    apply indexOf_none_tail in Hnone2 as [_ Hnone2].
    cbn [String.length] in Hlen.
    rewrite scanFrom_step.
    destruct (Ascii.eqb c "{" && Ascii.eqb next "{") eqn:Hopen.
    + exfalso. apply andb_true_iff in Hopen as [Hc Hn].
      apply Ascii.eqb_eq in Hc, Hn. subst c next.
      destruct rest2; vm_compute in Hprefix; discriminate Hprefix.
    + destruct (Ascii.eqb c "}" && Ascii.eqb next "}").
      * replace ((depth - 1 =? 0) && negb (-1 =? -1)) with false
          by now rewrite andb_false_r.
        apply IH; [lia | exact Hnone2].
      * apply IH; [cbn [String.length]; lia | exact Hnone1].
Qed.

(** A string without an opening pair of braces holds no placeholder. *)
Lemma findPlaceholders_without_open (s : string) :
  includes s "{{" = false -> findPlaceholders s = [].
Proof.
  intros H. unfold findPlaceholders. cbn [findPlaceholdersRecursive].
  apply (scanFrom_without_open _ _ (String.length s)); [lia |].
  now apply includes_false.
Qed.

(** ** The recursion of the scanner *)

Lemma substring_length_le (s : string) :
  forall n m, (String.length (substring n m s) <= m)%nat
              /\ (String.length (substring n m s) <= String.length s)%nat.
Proof.
  induction s as [|c s IH]; intros n m.
  - destruct n, m; cbn; lia.
  - destruct n as [|n]; destruct m as [|m]; cbn [substring String.length];
      try lia.
    + specialize (IH 0%nat m). lia.
    + specialize (IH n 0%nat). lia.
    + specialize (IH n (S m)). lia.
Qed.

Lemma interior_shorter (content : string) (start stop : Z) :
  (0 < String.length content)%nat ->
  (String.length (slice (slice content start stop) 2 (-2))
   < String.length content)%nat.
Proof.
  intros Hpos.
  set (p := slice content start stop).
  assert (Hp : (String.length p <= String.length content)%nat)
    by apply substring_length_le.
  unfold slice at 1.
  match goal with
  | |- (String.length (substring ?n ?m p) < _)%nat =>
      pose proof (proj1 (substring_length_le p n m)) as Hm
  end.
  unfold sliceIndex, len in *. cbn [Z.ltb Z.compare] in *. lia.
Qed.

Lemma scanFrom_ext (recur1 recur2 : string -> list string -> list string)
      (content : string) :
  (0 < String.length content)%nat ->
  (forall inner acc,
      (String.length inner < String.length content)%nat ->
      recur1 inner acc = recur2 inner acc) ->
  forall n rest i depth start acc,
    (String.length rest <= n)%nat ->
    scanFrom recur1 content rest i depth start acc
    = scanFrom recur2 content rest i depth start acc.
Proof.
  intros Hpos Hagree.
  induction n as [|n IH]; intros rest i depth start acc Hlen.
  - destruct rest; [reflexivity | cbn [String.length] in Hlen; lia].
  - destruct rest as [|c rest1]; [reflexivity |].
    destruct rest1 as [|next rest2]; [reflexivity |].
    cbn [String.length] in Hlen. rewrite !scanFrom_step.
    destruct (Ascii.eqb c "{" && Ascii.eqb next "{"); [apply IH; lia |].
    destruct (Ascii.eqb c "}" && Ascii.eqb next "}").
    + destruct ((depth - 1 =? 0) && negb (start =? -1)); [| apply IH; lia].
      rewrite Hagree by now apply interior_shorter. apply IH. lia.
    + apply IH. cbn [String.length]. lia.
Qed.

(** The result of the scanner does not depend on the fuel, once the fuel
    exceeds the length of the content. *)
Lemma findPlaceholdersRecursive_fuel (fuel1 : nat) :
  forall fuel2 content acc,
    (String.length content < fuel1)%nat ->
    (String.length content < fuel2)%nat ->
    findPlaceholdersRecursive fuel1 content acc
    = findPlaceholdersRecursive fuel2 content acc.
Proof.
  induction fuel1 as [|fuel1 IH]; intros fuel2 content acc H1 H2; [lia |].
  destruct fuel2 as [|fuel2]; [lia |].
  cbn [findPlaceholdersRecursive].
  destruct content as [|c content]; [reflexivity |].
  apply (scanFrom_ext _ _ _) with (n := String.length (String c content)).
  - cbn [String.length]. lia.
  - intros inner acc' Hinner. apply IH; lia.
  - lia.
Qed.

Lemma findPlaceholders_fuel (fuel : nat) (content : string) :
  (String.length content < fuel)%nat ->
  findPlaceholdersRecursive fuel content [] = findPlaceholders content.
Proof.
  intros H. unfold findPlaceholders. apply findPlaceholdersRecursive_fuel; lia.
Qed.

Lemma setProperty_fresh processed key v :
  inList key (map fst processed) = false ->
  JsonProcessor.setProperty processed key v = (processed ++ [(key, v)])%list.
Proof.
  induction processed as [|[k v0] processed IH]; intros Hfresh;
    [reflexivity |].
  cbn [map fst inList existsb] in Hfresh. unfold inList in IH.
  apply orb_false_iff in Hfresh as [Hk Hrest].
  cbn [JsonProcessor.setProperty app].
  rewrite String.eqb_sym, Hk. now rewrite IH.
Qed.

Lemma distinct_app_cons (keys1 : list string) (k : string) (keys2 : list string) :
  distinct (keys1 ++ k :: keys2) = true ->
  inList k keys1 = false /\ distinct ((keys1 ++ [k]) ++ keys2) = true.
Proof.
  intros H. rewrite <- app_assoc. split; [| exact H].
  induction keys1 as [|a keys1 IH]; [reflexivity |].
  cbn [app distinct] in H. apply andb_true_iff in H as [Ha Hrest].
  apply negb_true_iff in Ha. unfold inList in *. cbn [existsb].
  apply orb_false_iff. split; [| now apply IH].
  destruct (String.eqb_spec k a) as [-> | _]; [| reflexivity].
  rewrite existsb_app in Ha. apply orb_false_iff in Ha as [_ Ha].
  cbn [existsb] in Ha. now rewrite String.eqb_refl in Ha.
Qed.

Section TokenFree.

Variable registry : PluginRegistry.t.
Variable options : ProcessOptions.

Let processNode := JsonProcessor.processNode registry options.

Let leafFree (leaf : list string * string) : Prop :=
  includes (snd leaf) "{{" = false /\ includes (snd leaf) "}}" = false.

Let unchanged (node : JsonValue) : Prop :=
  forall path,
    plainKeys node = true ->
    Forall leafFree (stringLeaves node path) ->
    processNode node path = OK node.

Lemma eachItem_unchanged (path : list string) (items : list JsonValue) :
  Forall unchanged items ->
  forall i processed,
    forallb plainKeys items = true ->
    Forall leafFree (leavesOfItems path stringLeaves items i) ->
    JsonProcessor.eachItem processNode path items i processed
    = OK (processed ++ items)%list.
Proof.
  induction 1 as [|item items Hitem _ IH]; intros i processed Hkeys Hfree.
  - cbn [JsonProcessor.eachItem]. now rewrite app_nil_r.
  - cbn [forallb] in Hkeys. apply andb_true_iff in Hkeys as [Hk Hks].
    cbn [leavesOfItems] in Hfree. apply Forall_app in Hfree as [Hf Hfs].
    cbn [JsonProcessor.eachItem]. rewrite (Hitem _ Hk Hf). cbn [bind].
    rewrite IH by assumption. now rewrite <- app_assoc.
Qed.

Lemma eachEntry_unchanged (path : list string)
      (entries : list (string * JsonValue)) :
  Forall (fun e => unchanged (snd e)) entries ->
  forall processed,
    distinct (map fst processed ++ map fst entries) = true ->
    inList "__proto__" (map fst entries) = false ->
    forallb (fun e => plainKeys (snd e)) entries = true ->
    Forall leafFree (leavesOfEntries path stringLeaves entries) ->
    JsonProcessor.eachEntry processNode path entries processed
    = OK (processed ++ entries)%list.
Proof.
  induction 1 as [|[key v] entries Hentry _ IH];
    intros processed Hdistinct Hproto Hkeys Hfree.
  - cbn [JsonProcessor.eachEntry]. now rewrite app_nil_r.
  - cbn [forallb snd] in Hkeys. apply andb_true_iff in Hkeys as [Hk Hks].
    cbn [leavesOfEntries] in Hfree. apply Forall_app in Hfree as [Hf Hfs].
    cbn [map fst] in Hdistinct, Hproto.
    apply distinct_app_cons in Hdistinct as [Hfresh Hdistinct].
    unfold inList in Hproto. cbn [existsb] in Hproto.
    apply orb_false_iff in Hproto as [Hkey Hproto].
    cbn [JsonProcessor.eachEntry]. cbn [snd] in Hentry.
    rewrite (Hentry _ Hk Hf). cbn [bind].
    unfold JsonProcessor.assign. rewrite String.eqb_sym, Hkey.
    rewrite setProperty_fresh by exact Hfresh.
    rewrite IH; try assumption.
    + now rewrite <- app_assoc.
    + now rewrite map_app.
Qed.

(** On a document whose objects have distinct keys other than [__proto__]
    and whose string leaves hold no pair of braces, the walk returns the
    document. *)
Lemma token_free_document_unchanged (doc : JsonValue) :
  plainKeys doc = true -> tokenFree doc ->
  JsonProcessor.process registry options doc = OK doc.
Proof.
  intros Hkeys Hfree. unfold JsonProcessor.process.
  revert Hkeys Hfree. unfold tokenFree. fold leafFree. generalize (@nil string).
  fold processNode.
  induction doc as [| b | n | s | items IH | entries IH]
    using JsonValue_induction; intros path Hkeys Hfree; try reflexivity.
  - unfold processNode. cbn [JsonProcessor.processNode].
    apply leaf_without_placeholders, findPlaceholders_without_open.
    cbn [stringLeaves] in Hfree. now inversion_clear Hfree as [|? ? [H _] _].
  - unfold processNode. cbn [JsonProcessor.processNode]. fold processNode.
    rewrite (eachItem_unchanged path items) by assumption.
    reflexivity.
  - unfold processNode. cbn [JsonProcessor.processNode]. fold processNode.
    cbn [plainKeys] in Hkeys.
    apply andb_true_iff in Hkeys as [Hkeys Hvalues].
    apply andb_true_iff in Hkeys as [Hdistinct Hproto].
    apply negb_true_iff in Hproto.
    rewrite (eachEntry_unchanged path entries) by assumption.
    reflexivity.
Qed.

End TokenFree.

(** C9, at the failing input.  The document [{"__proto__": 1}] holds no
    brace pair in any string, and the walk returns the empty object: the
    assignment of the processed value to the key [__proto__] creates no
    property.  The same happens next to other keys. *)
Theorem proto_key_is_dropped :
  forall registry options,
    tokenFree (JObject [("__proto__", JNumber 1)])
    /\ JsonProcessor.process registry options
         (JObject [("__proto__", JNumber 1)])
       = OK (JObject [])
    /\ JsonProcessor.process registry options
         (JObject [("name", JString "x");
                   ("__proto__", JObject [("admin", JBool true)]);
                   ("id", JNumber 7)])
       = OK (JObject [("name", JString "x"); ("id", JNumber 7)]).
Proof.
  intros registry options. split; [constructor |]. split; reflexivity.
Qed.

(** * Further properties of the code *)

(** ** The walk over a document *)

(** X1.  [processNode] fails exactly when the processing of one of the
    string leaves of the document fails, and then with the error of the
    first such leaf in visiting order; no later leaf changes the outcome. *)
Theorem walk_fails_with_first_leaf_error registry options node path :
  failureOf (JsonProcessor.processNode registry options node path)
  = firstFailure registry options (stringLeaves node path).
Proof. apply processNode_failure. Qed.

(** X2.  A document whose objects have distinct keys other than
    [__proto__] and whose string leaves hold no pair of braces is returned
    as it is, whatever the registry and the options: numbers, booleans,
    [null], the order of array elements and of object keys are kept. *)
Theorem plain_document_is_returned registry options doc :
  plainKeys doc = true -> tokenFree doc ->
  JsonProcessor.process registry options doc = OK doc.
Proof. apply token_free_document_unchanged. Qed.

Lemma plain_document_is_returned_witness :
  JsonProcessor.process PluginRegistry.empty defaultOptions
    (JObject [("id", JNumber 7);
              ("tags", JArray [JString "a}b"; JNull; JBool true]);
              ("nested", JObject [("name", JString "{x}")])])
  = OK (JObject [("id", JNumber 7);
                 ("tags", JArray [JString "a}b"; JNull; JBool true]);
                 ("nested", JObject [("name", JString "{x}")])]).
Proof.
  apply plain_document_is_returned; [reflexivity |].
  unfold tokenFree. vm_compute. repeat constructor.
Defined.

(** ** Strings without a pair of braces *)

Lemma scanFrom_without_close (recur : string -> list string -> list string)
      (content : string) (n : nat) :
  forall rest i depth start acc,
    (String.length rest <= n)%nat ->
    indexOf rest "}}" = -1 ->
    scanFrom recur content rest i depth start acc = acc.
Proof.
  induction n as [|n IH]; intros rest i depth start acc Hlen Hnone.
  - destruct rest; [reflexivity | cbn [String.length] in Hlen; lia].
  - destruct rest as [|c rest1]; [reflexivity |].
    destruct rest1 as [|next rest2]; [reflexivity |].
    apply indexOf_none_tail in Hnone as [Hprefix Hnone1].
    pose proof Hnone1 as Hnone2.
    apply indexOf_none_tail in Hnone2 as [_ Hnone2].
    cbn [String.length] in Hlen.
    rewrite scanFrom_step.
    destruct (Ascii.eqb c "{" && Ascii.eqb next "{");
      [apply IH; [lia | exact Hnone2] |].
    destruct (Ascii.eqb c "}" && Ascii.eqb next "}") eqn:Hclose.
    + exfalso. apply andb_true_iff in Hclose as [Hc Hn].
      apply Ascii.eqb_eq in Hc, Hn. subst c next.
      destruct rest2; vm_compute in Hprefix; discriminate Hprefix.
    + apply IH; [cbn [String.length]; lia | exact Hnone1].
Qed.

(** X3.  A string that lacks an opening pair of braces, or lacks a closing
    pair, holds no placeholder: the scanner returns the empty list, and the
    text processor and the JSON leaf processor return the string as it is
    without consulting the registry. *)
Theorem string_without_brace_pair registry options path (s : string) :
  includes s "{{" = false \/ includes s "}}" = false ->
  findPlaceholders s = []
  /\ TextProcessor.process registry options s = OK s
  /\ JsonProcessor.processStringValue registry options s path = OK (JString s).
Proof.
  intros H.
  assert (Hnone : findPlaceholders s = []).
  { destruct H as [H | H].
    - now apply findPlaceholders_without_open.
    - unfold findPlaceholders. cbn [findPlaceholdersRecursive].
      apply (scanFrom_without_close _ _ (String.length s)); [lia |].
      now apply includes_false. }
  split; [exact Hnone |]. split.
  - now apply text_without_placeholders.
  - now apply leaf_without_placeholders.
Qed.

Lemma string_without_brace_pair_witness :
  findPlaceholders "{{gen:uuid and {single} brace" = []
  /\ TextProcessor.process mockRegistry defaultOptions
       "{{gen:uuid and {single} brace"
     = OK "{{gen:uuid and {single} brace"
  /\ JsonProcessor.processStringValue mockRegistry defaultOptions
       "{{gen:uuid and {single} brace" []
     = OK (JString "{{gen:uuid and {single} brace").
Proof.
  apply string_without_brace_pair. right. reflexivity.
Defined.

(** ** White space around a token *)

(** X4.  [parse] does not see white space around the token: a string and
    its trimmed form parse to the same placeholder, or both fail. *)
Theorem parse_ignores_outer_whitespace (s : string) :
  forall p, parse s = OK p <-> parse (trim s) = OK p.
Proof.
  intros p. unfold parse. rewrite trim_idempotent, isPlaceholder_trim.
  destruct (isPlaceholder s); cbn [negb]; [reflexivity |].
  split; discriminate.
Qed.

(** ** The registry *)

Lemma mapGet_app_one {V : Type} (m : list (string * V)) (k : string) (v : V)
      (key : string) :
  PluginRegistry.mapGet (m ++ [(k, v)]) key
  = match PluginRegistry.mapGet m key with
    | Some x => Some x
    | None => if String.eqb k key then Some v else None
    end.
Proof.
  induction m as [|[k0 v0] m IH]; [reflexivity |].
  cbn [app PluginRegistry.mapGet]. now destruct (String.eqb k0 key).
Qed.

Lemma mapHas_In {V : Type} (m : list (string * V)) (key : string) :
  PluginRegistry.mapHas m key = true <-> In key (PluginRegistry.mapKeys m).
Proof.
  unfold PluginRegistry.mapHas, PluginRegistry.mapKeys.
  induction m as [|[k v] m IH]; cbn [PluginRegistry.mapGet map fst In].
  - split; [discriminate | contradiction].
  - destruct (String.eqb_spec k key) as [-> | Hne].
    + split; [now left | reflexivity].
    + rewrite IH. split; [now right | intros [H | H]; [contradiction | exact H]].
Qed.

(** X5.  A plugin that [registerPlugin] accepts can be fetched under its
    name, is listed last among the plugin names, and leaves every other
    lookup and the transforms as they were; its name was free before, and
    registering any plugin of that name again is rejected. *)
Theorem register_then_get r plugin r' :
  PluginRegistry.registerPlugin r plugin = OK r' ->
  PluginRegistry.hasPlugin r (pluginName plugin) = false
  /\ PluginRegistry.getPlugin r' (pluginName plugin) = OK plugin
  /\ PluginRegistry.getPluginNames r'
     = (PluginRegistry.getPluginNames r ++ [pluginName plugin])%list
  /\ (forall other,
         other <> pluginName plugin ->
         PluginRegistry.mapGet (PluginRegistry.plugins r') other
         = PluginRegistry.mapGet (PluginRegistry.plugins r) other)
  /\ PluginRegistry.transforms r' = PluginRegistry.transforms r
  /\ (forall again,
         pluginName again = pluginName plugin ->
         PluginRegistry.registerPlugin r' again
         = Err ("Plugin '" ++ pluginName plugin ++ "' is already registered")).
Proof.
  unfold PluginRegistry.registerPlugin, PluginRegistry.hasPlugin.
  destruct (PluginRegistry.mapHas (PluginRegistry.plugins r) (pluginName plugin))
    eqn:Hhas; [discriminate |].
  intros H. injection H as <-. cbn [PluginRegistry.plugins PluginRegistry.transforms].
  assert (Hfree : PluginRegistry.mapGet (PluginRegistry.plugins r)
                                        (pluginName plugin) = None).
  { unfold PluginRegistry.mapHas in Hhas.
    now destruct (PluginRegistry.mapGet (PluginRegistry.plugins r)
                                        (pluginName plugin)). }
  split; [reflexivity |]. split.
  - unfold PluginRegistry.getPlugin. cbn [PluginRegistry.plugins].
    rewrite mapGet_app_one, Hfree. now rewrite String.eqb_refl.
  - split.
    + unfold PluginRegistry.getPluginNames, PluginRegistry.mapKeys.
      cbn [PluginRegistry.plugins]. now rewrite map_app.
    + split; [| split; [reflexivity |]].
      * intros other Hother. rewrite mapGet_app_one.
        destruct (PluginRegistry.mapGet (PluginRegistry.plugins r) other);
          [reflexivity |].
        destruct (String.eqb_spec (pluginName plugin) other) as [<- | _];
          [now elim Hother | reflexivity].
      * intros again Hname. unfold PluginRegistry.mapHas.
        cbn [PluginRegistry.plugins]. rewrite Hname.
        rewrite mapGet_app_one, Hfree. now rewrite String.eqb_refl.
Qed.

Lemma register_then_get_witness :
  PluginRegistry.getPlugin mockRegistry "mock" = OK MockPlugin.plugin.
Proof.
  destruct (register_then_get
              {| PluginRegistry.plugins := [];
                 PluginRegistry.transforms :=
                   [("toNumber", ToNumberTransform.transform)] |}
              MockPlugin.plugin mockRegistry eq_refl) as [_ [Hget _]].
  exact Hget.
Defined.

Lemma registerPlugins_app r (first second : list PlaceholderPlugin) :
  PluginRegistry.registerPlugins r (first ++ second)
  = match PluginRegistry.registerPlugins r first with
    | (r1, None) => PluginRegistry.registerPlugins r1 second
    | (r1, Some e) => (r1, Some e)
    end.
Proof.
  revert r. induction first as [|p first IH]; intros r; [reflexivity |].
  cbn [app PluginRegistry.registerPlugins].
  destruct (PluginRegistry.registerPlugin r p); [apply IH | reflexivity].
Qed.

(** X6.  [registerPlugins] stops at the first plugin whose name is taken:
    the call fails with the error of that plugin, the plugins before it
    stay registered and the plugins after it are not registered. *)
Theorem registerPlugins_stops_at_duplicate r before r1 duplicate after :
  PluginRegistry.registerPlugins r before = (r1, None) ->
  PluginRegistry.hasPlugin r1 (pluginName duplicate) = true ->
  PluginRegistry.registerPlugins r (before ++ duplicate :: after)
  = (r1, Some ("Plugin '" ++ pluginName duplicate ++ "' is already registered")).
Proof.
  intros Hbefore Htaken. rewrite registerPlugins_app, Hbefore.
  cbn [PluginRegistry.registerPlugins]. unfold PluginRegistry.registerPlugin.
  unfold PluginRegistry.hasPlugin in Htaken. now rewrite Htaken.
Qed.

Lemma registerPlugins_stops_at_duplicate_witness :
  PluginRegistry.registerPlugins PluginRegistry.empty
    [MockPlugin.plugin; MockPlugin.plugin;
     {| pluginName := "late"; resolve := MockPlugin.resolveRequest |}]
  = ({| PluginRegistry.plugins := [("mock", MockPlugin.plugin)];
        PluginRegistry.transforms := [] |},
     Some "Plugin 'mock' is already registered").
Proof.
  apply (registerPlugins_stops_at_duplicate PluginRegistry.empty
           [MockPlugin.plugin]); reflexivity.
Defined.

Lemma registerPlugin_inversion r plugin r' :
  PluginRegistry.registerPlugin r plugin = OK r' ->
  ~ In (pluginName plugin) (PluginRegistry.getPluginNames r)
  /\ r' = {| PluginRegistry.plugins :=
               (PluginRegistry.plugins r ++ [(pluginName plugin, plugin)])%list;
             PluginRegistry.transforms := PluginRegistry.transforms r |}.
Proof.
  unfold PluginRegistry.registerPlugin.
  destruct (PluginRegistry.mapHas (PluginRegistry.plugins r) (pluginName plugin))
    eqn:Hhas; [discriminate |].
  intros H. injection H as <-. split; [| reflexivity].
  intros Hin. apply mapHas_In in Hin.
  unfold PluginRegistry.getPluginNames in Hin. congruence.
Qed.

Lemma mapGet_of_entry {V : Type} (m : list (string * V)) (k : string) (v : V) :
  NoDup (PluginRegistry.mapKeys m) -> In (k, v) m ->
  PluginRegistry.mapGet m k = Some v.
Proof.
  unfold PluginRegistry.mapKeys.
  induction m as [|[k0 v0] m IH]; intros Hdistinct Hin; [contradiction |].
  cbn [map fst] in Hdistinct. inversion_clear Hdistinct as [|? ? Hfresh Hrest].
  cbn [PluginRegistry.mapGet]. destruct Hin as [Heq | Hin].
  - injection Heq as -> ->. now rewrite String.eqb_refl.
  - destruct (String.eqb_spec k0 k) as [-> | _]; [| now apply IH].
    elim Hfresh. apply in_map_iff. now exists (k, v).
Qed.

(** X7.  Registration keeps the plugin names distinct: starting from a
    registry with distinct names, after [registerPlugins] on any list of
    plugins, accepted or not, the names are still distinct and every
    registered plugin is the one [getPlugin] returns for its name. *)
Theorem registry_names_stay_distinct (toRegister : list PlaceholderPlugin) :
  forall r,
    NoDup (PluginRegistry.getPluginNames r) ->
    let r' := fst (PluginRegistry.registerPlugins r toRegister) in
    NoDup (PluginRegistry.getPluginNames r')
    /\ forall name plugin,
        In (name, plugin) (PluginRegistry.plugins r') ->
        PluginRegistry.getPlugin r' name = OK plugin.
Proof.
  induction toRegister as [|p toRegister IH]; intros r Hdistinct.
  - cbn [PluginRegistry.registerPlugins fst]. split; [exact Hdistinct |].
    intros name plugin Hin. unfold PluginRegistry.getPlugin.
    now rewrite (mapGet_of_entry _ _ _ Hdistinct Hin).
  - cbn [PluginRegistry.registerPlugins].
    destruct (PluginRegistry.registerPlugin r p) as [r1 | e] eqn:Hregister.
    + apply IH. apply registerPlugin_inversion in Hregister as [Hfresh ->].
      unfold PluginRegistry.getPluginNames, PluginRegistry.mapKeys in *.
      cbn [PluginRegistry.plugins]. rewrite map_app. cbn [map fst].
      apply NoDup_app; [exact Hdistinct | repeat constructor; intros [] |].
      intros x Hx [<- | []]. contradiction.
    + cbn [fst]. split; [exact Hdistinct |].
      intros name plugin Hin. unfold PluginRegistry.getPlugin.
      now rewrite (mapGet_of_entry _ _ _ Hdistinct Hin).
Qed.

Lemma registry_names_stay_distinct_witness :
  NoDup (PluginRegistry.getPluginNames
           (fst (PluginRegistry.registerPlugins PluginRegistry.empty
                   [MockPlugin.plugin; MockPlugin.plugin]))).
Proof.
  apply (registry_names_stay_distinct [MockPlugin.plugin; MockPlugin.plugin]
           PluginRegistry.empty).
  constructor.
Defined.

(** ** The engine *)

(** X8.  [processThreePhase] never returns a result: it ends with the
    error of the first or of the second generate phase, or, when both
    phases succeed, with the error of the compare mode, which is not
    implemented.  For the format [xml] it ends with the error of the first
    phase, before the template is read. *)
Theorem three_phase_always_fails
        jsonParse jsonStringify registry format context template actual :
  (exists e,
      PlaceholderEngine.processThreePhase jsonParse jsonStringify registry
        format context template actual = Err e)
  /\ (forall afterGen afterTime,
         PlaceholderEngine.processGenerate jsonParse jsonStringify registry
           format
           {| includePlugins := Some ["gen"]; excludePlugins := None;
              context := context |} template = OK afterGen ->
         PlaceholderEngine.processGenerate jsonParse jsonStringify registry
           format
           {| includePlugins := Some ["time"]; excludePlugins := None;
              context := context |} afterGen = OK afterTime ->
         PlaceholderEngine.processThreePhase jsonParse jsonStringify registry
           format context template actual
         = Err "Compare mode not yet implemented")
  /\ PlaceholderEngine.processThreePhase jsonParse jsonStringify registry
       "xml" context template actual
     = Err "XML format not yet implemented".
Proof.
  unfold PlaceholderEngine.processThreePhase. split; [| split].
  - destruct (PlaceholderEngine.processGenerate jsonParse jsonStringify
                registry format _ template) as [afterGen | e]; cbn [bind].
    + destruct (PlaceholderEngine.processGenerate jsonParse jsonStringify
                  registry format _ afterGen) as [afterTime | e]; cbn [bind];
        eexists; reflexivity.
    + eexists; reflexivity.
  - intros afterGen afterTime -> . cbn [bind]. now intros ->.
  - reflexivity.
Qed.

Lemma three_phase_always_fails_witness :
  PlaceholderEngine.processThreePhase (fun _ => OK JNull) (fun _ => "null")
    exampleRegistry "text" None
    "Train {{gen:zugnummer:4837}} on {{time:format:1710508545:dd.MM.yyyy}}"
    "Train 4837 on 15.03.2024"
  = Err "Compare mode not yet implemented".
Proof.
  destruct (three_phase_always_fails (fun _ => OK JNull) (fun _ => "null")
              exampleRegistry "text" None
              "Train {{gen:zugnummer:4837}} on {{time:format:1710508545:dd.MM.yyyy}}"
              "Train 4837 on 15.03.2024") as [_ [Hboth _]].
  apply (Hboth "Train 4837 on {{time:format:1710508545:dd.MM.yyyy}}"
               "Train 4837 on 15.03.2024").
  - vm_compute. reflexivity.
  - vm_compute. reflexivity.
Defined.

(** ** Plugins and transforms *)

(** X9.  With a non-empty first argument the generator plugin draws no
    random value: its result does not depend on the random source, and the
    actions [uuid] and [string] return that argument as a string. *)
Theorem generator_uses_given_argument random1 random2 request a rest :
  args (placeholder request) = a :: rest -> a <> "" ->
  GeneratorPlugin.resolveRequest random1 request
  = GeneratorPlugin.resolveRequest random2 request
  /\ (action (placeholder request) = "uuid"
      \/ action (placeholder request) = "string" ->
      GeneratorPlugin.resolveRequest random1 request
      = OK {| value := JString a; type := TString |}).
Proof.
  intros Hargs Hne.
  assert (Hfirst : GeneratorPlugin.firstArg (args (placeholder request)) = Some a).
  { rewrite Hargs. cbn [GeneratorPlugin.firstArg].
    now destruct (String.eqb_spec a ""). }
  unfold GeneratorPlugin.resolveRequest, GeneratorPlugin.handleUuid,
    GeneratorPlugin.handleNumber, GeneratorPlugin.handleString,
    GeneratorPlugin.handleBoolean.
  rewrite Hfirst. split.
  - reflexivity.
  - intros [-> | ->]; reflexivity.
Qed.

Lemma generator_uses_given_argument_witness :
  GeneratorPlugin.resolveRequest
    {| GeneratorPlugin.randomUuid := "u"; GeneratorPlugin.randomNumber := 1;
       GeneratorPlugin.randomString := "s"; GeneratorPlugin.randomBoolean := true |}
    {| placeholder := {| original := "{{gen:uuid:test-12345}}"; module := "gen";
                         action := "uuid"; args := ["test-12345"];
                         transforms := [] |};
       requestContext := [] |}
  = OK {| value := JString "test-12345"; type := TString |}.
Proof.
  set (random := {| GeneratorPlugin.randomUuid := "u";
                    GeneratorPlugin.randomNumber := 1;
                    GeneratorPlugin.randomString := "s";
                    GeneratorPlugin.randomBoolean := true |}).
  set (request := {| placeholder :=
                       {| original := "{{gen:uuid:test-12345}}"; module := "gen";
                          action := "uuid"; args := ["test-12345"];
                          transforms := [] |};
                     requestContext := [] |}).
  assert (Hne : "test-12345" <> "") by discriminate.
  destruct (generator_uses_given_argument random random request
              "test-12345" [] eq_refl Hne) as [_ Hgiven].
  apply Hgiven. now left.
Defined.

(** X10.  [toBoolean] never fails and always returns a value tagged
    boolean.  A string whose tag is not boolean converts to [false] exactly
    when its lower-cased, trimmed form is one of [false], [no], [0], [off],
    [n] or empty, and to [true] otherwise. *)
Theorem toBoolean_of_string :
  (forall input params,
      exists r, ToBooleanTransform.applyTo input params = OK r
                /\ type r = TBoolean)
  /\ (forall s tag params,
         tag <> TBoolean ->
         ToBooleanTransform.applyTo {| value := JString s; type := tag |} params
         = OK {| value :=
                   JBool (negb (inList (trim (ToBooleanTransform.toLowerCase s))
                                       ToBooleanTransform.falsyStrings));
                 type := TBoolean |}).
Proof.
  split.
  - intros input params. unfold ToBooleanTransform.applyTo.
    destruct (type input) eqn:Htag; eexists; (split; [reflexivity |]);
      try reflexivity; exact Htag.
  - intros s tag params Htag. unfold ToBooleanTransform.applyTo.
    cbn [type value].
    assert (Hvalue :
              (if inList (trim (ToBooleanTransform.toLowerCase s))
                         ToBooleanTransform.truthyStrings
               then true
               else if inList (trim (ToBooleanTransform.toLowerCase s))
                              ToBooleanTransform.falsyStrings
                    then false
                    else ToBooleanTransform.truthy (JString s))
              = negb (inList (trim (ToBooleanTransform.toLowerCase s))
                             ToBooleanTransform.falsyStrings)).
    { destruct (inList (trim (ToBooleanTransform.toLowerCase s))
                       ToBooleanTransform.truthyStrings) eqn:Htruthy.
      - apply inList_In in Htruthy.
        destruct Htruthy as [<- | [<- | [<- | [<- | [<- | []]]]]];
          reflexivity.
      - destruct (inList (trim (ToBooleanTransform.toLowerCase s))
                         ToBooleanTransform.falsyStrings) eqn:Hfalsy;
          [reflexivity |].
        destruct s; [discriminate Hfalsy | reflexivity]. }
    destruct tag; try (now rewrite Hvalue). now elim Htag.
Qed.

Lemma toBoolean_of_string_witness :
  ToBooleanTransform.applyTo {| value := JString "  Off "; type := TString |} []
  = OK {| value := JBool false; type := TBoolean |}.
Proof.
  destruct toBoolean_of_string as [_ Hstring].
  rewrite Hstring by discriminate. reflexivity.
Defined.

Lemma foldM_app {A S : Type} (f : S -> A -> result S) (xs ys : list A) (s : S) :
  foldM f (xs ++ ys) s = (s' <- foldM f xs s ;; foldM f ys s').
Proof.
  revert s. induction xs as [|x xs IH]; intros s; [reflexivity |].
  cbn [app foldM]. destruct (f s x); cbn [bind]; [apply IH | reflexivity].
Qed.

(** X11.  A transform that is not registered fails the resolution in both
    processors, after the transforms before it in the chain have been
    applied and before any later one is looked up.  The message names the
    transform, lists the registered transform names (or says none), and is
    wrapped with the token and, in JSON mode, the path. *)
Theorem unknown_transform_fails
        registry options token parsed plugin result0 applied result1 missing later :
  parse token = OK parsed ->
  notIncluded options (module parsed) = false ->
  excluded options (module parsed) = false ->
  PluginRegistry.mapGet (PluginRegistry.plugins registry) (module parsed)
  = Some plugin ->
  resolve plugin
    {| placeholder := parsed;
       requestContext := match context options with Some c => c | None => [] end |}
  = OK result0 ->
  PlaceholderParser.transforms parsed = (applied ++ missing :: later)%list ->
  foldM (applyTransform registry) applied result0 = OK result1 ->
  PluginRegistry.mapGet (PluginRegistry.transforms registry) (name missing)
  = None ->
  let notFound :=
    "Transform '" ++ name missing ++ "' not found. Available transforms: "
      ++ PluginRegistry.orNone
           (join ", " (PluginRegistry.getTransformNames registry)) in
  (forall path,
      JsonProcessor.resolvePlaceholder registry options token path
      = Err ("Failed to resolve placeholder " ++ quote ++ token ++ quote
               ++ " at path " ++ quote ++ join "." path ++ quote ++ ": "
               ++ notFound))
  /\ TextProcessor.resolvePlaceholder registry options token
     = Err ("Failed to resolve placeholder " ++ quote ++ token ++ quote ++ ": "
              ++ notFound).
Proof.
  intros Hparse Hinc Hexc Hplugin Hresolve Hchain Happlied Hmissing notFound.
  assert (Hcore : resolveWithPlugin registry options parsed = Err notFound).
  { unfold resolveWithPlugin, PluginRegistry.getPlugin.
    rewrite Hplugin. cbn [bind]. rewrite Hresolve. cbn [bind].
    rewrite Hchain, foldM_app, Happlied. cbn [bind foldM].
    unfold applyTransform at 1, PluginRegistry.getTransform.
    rewrite Hmissing. reflexivity. }
  split.
  - intros path. unfold JsonProcessor.resolvePlaceholder, tryResolve.
    rewrite Hparse. cbn [bind]. rewrite Hinc, Hexc, Hcore. reflexivity.
  - unfold TextProcessor.resolvePlaceholder.
    rewrite Hparse. cbn [bind]. rewrite Hinc, Hexc, Hcore. reflexivity.
Qed.

Lemma unknown_transform_fails_witness :
  JsonProcessor.resolvePlaceholder mockRegistry defaultOptions
    "{{mock:echo:12|toNumber|round:2|toNumber}}" ["price"]
  = Err ("Failed to resolve placeholder " ++ quote
           ++ "{{mock:echo:12|toNumber|round:2|toNumber}}" ++ quote
           ++ " at path " ++ quote ++ "price" ++ quote
           ++ ": Transform 'round' not found. Available transforms: toNumber").
Proof.
  destruct (unknown_transform_fails mockRegistry defaultOptions
              "{{mock:echo:12|toNumber|round:2|toNumber}}" _ MockPlugin.plugin
              {| value := JString "12"; type := TString |}
              [{| name := "toNumber"; params := [] |}]
              {| value := JNumber 12; type := TNumber |}
              {| name := "round"; params := ["2"] |}
              [{| name := "toNumber"; params := [] |}]
              eq_refl eq_refl eq_refl eq_refl eq_refl eq_refl eq_refl eq_refl)
    as [Hjson _].
  apply Hjson.
Defined.

(** ** The parser's [replaceAll] *)

Lemma parser_loop_bounded (State : Type)
      (resolveFn : State -> string -> string * State) (remaining : nat) :
  forall result0 previousResult state iterations,
    (snd (ParserReplaceAll.loop State resolveFn remaining result0
                                previousResult state iterations)
     <= iterations + remaining)%nat.
Proof.
  induction remaining as [|remaining IH];
    intros result0 previousResult state iterations;
    cbn [ParserReplaceAll.loop].
  - cbn [snd]. lia.
  - destruct (String.eqb result0 previousResult); [cbn [snd]; lia |].
    destruct (findPlaceholders result0) as [|p ps]; [cbn [snd]; lia |].
    match goal with
    | |- (snd (ParserReplaceAll.loop _ _ _ ?r ?p ?s ?i) <= _)%nat =>
        specialize (IH r p s i)
    end.
    lia.
Qed.

(** X12.  The parser's [replaceAll] makes at most ten passes, and on a
    content without an opening pair of braces it returns the content and
    never calls the resolver (the state of the resolver is untouched). *)
Theorem parser_replaceAll_without_tokens (State : Type)
        (resolveFn : State -> string -> string * State) :
  (forall content state,
      (snd (ParserReplaceAll.loop State resolveFn
              ParserReplaceAll.maxIterations content "" state 0) <= 10)%nat)
  /\ (forall content state,
         includes content "{{" = false ->
         ParserReplaceAll.replaceAll State resolveFn content state
         = (content, state)).
Proof.
  split.
  - intros content state.
    apply (parser_loop_bounded State resolveFn ParserReplaceAll.maxIterations
             content "" state 0%nat).
  - intros content state Hnone.
    unfold ParserReplaceAll.replaceAll, ParserReplaceAll.maxIterations.
    cbn [ParserReplaceAll.loop].
    destruct (String.eqb content ""); [reflexivity |].
    now rewrite (findPlaceholders_without_open content Hnone).
Qed.

Lemma parser_replaceAll_without_tokens_witness :
  ParserReplaceAll.replaceAll nat (fun calls _ => ("REPLACED", S calls))
    "No placeholders here" 0%nat
  = ("No placeholders here", 0%nat).
Proof.
  destruct (parser_replaceAll_without_tokens nat
              (fun calls _ => ("REPLACED", S calls))) as [_ Hnone].
  apply Hnone. reflexivity.
Defined.

(** ** What the scanner returns *)

Lemma append_length (s t : string) :
  String.length (s ++ t) = (String.length s + String.length t)%nat.
Proof.
  induction s as [|c s IH]; [reflexivity |].
  cbn [append String.length]. now rewrite IH.
Qed.

Lemma len_append (s t : string) : len (s ++ t) = len s + len t.
Proof. unfold len. rewrite append_length. lia. Qed.

Lemma len_nonneg (s : string) : 0 <= len s.
Proof. unfold len. lia. Qed.

Lemma substring_prefix (b c : string) :
  substring 0 (String.length b) (b ++ c) = b.
Proof.
  induction b as [|x b IH]; [cbn; now destruct c |].
  cbn [append String.length substring]. now rewrite IH.
Qed.

Lemma substring_middle (a b c : string) :
  substring (String.length a) (String.length b) (a ++ b ++ c) = b.
Proof.
  induction a as [|x a IH]; [exact (substring_prefix b c) |].
  cbn [append String.length substring]. exact IH.
Qed.

Lemma slice_middle (a b c : string) :
  slice (a ++ b ++ c) (len a) (len a + len b) = b.
Proof.
  unfold slice, sliceIndex.
  pose proof (len_nonneg a). pose proof (len_nonneg b). pose proof (len_nonneg c).
  rewrite !len_append.
  replace (len a <? 0) with false by (symmetry; apply Z.ltb_ge; lia).
  replace (len a + len b <? 0) with false by (symmetry; apply Z.ltb_ge; lia).
  rewrite !Z.min_l by lia.
  replace (Z.to_nat (len a)) with (String.length a) by (unfold len; lia).
  replace (Z.to_nat (len a + len b - len a)) with (String.length b)
    by (unfold len; lia).
  apply substring_middle.
Qed.

Lemma slice_interior (x : string) : slice ("{{" ++ x ++ "}}") 2 (-2) = x.
Proof.
  unfold slice, sliceIndex. pose proof (len_nonneg x).
  rewrite !len_append. change (len "{{") with 2. change (len "}}") with 2.
  cbn [Z.ltb Z.compare].
  rewrite Z.min_l by lia. rewrite Z.max_l by lia.
  replace (Z.to_nat 2) with (String.length "{{") by reflexivity.
  replace (Z.to_nat (2 + (len x + 2) + -2 - 2)) with (String.length x)
    by (unfold len; lia).
  apply substring_middle.
Qed.

Lemma setAdd_NoDup (x : string) (set : list string) :
  NoDup set -> NoDup (setAdd x set).
Proof.
  intros Hset. unfold setAdd.
  destruct (existsb (String.eqb x) set) eqn:Hin; [exact Hset |].
  apply NoDup_app; [exact Hset | repeat constructor; intros [] |].
  intros y Hy [<- | []].
  assert (Htrue : existsb (String.eqb x) set = true).
  { apply existsb_exists. exists x. split; [exact Hy | apply String.eqb_refl]. }
  congruence.
Qed.

Lemma scanFrom_NoDup (recur : string -> list string -> list string)
      (content : string) :
  (forall inner acc, NoDup acc -> NoDup (recur inner acc)) ->
  forall n rest i depth start acc,
    (String.length rest <= n)%nat ->
    NoDup acc -> NoDup (scanFrom recur content rest i depth start acc).
Proof.
  intros Hrecur.
  induction n as [|n IH]; intros rest i depth start acc Hlen Hacc.
  - destruct rest; [exact Hacc | cbn [String.length] in Hlen; lia].
  - destruct rest as [|c rest1]; [exact Hacc |].
    destruct rest1 as [|next rest2]; [exact Hacc |].
    cbn [String.length] in Hlen. rewrite scanFrom_step.
    destruct (Ascii.eqb c "{" && Ascii.eqb next "{");
      [apply IH; [lia | exact Hacc] |].
    destruct (Ascii.eqb c "}" && Ascii.eqb next "}").
    + destruct ((depth - 1 =? 0) && negb (start =? -1)).
      * apply IH; [lia |]. now apply Hrecur, setAdd_NoDup.
      * apply IH; [lia | exact Hacc].
    + apply IH; [cbn [String.length]; lia | exact Hacc].
Qed.

Lemma findPlaceholdersRecursive_NoDup (fuel : nat) :
  forall content acc,
    NoDup acc -> NoDup (findPlaceholdersRecursive fuel content acc).
Proof.
  induction fuel as [|fuel IH]; intros content acc Hacc; [exact Hacc |].
  cbn [findPlaceholdersRecursive].
  apply (scanFrom_NoDup _ _ IH (String.length content)); [lia | exact Hacc].
Qed.

(** Where the scanner stands: [pre] is the part of the content already
    passed, and a recorded start index points at an opening pair inside
    it. *)
Lemma scanFrom_delimited (recur : string -> list string -> list string)
      (content : string) :
  (forall inner acc,
      Forall (fun t => exists m, t = "{{" ++ m ++ "}}") acc ->
      Forall (fun t => exists m, t = "{{" ++ m ++ "}}") (recur inner acc)) ->
  forall n rest pre i depth start acc,
    (String.length rest <= n)%nat ->
    content = pre ++ rest -> i = len pre ->
    (start = -1
     \/ exists pre1 mid, pre = pre1 ++ "{{" ++ mid /\ start = len pre1) ->
    Forall (fun t => exists m, t = "{{" ++ m ++ "}}") acc ->
    Forall (fun t => exists m, t = "{{" ++ m ++ "}}")
           (scanFrom recur content rest i depth start acc).
Proof.
  intros Hrecur.
  induction n as [|n IH]; intros rest pre i depth start acc Hlen Hcontent Hi
                                 Hstart Hacc.
  - destruct rest; [exact Hacc | cbn [String.length] in Hlen; lia].
  - destruct rest as [|c rest1]; [exact Hacc |].
    destruct rest1 as [|next rest2]; [exact Hacc |].
    cbn [String.length] in Hlen. rewrite scanFrom_step.
    assert (Hcontent2 : content = (pre ++ String c (String next "")) ++ rest2)
      by (rewrite append_assoc; exact Hcontent).
    assert (Hi2 : i + 2 = len (pre ++ String c (String next "")))
      by (rewrite len_append; subst i; reflexivity).
    assert (Hstart2 :
              start = -1
              \/ exists pre1 mid,
                  pre ++ String c (String next "") = pre1 ++ "{{" ++ mid
                  /\ start = len pre1).
    { destruct Hstart as [-> | [pre1 [mid [-> ->]]]]; [now left |].
      right. exists pre1, (mid ++ String c (String next "")). split; [| reflexivity].
      rewrite !append_assoc. reflexivity. }
    destruct (Ascii.eqb c "{" && Ascii.eqb next "{") eqn:Hopen.
    + apply andb_true_iff in Hopen as [Hc Hn].
      apply Ascii.eqb_eq in Hc, Hn. subst c next.
      apply (IH rest2 (pre ++ "{{")); try assumption; [lia |].
      destruct (depth =? 0); [| exact Hstart2].
      right. exists pre, "". split; [reflexivity | exact Hi].
    + destruct (Ascii.eqb c "}" && Ascii.eqb next "}") eqn:Hclose.
      * apply andb_true_iff in Hclose as [Hc Hn].
        apply Ascii.eqb_eq in Hc, Hn. subst c next.
        destruct ((depth - 1 =? 0) && negb (start =? -1)) eqn:Hemit.
        -- apply (IH rest2 (pre ++ "}}")); try assumption; [lia |].
           apply Hrecur. unfold setAdd.
           destruct (existsb _ acc); [exact Hacc |].
           apply Forall_app. split; [exact Hacc |].
           constructor; [| constructor].
           apply andb_true_iff in Hemit as [_ Hrecorded].
           apply negb_true_iff, Z.eqb_neq in Hrecorded.
           destruct Hstart as [-> | [pre1 [mid [Hpre ->]]]]; [now elim Hrecorded |].
           exists mid.
           assert (Heq : content = pre1 ++ ("{{" ++ mid ++ "}}") ++ rest2).
           { rewrite Hcontent, Hpre, !append_assoc. reflexivity. }
           rewrite Heq.
           replace (i + 2) with (len pre1 + len ("{{" ++ mid ++ "}}"))
             by (rewrite Hi, Hpre, !len_append; change (len "{{") with 2;
                 change (len "}}") with 2; lia).
           apply slice_middle.
        -- apply (IH rest2 (pre ++ "}}")); try assumption. lia.
      * apply (IH (String next rest2) (pre ++ String c "")).
        -- cbn [String.length]. lia.
        -- rewrite append_assoc. exact Hcontent.
        -- rewrite len_append. subst i. reflexivity.
        -- destruct Hstart as [-> | [pre1 [mid [-> ->]]]]; [now left |].
           right. exists pre1, (mid ++ String c ""). split; [| reflexivity].
           now rewrite !append_assoc.
        -- exact Hacc.
Qed.

Lemma findPlaceholdersRecursive_delimited (fuel : nat) :
  forall content acc,
    Forall (fun t => exists m, t = "{{" ++ m ++ "}}") acc ->
    Forall (fun t => exists m, t = "{{" ++ m ++ "}}")
           (findPlaceholdersRecursive fuel content acc).
Proof.
  induction fuel as [|fuel IH]; intros content acc Hacc; [exact Hacc |].
  cbn [findPlaceholdersRecursive].
  apply (scanFrom_delimited _ _ IH (String.length content) content "");
    [lia | reflexivity | reflexivity | now left | exact Hacc].
Qed.

(** X14.  The list [findPlaceholders] returns holds no string twice, and
    each of its members opens with a pair of opening braces and closes with
    a pair of closing braces, so it has at least four code units and is
    never the empty string. *)
Theorem found_placeholders_are_distinct_and_delimited (content : string) :
  NoDup (findPlaceholders content)
  /\ forall token,
      In token (findPlaceholders content) ->
      (exists m, token = "{{" ++ m ++ "}}")
      /\ (4 <= String.length token)%nat.
Proof.
  split.
  - apply findPlaceholdersRecursive_NoDup. constructor.
  - intros token Hin.
    pose proof (findPlaceholdersRecursive_delimited
                  (S (String.length content)) content [] (Forall_nil _)) as Hall.
    rewrite Forall_forall in Hall. destruct (Hall token Hin) as [m ->].
    split; [now exists m |].
    rewrite !append_length. cbn [String.length]. lia.
Qed.

Lemma found_placeholders_are_distinct_and_delimited_witness :
  (4 <= String.length "{{a:b}}")%nat.
Proof.
  destruct (found_placeholders_are_distinct_and_delimited "x {{a:b}} y")
    as [_ H].
  destruct (H "{{a:b}}") as [_ Hlen]; [vm_compute; now left | exact Hlen].
Defined.

(** ** Flat tokens *)

Lemma forallChars_app (f : ascii -> bool) (s t : string) :
  forallChars f (s ++ t) = forallChars f s && forallChars f t.
Proof.
  induction s as [|c s IH]; [reflexivity |].
  cbn [append forallChars]. now rewrite IH, andb_assoc.
Qed.

Lemma scanFrom_braceFree_exact (recur : string -> list string -> list string)
      (content body : string) :
  braceFree body = true ->
  forall rest i depth start acc,
    scanFrom recur content (body ++ rest) i depth start acc
    = scanFrom recur content rest (i + len body) depth start acc.
Proof.
  induction body as [|c body IH]; intros Hfree rest i depth start acc.
  - cbn [append]. now rewrite Z.add_0_r.
  - unfold braceFree in Hfree. cbn [forallChars] in Hfree.
    apply andb_true_iff in Hfree as [Hc Hbody]. apply negb_true_iff in Hc.
    change (String c body ++ rest) with (String c (body ++ rest)).
    rewrite scanFrom_plain by exact Hc.
    replace (i + len (String c body)) with (i + 1 + len body)
      by (unfold len; cbn [String.length]; lia).
    destruct (body ++ rest) eqn:E.
    + apply append_eq_nil in E as [_ ->]. reflexivity.
    + rewrite <- E. now apply IH.
Qed.

Lemma findPlaceholdersRecursive_braceFree (fuel : nat) (s : string) acc :
  braceFree s = true -> findPlaceholdersRecursive fuel s acc = acc.
Proof.
  intros Hfree. destruct fuel as [|fuel]; [reflexivity |].
  cbn [findPlaceholdersRecursive]. now apply scanFrom_braceFree_end.
Qed.

Lemma findPlaceholders_braceFree (s : string) :
  braceFree s = true -> findPlaceholders s = [].
Proof. apply findPlaceholdersRecursive_braceFree. Qed.

(** Scanning one flat token at depth zero records it and goes on behind
    it. *)
Lemma scanFrom_flat_token (fuel : nat) (content pre body rest : string)
      i start acc :
  braceFree body = true ->
  content = pre ++ tokenOf body ++ rest ->
  i = len pre ->
  scanFrom (findPlaceholdersRecursive fuel) content (tokenOf body ++ rest)
           i 0 start acc
  = scanFrom (findPlaceholdersRecursive fuel) content rest
             (i + len (tokenOf body)) 0 i (setAdd (tokenOf body) acc).
Proof.
  intros Hbody Hcontent Hi. unfold tokenOf in *.
  change (("{{" ++ body ++ "}}") ++ rest)
    with (String "{" (String "{" ((body ++ "}}") ++ rest))).
  rewrite scanFrom_step. cbn [Ascii.eqb Bool.eqb andb Z.eqb].
  rewrite append_assoc, scanFrom_braceFree_exact by exact Hbody.
  change ("}}" ++ rest) with (String "}" (String "}" rest)).
  rewrite scanFrom_step. cbn [Ascii.eqb Bool.eqb andb].
  pose proof (len_nonneg pre) as Hpre.
  replace (0 + 1 - 1 =? 0) with true by reflexivity.
  replace (i =? -1) with false by (symmetry; apply Z.eqb_neq; lia).
  cbn [negb andb].
  replace (slice content i (i + 2 + len body + 2)) with ("{{" ++ body ++ "}}").
  - rewrite slice_interior, findPlaceholdersRecursive_braceFree by exact Hbody.
    f_equal. rewrite !len_append. change (len "{{") with 2.
    change (len "}}") with 2. lia.
  - rewrite Hcontent, Hi.
    replace (len pre + 2 + len body + 2)
      with (len pre + len ("{{" ++ body ++ "}}"))
      by (rewrite !len_append; change (len "{{") with 2;
          change (len "}}") with 2; lia).
    symmetry. apply slice_middle.
Qed.

Lemma flatPieces_cons (body text : string) pieces :
  flatPieces ((body, text) :: pieces) = true ->
  braceFree body = true /\ braceFree text = true /\ flatPieces pieces = true.
Proof.
  unfold flatPieces. cbn [forallb fst snd]. intros H.
  apply andb_true_iff in H as [Hpiece Hrest].
  apply andb_true_iff in Hpiece as [Hbody Htext]. now repeat split.
Qed.

Lemma scanFrom_fill (fuel : nat) (content : string)
      (pieces : list (string * string)) :
  flatPieces pieces = true ->
  forall pre start acc,
    content = pre ++ fill pieces ->
    scanFrom (findPlaceholdersRecursive fuel) content (fill pieces)
             (len pre) 0 start acc
    = fold_left (fun set x => setAdd x set) (map tokenOf (map fst pieces)) acc.
Proof.
  unfold fill.
  induction pieces as [|[body text] pieces IH]; intros Hflat pre start acc Hcontent.
  - reflexivity.
  - apply flatPieces_cons in Hflat as (Hbody & Htext & Hflat).
    cbn [fillWith fold_left map fst]. cbn [fillWith] in Hcontent.
    rewrite (scanFrom_flat_token fuel content pre body
               (text ++ fillWith tokenOf pieces))
      by (try assumption; reflexivity).
    rewrite scanFrom_braceFree_exact by exact Htext.
    replace (len pre + len (tokenOf body) + len text)
      with (len (pre ++ tokenOf body ++ text))
      by (rewrite !len_append; lia).
    apply IH; [exact Hflat |].
    rewrite Hcontent, !append_assoc. reflexivity.
Qed.

Lemma findPlaceholders_fill (before : string) (pieces : list (string * string)) :
  braceFree before = true ->
  flatPieces pieces = true ->
  findPlaceholders (before ++ fill pieces)
  = distinctOf (map tokenOf (map fst pieces)).
Proof.
  intros Hbefore Hpieces. unfold findPlaceholders, distinctOf.
  cbn [findPlaceholdersRecursive].
  rewrite scanFrom_braceFree_exact by exact Hbefore.
  replace (0 + len before) with (len before) by lia.
  now apply scanFrom_fill.
Qed.

(** X15.  In a text made of brace-free stretches and flat tokens (tokens
    whose body holds no brace) the scanner finds exactly the tokens: the
    result lists them in the order of their first occurrence, each once. *)
Theorem flat_tokens_are_found (before : string)
        (pieces : list (string * string)) :
  braceFree before = true ->
  flatPieces pieces = true ->
  findPlaceholders (before ++ fill pieces)
  = distinctOf (map tokenOf (map fst pieces)).
Proof. apply findPlaceholders_fill. Qed.

Lemma flat_tokens_are_found_witness :
  findPlaceholders "{{gen:uuid:1}} and {{time:calc:0:iso}}, again {{gen:uuid:1}}!"
  = ["{{gen:uuid:1}}"; "{{time:calc:0:iso}}"].
Proof.
  apply (flat_tokens_are_found ""
           [("gen:uuid:1", " and "); ("time:calc:0:iso", ", again ");
            ("gen:uuid:1", "!")]); reflexivity.
Defined.

(** ** Substituting flat tokens *)

Lemma prefix_app (p s : string) : prefix p (p ++ s) = true.
Proof.
  induction p as [|c p IH]; [now destruct s |].
  cbn [append prefix]. now destruct (ascii_dec c c).
Qed.

Lemma prefix_other_head (c d : ascii) (p s : string) :
  Ascii.eqb d c = false -> prefix (String c p) (String d s) = false.
Proof.
  intros Hd. cbn [prefix]. destruct (ascii_dec c d) as [-> |]; [| reflexivity].
  now rewrite Ascii.eqb_refl in Hd.
Qed.

Lemma braceFree_cons (c : ascii) (s : string) :
  braceFree (String c s) = true ->
  Ascii.eqb c "{" = false /\ Ascii.eqb c "}" = false /\ braceFree s = true.
Proof.
  unfold braceFree, isBrace. cbn [forallChars]. intros H.
  apply andb_true_iff in H as [Hc Hs]. apply negb_true_iff in Hc.
  apply orb_false_iff in Hc as [Ho Hc]. now repeat split.
Qed.

Lemma braceFree_app (s t : string) :
  braceFree (s ++ t) = braceFree s && braceFree t.
Proof. apply forallChars_app. Qed.

Lemma braceFree_openFree (s : string) : braceFree s = true -> openFree s = true.
Proof.
  induction s as [|c s IH]; [reflexivity |]. intros H.
  apply braceFree_cons in H as (Ho & _ & Hs).
  unfold openFree. cbn [forallChars]. rewrite Ho. now apply IH.
Qed.

Lemma openFree_app (s t : string) : openFree (s ++ t) = openFree s && openFree t.
Proof. apply forallChars_app. Qed.

Lemma openFree_body_close (b : string) :
  braceFree b = true -> openFree (b ++ "}}") = true.
Proof.
  intros Hb. rewrite openFree_app, braceFree_openFree by exact Hb. reflexivity.
Qed.

(** Two flat tokens of which one opens the other have the same body. *)
Lemma prefix_body (b' : string) :
  forall b s, braceFree b = true -> braceFree b' = true ->
              prefix (b' ++ "}}") (b ++ "}}" ++ s) = true -> b' = b.
Proof.
  induction b' as [|c' b' IH]; intros b s Hb Hb' Hprefix.
  - destruct b as [|c b]; [reflexivity |].
    apply braceFree_cons in Hb as (_ & Hc & _).
    cbn [append prefix] in Hprefix.
    destruct (ascii_dec "}" c) as [<- |]; [discriminate Hc | discriminate].
  - apply braceFree_cons in Hb' as (_ & Hc' & Hb').
    destruct b as [|c b].
    + cbn [append prefix] in Hprefix.
      destruct (ascii_dec c' "}") as [-> |]; [discriminate Hc' | discriminate].
    + apply braceFree_cons in Hb as (_ & _ & Hb).
      cbn [append prefix] in Hprefix.
      destruct (ascii_dec c' c) as [-> |]; [| discriminate].
      f_equal. now apply (IH b s).
Qed.

Lemma prefix_token (b b' s : string) :
  braceFree b = true -> braceFree b' = true ->
  prefix (tokenOf b') (tokenOf b ++ s) = true -> b' = b.
Proof.
  intros Hb Hb' Hprefix. unfold tokenOf in Hprefix.
  rewrite !append_assoc in Hprefix.
  change (prefix (b' ++ "}}") (b ++ "}}" ++ s) = true) in Hprefix.
  now apply (prefix_body b' b s).
Qed.

Lemma tokenOf_injective (b b' : string) : tokenOf b = tokenOf b' -> b = b'.
Proof.
  intros H. rewrite <- (slice_interior b), <- (slice_interior b').
  unfold tokenOf in H. now rewrite H.
Qed.

Lemma prefix_openFree (p x s : string) :
  openFree x = true -> x <> "" -> prefix (String "{" p) (x ++ s) = false.
Proof.
  intros Hx Hne. destruct x as [|c x]; [contradiction |].
  unfold openFree in Hx. cbn [forallChars] in Hx.
  apply andb_true_iff in Hx as [Hc _]. apply negb_true_iff in Hc.
  now apply prefix_other_head.
Qed.

Lemma indexOfFrom_eq (s p : string) (i : Z) :
  indexOfFrom s p i
  = if prefix p s then i
    else match s with
         | EmptyString => -1
         | String _ s' => indexOfFrom s' p (i + 1)
         end.
Proof. now destruct s. Qed.

Lemma indexOfFrom_openFree (p x : string) :
  openFree x = true -> forall i, indexOfFrom x (String "{" p) i = -1.
Proof.
  induction x as [|c x IH]; intros Hx i; [reflexivity |].
  rewrite indexOfFrom_eq.
  assert (Hp : prefix (String "{" p) (String c x) = false).
  { rewrite <- (append_nil_r (String c x)).
    now apply prefix_openFree. }
  rewrite Hp. apply IH.
  unfold openFree in *. cbn [forallChars] in Hx.
  now apply andb_true_iff in Hx as [_ Hx].
Qed.

(** A flat token includes no other flat token. *)
Lemma includes_other_token (b b' : string) :
  braceFree b = true -> braceFree b' = true -> b' <> b ->
  includes (tokenOf b) (tokenOf b') = false.
Proof.
  intros Hb Hb' Hne. unfold includes, indexOf.
  assert (Hat0 : prefix (tokenOf b') (tokenOf b) = false).
  { destruct (prefix (tokenOf b') (tokenOf b)) eqn:E; [| reflexivity].
    rewrite <- (append_nil_r (tokenOf b)) in E.
    now apply prefix_token in E. }
  rewrite indexOfFrom_eq, Hat0.
  change (tokenOf b) with (String "{" (String "{" (b ++ "}}"))).
  change (tokenOf b') with (String "{" (String "{" (b' ++ "}}"))).
  cbv iota beta. rewrite indexOfFrom_eq.
  assert (Hat1 : prefix (String "{" (String "{" (b' ++ "}}")))
                        (String "{" (b ++ "}}")) = false).
  { cbn [prefix]. destruct (ascii_dec "{" "{"); [| reflexivity].
    rewrite <- (append_nil_r (b ++ "}}")).
    apply prefix_openFree; [now apply openFree_body_close |].
    now destruct b. }
  rewrite Hat1. cbv iota beta.
  rewrite indexOfFrom_openFree by now apply openFree_body_close.
  reflexivity.
Qed.

Lemma indexOfFrom_behind_text (pre b s : string) :
  braceFree pre = true ->
  forall i, indexOfFrom (pre ++ tokenOf b ++ s) (tokenOf b) i = i + len pre.
Proof.
  induction pre as [|c pre IH]; intros Hpre i.
  - cbn [append]. rewrite indexOfFrom_eq, prefix_app.
    change (len "") with 0. lia.
  - apply braceFree_cons in Hpre as (Hc & _ & Hpre).
    rewrite indexOfFrom_eq. cbn [append].
    change (tokenOf b) with (String "{" (String "{" (b ++ "}}"))) at 1.
    rewrite prefix_other_head by exact Hc.
    change (String "{" (String "{" (b ++ "}}"))) with (tokenOf b).
    rewrite IH by exact Hpre.
    unfold len. cbn [String.length]. lia.
Qed.

Lemma dropChars_app (a b : string) : dropChars (String.length a) (a ++ b) = b.
Proof.
  unfold dropChars. rewrite append_length.
  replace (String.length a + String.length b - String.length a)%nat
    with (String.length b) by lia.
  pose proof (substring_middle a b "") as H. now rewrite append_nil_r in H.
Qed.

(** [replace] on the first token of a text: what stands before it holds no
    brace, so the first occurrence is the token itself. *)
Lemma replace_first_token (pre b post w : string) :
  braceFree pre = true -> noDollar w = true ->
  replace (pre ++ tokenOf b ++ post) (tokenOf b) w = pre ++ w ++ post.
Proof.
  intros Hpre Hw. unfold replace, indexOf.
  rewrite indexOfFrom_behind_text by exact Hpre.
  pose proof (len_nonneg pre) as Hlen.
  replace (0 + len pre <? 0) with false by (symmetry; apply Z.ltb_ge; lia).
  cbv zeta. rewrite getSubstitution_plain by exact Hw.
  replace (Z.to_nat (0 + len pre)) with (String.length pre) by (unfold len; lia).
  rewrite substring_prefix. do 2 f_equal.
  rewrite <- append_length, <- append_assoc. apply dropChars_app.
Qed.

Lemma replaceAllFrom_eq (whole pat repl : string) (c : ascii) (s : string)
      (pos skip : nat) :
  replaceAllFrom whole pat repl (String c s) pos skip
  = match skip with
    | S k => replaceAllFrom whole pat repl s (S pos) k
    | O =>
        if prefix pat (String c s) && negb (String.eqb pat "") then
          getSubstitution pat (substring 0 pos whole)
            (dropChars (pos + String.length pat) whole) repl
          ++ replaceAllFrom whole pat repl s (S pos) (String.length pat - 1)
        else String c (replaceAllFrom whole pat repl s (S pos) O)
    end.
Proof. reflexivity. Qed.

Lemma replaceAllFrom_copy (whole p repl x s : string) :
  openFree x = true ->
  forall pos, exists pos',
    replaceAllFrom whole (String "{" p) repl (x ++ s) pos 0
    = x ++ replaceAllFrom whole (String "{" p) repl s pos' 0.
Proof.
  induction x as [|c x IH]; intros Hx pos; [now exists pos |].
  assert (Hp : prefix (String "{" p) (String c x ++ s) = false)
    by (now apply prefix_openFree).
  unfold openFree in Hx. cbn [forallChars] in Hx.
  apply andb_true_iff in Hx as [_ Hx].
  destruct (IH Hx (S pos)) as [pos' Hrest]. exists pos'.
  cbn [append] in *. rewrite replaceAllFrom_eq, Hp. cbn [andb].
  now rewrite Hrest.
Qed.

Lemma replaceAllFrom_skip (whole pat repl x s : string) :
  forall pos, exists pos',
    replaceAllFrom whole pat repl (x ++ s) pos (String.length x)
    = replaceAllFrom whole pat repl s pos' 0.
Proof.
  induction x as [|c x IH]; intros pos; [now exists pos |].
  destruct (IH (S pos)) as [pos' Hrest]. exists pos'.
  cbn [append String.length]. now rewrite replaceAllFrom_eq.
Qed.

Lemma replaceAllFrom_match (whole p repl s : string) (pos : nat) :
  noDollar repl = true ->
  exists pos',
    replaceAllFrom whole (String "{" p) repl (String "{" p ++ s) pos 0
    = repl ++ replaceAllFrom whole (String "{" p) repl s pos' 0.
Proof.
  intros Hrepl.
  destruct (replaceAllFrom_skip whole (String "{" p) repl p s (S pos))
    as [pos' Hskip].
  exists pos'.
  pose proof (prefix_app (String "{" p) s) as Hp.
  cbn [append] in *. rewrite replaceAllFrom_eq, Hp.
  cbn [String.eqb negb andb String.length].
  replace (S (String.length p) - 1)%nat with (String.length p) by lia.
  rewrite Hskip, getSubstitution_plain by exact Hrepl.
  reflexivity.
Qed.

Lemma replaceAllFrom_other_token (whole b b' repl s : string) (pos : nat) :
  braceFree b = true -> braceFree b' = true -> b' <> b ->
  exists pos',
    replaceAllFrom whole (tokenOf b') repl (tokenOf b ++ s) pos 0
    = tokenOf b ++ replaceAllFrom whole (tokenOf b') repl s pos' 0.
Proof.
  intros Hb Hb' Hne.
  assert (Hat0 : prefix (tokenOf b') (tokenOf b ++ s) = false).
  { destruct (prefix (tokenOf b') (tokenOf b ++ s)) eqn:E; [| reflexivity].
    now apply prefix_token in E. }
  assert (Hat1 : prefix (tokenOf b') (String "{" ((b ++ "}}") ++ s)) = false).
  { change (tokenOf b') with (String "{" (String "{" (b' ++ "}}"))).
    cbn [prefix]. destruct (ascii_dec "{" "{"); [| reflexivity].
    apply prefix_openFree; [now apply openFree_body_close | now destruct b]. }
  change (tokenOf b') with (String "{" (String "{" (b' ++ "}}"))) in *.
  destruct (replaceAllFrom_copy whole (String "{" (b' ++ "}}")) repl
              (b ++ "}}") s (openFree_body_close b Hb) (S (S pos)))
    as [pos' Hcopy].
  exists pos'.
  change (tokenOf b ++ s) with (String "{" (String "{" ((b ++ "}}") ++ s))) in *.
  rewrite replaceAllFrom_eq, Hat0. cbn [andb].
  rewrite replaceAllFrom_eq, Hat1. cbn [andb].
  rewrite Hcopy. reflexivity.
Qed.

Lemma inList_cons (x y : string) (l : list string) :
  inList x (y :: l) = String.eqb x y || inList x l.
Proof. reflexivity. Qed.

(** [replaceAll] with a flat token on a text of flat pieces replaces the
    token wherever it still stands and touches nothing else. *)
Lemma replaceAllFrom_pieces (value : string -> string) (done : list string)
      (b0 whole : string) (pieces : list (string * string)) :
  braceFree b0 = true ->
  noDollar (value b0) = true ->
  (forall b, In b (map fst pieces) -> braceFree (value b) = true) ->
  flatPieces pieces = true ->
  forall pos,
    replaceAllFrom whole (tokenOf b0) (value b0)
                   (fillWith (shownAfter value done) pieces) pos 0
    = fillWith (shownAfter value (b0 :: done)) pieces.
Proof.
  intros Hb0 Hdollar.
  induction pieces as [|[b text] pieces IH]; intros Hvalues Hflat pos;
    [reflexivity |].
  apply flatPieces_cons in Hflat as (Hb & Htext & Hflat).
  assert (Hrest : forall pos',
             replaceAllFrom whole (tokenOf b0) (value b0)
               (text ++ fillWith (shownAfter value done) pieces) pos' 0
             = text ++ fillWith (shownAfter value (b0 :: done)) pieces).
  { intros pos'.
    destruct (replaceAllFrom_copy whole (String "{" (b0 ++ "}}")) (value b0)
                text (fillWith (shownAfter value done) pieces)
                (braceFree_openFree text Htext) pos') as [pos2 Hcopy].
    change (String "{" (String "{" (b0 ++ "}}"))) with (tokenOf b0) in Hcopy.
    rewrite Hcopy. f_equal. apply IH; [| exact Hflat].
    intros b1 Hin. apply Hvalues. now right. }
  cbn [fillWith]. unfold shownAfter at 1 3. rewrite inList_cons.
  destruct (inList b done) eqn:Hdone.
  - rewrite orb_true_r.
    destruct (replaceAllFrom_copy whole (String "{" (b0 ++ "}}")) (value b0)
                (value b)
                (text ++ fillWith (shownAfter value done) pieces)
                (braceFree_openFree _ (Hvalues b (or_introl eq_refl))) pos)
      as [pos1 Hcopy].
    change (String "{" (String "{" (b0 ++ "}}"))) with (tokenOf b0) in Hcopy.
    rewrite Hcopy, Hrest. reflexivity.
  - rewrite orb_false_r. destruct (String.eqb_spec b b0) as [-> | Hne].
    + destruct (replaceAllFrom_match whole (String "{" (b0 ++ "}}")) (value b0)
                  (text ++ fillWith (shownAfter value done) pieces) pos Hdollar)
        as [pos1 Hmatch].
      change (String "{" (String "{" (b0 ++ "}}"))) with (tokenOf b0) in Hmatch.
      rewrite Hmatch, Hrest. reflexivity.
    + destruct (replaceAllFrom_other_token whole b b0 (value b0)
                  (text ++ fillWith (shownAfter value done) pieces) pos Hb Hb0)
        as [pos1 Hother]; [congruence |].
      rewrite Hother, Hrest. reflexivity.
Qed.

Lemma replaceAll_pieces (value : string -> string) (done : list string)
      (b0 before : string) (pieces : list (string * string)) :
  braceFree b0 = true ->
  noDollar (value b0) = true ->
  (forall b, In b (map fst pieces) -> braceFree (value b) = true) ->
  braceFree before = true ->
  flatPieces pieces = true ->
  replaceAll (before ++ fillWith (shownAfter value done) pieces)
             (tokenOf b0) (value b0)
  = before ++ fillWith (shownAfter value (b0 :: done)) pieces.
Proof.
  intros Hb0 Hdollar Hvalues Hbefore Hflat. unfold JsString.replaceAll.
  destruct (replaceAllFrom_copy
              (before ++ fillWith (shownAfter value done) pieces)
              (String "{" (b0 ++ "}}")) (value b0) before
              (fillWith (shownAfter value done) pieces)
              (braceFree_openFree before Hbefore) 0%nat) as [pos Hcopy].
  change (String "{" (String "{" (b0 ++ "}}"))) with (tokenOf b0) in Hcopy.
  rewrite Hcopy. f_equal. now apply replaceAllFrom_pieces.
Qed.

Lemma fillWith_ext (f g : string -> string) (pieces : list (string * string)) :
  (forall b, In b (map fst pieces) -> f b = g b) ->
  fillWith f pieces = fillWith g pieces.
Proof.
  induction pieces as [|[b text] pieces IH]; intros Hext; [reflexivity |].
  cbn [fillWith]. rewrite (Hext b) by now left.
  rewrite IH; [reflexivity |]. intros b1 Hin. apply Hext. now right.
Qed.

Lemma braceFree_fillWith (f : string -> string) (pieces : list (string * string)) :
  (forall b, In b (map fst pieces) -> braceFree (f b) = true) ->
  flatPieces pieces = true ->
  braceFree (fillWith f pieces) = true.
Proof.
  induction pieces as [|[b text] pieces IH]; intros Hvalues Hflat;
    [reflexivity |].
  apply flatPieces_cons in Hflat as (_ & Htext & Hflat).
  cbn [fillWith]. rewrite !braceFree_app, Htext, (Hvalues b) by now left.
  rewrite IH; [reflexivity | | exact Hflat].
  intros b1 Hin. apply Hvalues. now right.
Qed.

Lemma flatPieces_bodies (pieces : list (string * string)) :
  flatPieces pieces = true ->
  forall b, In b (map fst pieces) -> braceFree b = true.
Proof.
  induction pieces as [|[b text] pieces IH]; intros Hflat b1 Hin;
    [contradiction |].
  apply flatPieces_cons in Hflat as (Hb & _ & Hflat).
  destruct Hin as [<- | Hin]; [exact Hb | now apply IH].
Qed.

(** *** Sets of tokens *)

Lemma setAdd_In (x y : string) (set : list string) :
  In y (setAdd x set) <-> y = x \/ In y set.
Proof.
  unfold setAdd. destruct (existsb (String.eqb x) set) eqn:E.
  - split; [now right |]. intros [-> | H]; [| exact H].
    now apply (inList_In x set).
  - rewrite in_app_iff. cbn [In]. intuition congruence.
Qed.

Lemma fold_setAdd_In (l : list string) :
  forall acc y,
    In y (fold_left (fun set x => setAdd x set) l acc) <-> In y acc \/ In y l.
Proof.
  induction l as [|x l IH]; intros acc y; cbn [fold_left In]; [tauto |].
  rewrite IH, setAdd_In. intuition congruence.
Qed.

Lemma distinctOf_In (l : list string) (y : string) :
  In y (distinctOf l) <-> In y l.
Proof. unfold distinctOf. rewrite fold_setAdd_In. cbn [In]. tauto. Qed.

Lemma fold_setAdd_NoDup (l : list string) :
  forall acc,
    NoDup l -> (forall x, In x l -> ~ In x acc) ->
    fold_left (fun set x => setAdd x set) l acc = (acc ++ l)%list.
Proof.
  induction l as [|x l IH]; intros acc Hnodup Hfresh; cbn [fold_left].
  - now rewrite app_nil_r.
  - inversion Hnodup as [|? ? Hx Hl]; subst.
    assert (Hadd : setAdd x acc = (acc ++ [x])%list).
    { unfold setAdd. destruct (existsb (String.eqb x) acc) eqn:E; [| reflexivity].
      apply (inList_In x acc) in E. now apply Hfresh in E; [| left]. }
    rewrite Hadd, IH, <- app_assoc; [reflexivity | exact Hl |].
    intros y Hy Hin. apply in_app_iff in Hin as [Hin | [-> | []]].
    + apply (Hfresh y); [now right | exact Hin].
    + contradiction.
Qed.

Lemma distinctOf_NoDup (l : list string) : NoDup l -> distinctOf l = l.
Proof.
  intros H. unfold distinctOf. now rewrite fold_setAdd_NoDup.
Qed.

Lemma NoDup_tokens (bodies : list string) :
  NoDup bodies -> NoDup (map tokenOf bodies).
Proof.
  induction 1 as [|b bodies Hb Hnodup IH]; cbn [map]; constructor; [| exact IH].
  intros Hin. apply in_map_iff in Hin as [b' [Heq Hin]].
  apply tokenOf_injective in Heq. now subst.
Qed.

(** ** The processors on flat tokens *)

Lemma text_loop_step registry options remaining result0 previousResult
      iterations :
  TextProcessor.loop registry options (S remaining) result0 previousResult
                     iterations
  = if String.eqb result0 previousResult then OK (result0, iterations)
    else
      match findPlaceholders result0 with
      | [] => OK (result0, iterations)
      | placeholders =>
          result1 <- foldM (TextProcessor.replaceOne registry options)
                           placeholders result0 ;;
          TextProcessor.loop registry options remaining result1 result0
                             (S iterations)
      end.
Proof. reflexivity. Qed.

Lemma text_loop_exit registry options remaining result0 previousResult
      iterations :
  braceFree result0 = true ->
  TextProcessor.loop registry options remaining result0 previousResult
                     iterations
  = OK (result0, iterations).
Proof.
  intros Hfree. destruct remaining; [reflexivity |]. rewrite text_loop_step.
  destruct (String.eqb _ _); [reflexivity |].
  now rewrite findPlaceholders_braceFree.
Qed.

Lemma text_fold_pieces registry options (value : string -> string)
      (pieces : list (string * string)) :
  flatPieces pieces = true ->
  (forall b, In b (map fst pieces) ->
             TextProcessor.resolvePlaceholder registry options (tokenOf b)
             = OK (value b)
             /\ braceFree (value b) = true /\ noDollar (value b) = true) ->
  forall before,
    braceFree before = true ->
    foldM (TextProcessor.replaceOne registry options)
          (map tokenOf (map fst pieces)) (before ++ fill pieces)
    = OK (before ++ fillWith value pieces).
Proof.
  unfold fill.
  induction pieces as [|[b text] pieces IH]; intros Hflat Hvalues before Hbefore;
    [reflexivity |].
  apply flatPieces_cons in Hflat as (Hb & Htext & Hflat).
  destruct (Hvalues b (or_introl eq_refl)) as (Hres & Hfree & Hdollar).
  cbn [map fst foldM fillWith].
  unfold TextProcessor.replaceOne at 1. rewrite Hres. cbn [bind].
  rewrite replace_first_token by assumption.
  replace (before ++ value b ++ text ++ fillWith tokenOf pieces)
    with ((before ++ value b ++ text) ++ fillWith tokenOf pieces)
    by (now rewrite !append_assoc).
  replace (before ++ value b ++ text ++ fillWith value pieces)
    with ((before ++ value b ++ text) ++ fillWith value pieces)
    by (now rewrite !append_assoc).
  apply IH; [exact Hflat | |].
  - intros b1 Hin. apply Hvalues. now right.
  - now rewrite !braceFree_app, Hbefore, Hfree, Htext.
Qed.

Lemma text_process_pieces registry options
      (value : string -> string) (before : string)
      (pieces : list (string * string)) :
  braceFree before = true ->
  flatPieces pieces = true ->
  NoDup (map fst pieces) ->
  (forall b, In b (map fst pieces) ->
             TextProcessor.resolvePlaceholder registry options (tokenOf b)
             = OK (value b)
             /\ braceFree (value b) = true /\ noDollar (value b) = true) ->
  TextProcessor.process registry options (before ++ fill pieces)
  = OK (before ++ fillWith value pieces).
Proof.
  intros Hbefore Hflat Hnodup Hvalues.
  pose proof (findPlaceholders_fill before pieces Hbefore Hflat) as Hfind.
  rewrite distinctOf_NoDup in Hfind by now apply NoDup_tokens.
  assert (Hfinal : braceFree (before ++ fillWith value pieces) = true).
  { rewrite braceFree_app, Hbefore, braceFree_fillWith; [reflexivity | | exact Hflat].
    intros b Hin. now apply Hvalues. }
  destruct pieces as [|[b text] pieces].
  - now apply text_without_placeholders.
  - unfold TextProcessor.process, TextProcessor.maxIterations.
    rewrite text_loop_step.
    destruct (String.eqb_spec (before ++ fill ((b, text) :: pieces)) "")
      as [Hempty | _].
    { rewrite Hempty in Hfind. discriminate Hfind. }
    rewrite Hfind. cbn [map fst]. cbv iota beta.
    change (tokenOf b :: map tokenOf (map fst pieces))
      with (map tokenOf (map fst ((b, text) :: pieces))).
    rewrite (text_fold_pieces registry options value) by assumption.
    cbn [bind]. now rewrite text_loop_exit.
Qed.

(** X16.  A text of brace-free stretches and pairwise different flat tokens,
    each of which resolves to a string without brace and without dollar
    sign, comes back from [TextProcessor.process] with every token replaced
    by its string and everything else as it was. *)
Theorem text_replaces_distinct_flat_tokens registry options
        (value : string -> string) (before : string)
        (pieces : list (string * string)) :
  braceFree before = true ->
  flatPieces pieces = true ->
  NoDup (map fst pieces) ->
  (forall b, In b (map fst pieces) ->
             TextProcessor.resolvePlaceholder registry options (tokenOf b)
             = OK (value b)
             /\ braceFree (value b) = true /\ noDollar (value b) = true) ->
  TextProcessor.process registry options (before ++ fill pieces)
  = OK (before ++ fillWith value pieces).
Proof. apply text_process_pieces. Qed.

Lemma text_replaces_distinct_flat_tokens_witness :
  TextProcessor.process mockRegistry defaultOptions
    "Train {{mock:echo:4837}} to {{mock:echo:Berlin}}."
  = OK "Train 4837 to Berlin.".
Proof.
  apply (text_replaces_distinct_flat_tokens mockRegistry defaultOptions
           (fun b => substring 10 (String.length b - 10) b) "Train "
           [("mock:echo:4837", " to "); ("mock:echo:Berlin", ".")]).
  - reflexivity.
  - reflexivity.
  - repeat constructor; cbn; intuition discriminate.
  - intros b [<- | [<- | []]]; vm_compute; repeat split.
Defined.

Lemma forallChars_trimStart (f : ascii -> bool) (s : string) :
  forallChars f s = true -> forallChars f (trimStart s) = true.
Proof.
  induction s as [|c s IH]; [easy |]. intros H. cbn [trimStart].
  destruct (isWhiteSpace c); [| exact H].
  cbn [forallChars] in H. apply andb_true_iff in H as [_ H]. now apply IH.
Qed.

Lemma forallChars_trimEnd (f : ascii -> bool) (s : string) :
  forallChars f s = true -> forallChars f (trimEnd s) = true.
Proof.
  induction s as [|c s IH]; [easy |]. intros H. cbn [forallChars] in H.
  apply andb_true_iff in H as [Hc Hs]. specialize (IH Hs). cbn [trimEnd].
  destruct (trimEnd s) as [|d t].
  - destruct (isWhiteSpace c); [reflexivity |]. cbn [forallChars].
    now rewrite Hc.
  - cbn [forallChars] in *. now rewrite Hc.
Qed.

Lemma isPlaceholder_braceFree (s : string) :
  braceFree s = true -> isPlaceholder s = false.
Proof.
  intros H. apply braceFree_openFree in H.
  apply (forallChars_trimStart _ s), (forallChars_trimEnd _ (trimStart s)) in H.
  unfold isPlaceholder. fold (trim s) in H. cbv zeta.
  destruct (trim s) as [|c t]; [reflexivity |].
  cbn [forallChars] in H. apply andb_true_iff in H as [Hc _].
  apply negb_true_iff in Hc. unfold startsWith.
  now rewrite prefix_other_head.
Qed.

Lemma containsOthers_flat (current : list string) (b : string) :
  (forall t, In t current -> exists b', t = tokenOf b' /\ braceFree b' = true) ->
  braceFree b = true ->
  JsonProcessor.containsOthers current (tokenOf b) = false.
Proof.
  intros Hcurrent Hb. unfold JsonProcessor.containsOthers.
  destruct (existsb _ current) eqn:E; [| reflexivity].
  apply existsb_exists in E as [t [Hin Ht]].
  apply andb_true_iff in Ht as [Hne Hincl].
  destruct (Hcurrent t Hin) as [b' [-> Hb']].
  apply negb_true_iff, String.eqb_neq in Hne.
  rewrite includes_other_token in Hincl; [discriminate | assumption..|].
  congruence.
Qed.

Lemma insertSpan_In (x y : JsonProcessor.Span) (l : list JsonProcessor.Span) :
  In y (JsonProcessor.insertSpan x l) <-> y = x \/ In y l.
Proof.
  induction l as [|z l IH]; cbn [JsonProcessor.insertSpan In].
  - intuition congruence.
  - destruct (JsonProcessor.compareSpans x z <? 0); cbn [In];
      [| rewrite IH]; intuition congruence.
Qed.

Lemma sortSpans_In (y : JsonProcessor.Span) (l : list JsonProcessor.Span) :
  In y (JsonProcessor.sortSpans l) <-> In y l.
Proof.
  unfold JsonProcessor.sortSpans.
  assert (H : forall acc,
             In y (fold_left (fun sorted x => JsonProcessor.insertSpan x sorted)
                             l acc)
             <-> In y acc \/ In y l).
  { induction l as [|x l IH]; intros acc; cbn [fold_left In]; [tauto |].
    rewrite IH, insertSpan_In. intuition congruence. }
  rewrite H. cbn [In]. tauto.
Qed.

(** Sorting keeps the placeholders: none is lost and none is added. *)
Lemma sortPlaceholdersByPosition_In (content : string) (l : list string)
      (y : string) :
  In y (JsonProcessor.sortPlaceholdersByPosition content l) <-> In y l.
Proof.
  unfold JsonProcessor.sortPlaceholdersByPosition.
  rewrite in_map_iff. split.
  - intros [span [<- Hin]]. apply sortSpans_In, in_map_iff in Hin.
    now destruct Hin as [ph [<- Hph]].
  - intros Hin. eexists. split; [| apply sortSpans_In, in_map_iff; eauto].
    reflexivity.
Qed.

Lemma json_loop_exit registry options path isPure remaining result0
      previousResult lastResolvedValue iterations :
  braceFree result0 = true ->
  JsonProcessor.loop registry options path isPure remaining result0
                     previousResult lastResolvedValue iterations
  = OK (result0, lastResolvedValue, iterations).
Proof.
  intros Hfree. destruct remaining; [reflexivity |]. rewrite json_loop_step.
  destruct (String.eqb _ _); [reflexivity |].
  now rewrite findPlaceholders_braceFree.
Qed.

Lemma pass_flat registry options path (value : string -> JsonValue)
      (before : string) (pieces : list (string * string)) (isPure : bool)
      (current : list string) (last : JsonValue) :
  braceFree before = true ->
  flatPieces pieces = true ->
  (forall b, In b (map fst pieces) ->
             JsonProcessor.resolvePlaceholder registry options (tokenOf b) path
             = OK (value b)
             /\ braceFree (toStr (value b)) = true
             /\ noDollar (toStr (value b)) = true) ->
  (forall t, In t current -> exists b, t = tokenOf b /\ braceFree b = true) ->
  isPure && (List.length current =? 1)%nat = false ->
  forall order done,
    (forall t, In t order -> exists b, t = tokenOf b /\ In b (map fst pieces)) ->
    exists done',
      foldM (JsonProcessor.passStep registry options path isPure current) order
            (before ++ fillWith (shownAfter (fun b => toStr (value b)) done)
                                pieces, last)
      = OK (before ++ fillWith (shownAfter (fun b => toStr (value b)) done')
                               pieces, last)
      /\ forall b, In b done \/ In (tokenOf b) order -> In b done'.
Proof.
  intros Hbefore Hflat Hvalues Hcurrent Hcond.
  induction order as [|t order IH]; intros done Horder.
  - exists done. split; [reflexivity |]. now intros b [H | []].
  - destruct (Horder t (or_introl eq_refl)) as [b [-> Hin]].
    destruct (Hvalues b Hin) as (Hres & Hfree & Hdollar).
    pose proof (flatPieces_bodies pieces Hflat b Hin) as Hb.
    destruct (IH (b :: done)) as [done' [Hfold Hdone']].
    { intros t Ht. apply Horder. now right. }
    exists done'. split.
    + cbn [foldM]. unfold JsonProcessor.passStep at 1.
      rewrite containsOthers_flat by assumption.
      unfold JsonProcessor.resolveAndReplace. rewrite Hres. cbn [bind].
      rewrite Hcond.
      rewrite (replaceAll_pieces (fun b => toStr (value b)) done b before pieces);
        try assumption.
      intros b1 Hb1. now apply Hvalues.
    + intros b1 [Hb1 | [Heq | Hb1]].
      * apply Hdone'. left. now right.
      * apply tokenOf_injective in Heq. subst b1. apply Hdone'. left. now left.
      * apply Hdone'. now right.
Qed.

(** X17.  A JSON string leaf of brace-free stretches and flat tokens, each of
    which resolves to a value whose string holds no brace and no dollar sign,
    becomes a string in which every occurrence of every token is replaced
    by the string of its value, unless the leaf is a pure placeholder with
    one distinct token. *)
Theorem interpolation_replaces_every_flat_token registry options path
        (value : string -> JsonValue) (before : string)
        (pieces : list (string * string)) :
  braceFree before = true ->
  flatPieces pieces = true ->
  (forall b, In b (map fst pieces) ->
             JsonProcessor.resolvePlaceholder registry options (tokenOf b) path
             = OK (value b)
             /\ braceFree (toStr (value b)) = true
             /\ noDollar (toStr (value b)) = true) ->
  isPlaceholder (before ++ fill pieces)
  && (List.length (distinctOf (map tokenOf (map fst pieces))) =? 1)%nat = false ->
  JsonProcessor.processStringValue registry options (before ++ fill pieces) path
  = OK (JString (before ++ fillWith (fun b => toStr (value b)) pieces)).
Proof.
  intros Hbefore Hflat Hvalues Hcond.
  pose proof (findPlaceholders_fill before pieces Hbefore Hflat) as Hfind.
  assert (Hfinal : braceFree (before ++ fillWith (fun b => toStr (value b)) pieces)
                   = true).
  { rewrite braceFree_app, Hbefore, braceFree_fillWith; [reflexivity | | exact Hflat].
    intros b Hin. now apply Hvalues. }
  assert (Hcurrent : forall t, In t (distinctOf (map tokenOf (map fst pieces))) ->
                               exists b, t = tokenOf b /\ In b (map fst pieces)).
  { intros t Ht. apply distinctOf_In, in_map_iff in Ht as [b [<- Hb]]. eauto. }
  unfold JsonProcessor.processStringValue. cbv zeta. rewrite Hfind.
  destruct (distinctOf (map tokenOf (map fst pieces))) as [|t ts] eqn:Hdistinct.
  - destruct pieces as [|[b text] pieces]; [reflexivity |].
    exfalso.
    assert (Hin : In (tokenOf b) (distinctOf (map tokenOf (map fst ((b, text) :: pieces)))))
      by (apply distinctOf_In; now left).
    rewrite Hdistinct in Hin. exact Hin.
  - rewrite Hcond. unfold JsonProcessor.maxIterations.
    rewrite json_loop_step.
    destruct (String.eqb_spec (before ++ fill pieces) "") as [Hempty | _].
    { rewrite Hempty in Hfind. discriminate Hfind. }
    rewrite Hfind. cbv iota beta. unfold JsonProcessor.pass. cbn [fst].
    destruct (pass_flat registry options path value before pieces
                (isPlaceholder (before ++ fill pieces)) (t :: ts) JNull
                Hbefore Hflat Hvalues) with
      (order := JsonProcessor.sortPlaceholdersByPosition
                  (before ++ fill pieces) (t :: ts))
      (done := @nil string) as [done' [Hpass Hdone']].
    + intros t' Ht'. destruct (Hcurrent t' Ht') as [b [-> Hb]].
      exists b. split; [reflexivity |]. now apply (flatPieces_bodies pieces).
    + exact Hcond.
    + intros t' Ht'. apply sortPlaceholdersByPosition_In in Ht'. now apply Hcurrent.
    + change (fillWith (shownAfter (fun b => toStr (value b)) []) pieces)
        with (fill pieces) in Hpass.
      rewrite Hpass. cbn [bind fst snd].
      rewrite (fillWith_ext (shownAfter (fun b => toStr (value b)) done')
                            (fun b => toStr (value b))).
      * rewrite json_loop_exit by exact Hfinal. cbn [bind].
        unfold JsonProcessor.afterLoop. cbn [JsonProcessor.isNull negb].
        rewrite (isPlaceholder_braceFree _ Hfinal).
        now destruct (isPlaceholder (before ++ fill pieces)).
      * intros b Hb. unfold shownAfter.
        assert (Hin : In b done').
        { apply Hdone'. right. apply sortPlaceholdersByPosition_In.
          rewrite <- Hdistinct. apply distinctOf_In, in_map_iff. eauto. }
        apply inList_In in Hin. now rewrite Hin.
Qed.

Lemma interpolation_replaces_every_flat_token_witness :
  JsonProcessor.processStringValue mockRegistry defaultOptions
    "{{mock:echo:a}}-{{mock:echo:12|toNumber}}-{{mock:echo:a}}" ["id"]
  = OK (JString "a-12-a").
Proof.
  apply (interpolation_replaces_every_flat_token mockRegistry defaultOptions
           ["id"]
           (fun b => if String.eqb b "mock:echo:a" then JString "a" else JNumber 12)
           ""
           [("mock:echo:a", "-"); ("mock:echo:12|toNumber", "-");
            ("mock:echo:a", "")]).
  - reflexivity.
  - reflexivity.
  - intros b [<- | [<- | [<- | []]]]; vm_compute; repeat split.
  - reflexivity.
Defined.

(** ** Parsing a rendered placeholder *)

Lemma forallChars_impl (f g : ascii -> bool) (s : string) :
  (forall c, f c = true -> g c = true) ->
  forallChars f s = true -> forallChars g s = true.
Proof.
  intros Himpl. induction s as [|c s IH]; [easy |]. cbn [forallChars].
  intros H. apply andb_true_iff in H as [Hc Hs].
  now rewrite (Himpl c Hc), IH.
Qed.

Lemma forallChars_escapeColons (f : ascii -> bool) (s : string) :
  f "\"%char = true -> f ":"%char = true ->
  forallChars f s = true -> forallChars f (escapeColons s) = true.
Proof.
  intros Hback Hcolon. induction s as [|c s IH]; [easy |].
  cbn [forallChars escapeColons]. intros H.
  apply andb_true_iff in H as [Hc Hs].
  destruct (Ascii.eqb c ":"); cbn [forallChars];
    now rewrite ?Hback, ?Hcolon, ?Hc, IH.
Qed.

Lemma forallChars_join (f : ascii -> bool) (sep : string) (l : list string) :
  forallChars f sep = true ->
  Forall (fun s => forallChars f s = true) l ->
  forallChars f (join sep l) = true.
Proof.
  intros Hsep. induction 1 as [|x l Hx Hl IH]; [reflexivity |].
  destruct l as [|y l]; [exact Hx |].
  change (join sep (x :: y :: l)) with (x ++ sep ++ join sep (y :: l)).
  now rewrite !forallChars_app, Hx, Hsep, IH.
Qed.

Lemma forallChars_concatAll (f : ascii -> bool) (l : list string) :
  Forall (fun s => forallChars f s = true) l ->
  forallChars f (concatAll l) = true.
Proof.
  induction 1 as [|x l Hx Hl IH]; [reflexivity |].
  cbn [concatAll]. now rewrite forallChars_app, Hx, IH.
Qed.

Lemma headOk_app (s t : string) : headOk s = true -> headOk (s ++ t) = true.
Proof. now destruct s. Qed.

Lemma lastOk_app (s t : string) : lastOk t = true -> lastOk (s ++ t) = true.
Proof.
  intros Ht. induction s as [|c s IH]; [exact Ht |].
  cbn [append lastOk]. destruct (s ++ t); [discriminate IH | exact IH].
Qed.

Lemma trim_fixed (s : string) :
  headOk s = true -> lastOk s = true -> trim s = s.
Proof.
  intros Hhead Hlast. unfold trim.
  assert (Hstart : trimStart s = s).
  { destruct s as [|c s]; [reflexivity |]. cbn [headOk] in Hhead.
    apply negb_true_iff in Hhead. cbn [trimStart]. now rewrite Hhead. }
  rewrite Hstart. clear Hhead Hstart.
  induction s as [|c s IH]; [reflexivity |].
  cbn [trimEnd]. destruct s as [|d s].
  - cbn [trimEnd lastOk] in *. apply negb_true_iff in Hlast. now rewrite Hlast.
  - rewrite IH by exact Hlast. reflexivity.
Qed.

Lemma headOk_escapeColons (s : string) :
  headOk s = true -> headOk (escapeColons s) = true.
Proof.
  destruct s as [|c s]; [easy |]. cbn [escapeColons headOk].
  now destruct (Ascii.eqb c ":").
Qed.

Lemma lastOk_escapeColons (s : string) :
  lastOk s = true -> lastOk (escapeColons s) = true.
Proof.
  induction s as [|c s IH]; [easy |]. intros H.
  destruct s as [|d s].
  - cbn [escapeColons]. destruct (Ascii.eqb c ":"); [reflexivity | exact H].
  - specialize (IH H). cbn [escapeColons] in *.
    destruct (Ascii.eqb c ":"), (Ascii.eqb d ":"); exact IH.
Qed.

Lemma headOk_join (sep x : string) (l : list string) :
  headOk x = true -> headOk (join sep (x :: l)) = true.
Proof.
  intros Hx. destruct l as [|y l]; [exact Hx |].
  change (join sep (x :: y :: l)) with (x ++ sep ++ join sep (y :: l)).
  now apply headOk_app.
Qed.

Lemma lastOk_join (sep : string) (l : list string) :
  l <> [] -> Forall (fun s => lastOk s = true) l ->
  lastOk (join sep l) = true.
Proof.
  intros Hne Hall. induction Hall as [|x l Hx Hl IH]; [contradiction |].
  destruct l as [|y l]; [exact Hx |].
  change (join sep (x :: y :: l)) with (x ++ sep ++ join sep (y :: l)).
  rewrite <- append_assoc. apply lastOk_app, IH. discriminate.
Qed.

(** *** The pipe splitter *)

Lemma splitByPipeFrom_plain (c : ascii) (rest : string) parts current depth :
  isBrace c || Ascii.eqb c "|" = false ->
  splitByPipeFrom (String c rest) parts current depth
  = splitByPipeFrom rest parts (pushChar current c) depth.
Proof.
  intros Hc. apply orb_false_iff in Hc as [Hbrace Hpipe].
  unfold isBrace in Hbrace. apply orb_false_iff in Hbrace as [Hopen Hclose].
  cbn [splitByPipeFrom]. now rewrite Hopen, Hclose, Hpipe.
Qed.

Lemma splitByPipeFrom_run (x : string) :
  forallChars (fun c => negb (isBrace c || Ascii.eqb c "|")) x = true ->
  forall rest parts current depth,
    splitByPipeFrom (x ++ rest) parts current depth
    = splitByPipeFrom rest parts (current ++ x) depth.
Proof.
  induction x as [|c x IH]; intros Hx rest parts current depth.
  - now rewrite append_nil_r.
  - cbn [forallChars] in Hx. apply andb_true_iff in Hx as [Hc Hx].
    apply negb_true_iff in Hc. cbn [append].
    rewrite splitByPipeFrom_plain, IH by assumption.
    now rewrite pushChar_append.
Qed.

Lemma splitByPipeFrom_pipe (rest : string) parts current :
  splitByPipeFrom (String "|" rest) parts current 0
  = splitByPipeFrom rest (parts ++ [trim current])%list "" 0.
Proof. reflexivity. Qed.

Lemma splitByPipeFrom_transforms (ts : list string) :
  Forall (fun t => forallChars (fun c => negb (isBrace c || Ascii.eqb c "|")) t
                   = true /\ t <> "") ts ->
  forall parts current,
    current <> "" ->
    splitByPipeFrom (concatAll (map (fun t => "|" ++ t) ts)) parts current 0
    = (parts ++ trim current :: map trim ts)%list.
Proof.
  induction 1 as [|t ts [Ht Hne] Hts IH]; intros parts current Hcurrent.
  - cbn [map concatAll splitByPipeFrom]. unfold pushLast.
    destruct (String.eqb_spec current ""); [contradiction | reflexivity].
  - cbn [map concatAll].
    change (("|" ++ t) ++ concatAll (map (fun t0 => "|" ++ t0) ts))
      with (String "|" (t ++ concatAll (map (fun t0 => "|" ++ t0) ts))).
    rewrite splitByPipeFrom_pipe, splitByPipeFrom_run by exact Ht.
    cbn [append]. rewrite IH by exact Hne.
    now rewrite <- app_assoc.
Qed.

(** *** [split] on colons *)

Lemma splitChar_eq (sep c : ascii) (s : string) :
  splitChar sep (String c s)
  = if Ascii.eqb c sep then "" :: splitChar sep s
    else match splitChar sep s with
         | [] => [String c ""]
         | p :: ps => String c p :: ps
         end.
Proof. reflexivity. Qed.

Lemma splitChar_run (sep : ascii) (x rest : string) :
  forallChars (fun c => negb (Ascii.eqb c sep)) x = true ->
  splitChar sep (x ++ rest)
  = match splitChar sep rest with
    | [] => [x]
    | p :: ps => (x ++ p) :: ps
    end.
Proof.
  induction x as [|c x IH]; intros Hx.
  - cbn [append]. destruct (splitChar sep rest) eqn:E; [| reflexivity].
    destruct rest; [discriminate E |]. rewrite splitChar_eq in E.
    destruct (Ascii.eqb a sep); [discriminate E |].
    destruct (splitChar sep rest); discriminate E.
  - cbn [forallChars] in Hx. apply andb_true_iff in Hx as [Hc Hx].
    apply negb_true_iff in Hc. cbn [append].
    rewrite splitChar_eq, Hc, IH by exact Hx.
    now destruct (splitChar sep rest).
Qed.

Lemma splitChar_join (sep : ascii) (l : list string) :
  l <> [] ->
  Forall (fun s => forallChars (fun c => negb (Ascii.eqb c sep)) s = true) l ->
  splitChar sep (join (String sep "") l) = l.
Proof.
  intros Hne Hall. induction Hall as [|x l Hx Hl IH]; [contradiction |].
  destruct l as [|y l].
  - cbn [join]. rewrite <- (append_nil_r x) at 1.
    rewrite splitChar_run by exact Hx. cbn [splitChar]. now rewrite append_nil_r.
  - change (join (String sep "") (x :: y :: l))
      with (x ++ String sep (join (String sep "") (y :: l))).
    rewrite splitChar_run by exact Hx.
    rewrite splitChar_eq, Ascii.eqb_refl, IH by discriminate.
    now rewrite append_nil_r.
Qed.

Lemma endsWith_eq (s p : string) :
  endsWith s p
  = if String.eqb s p then true
    else match s with
         | EmptyString => false
         | String _ s' => endsWith s' p
         end.
Proof. now destruct s. Qed.

Lemma endsWith_app (x p : string) : endsWith (x ++ p) p = true.
Proof.
  induction x as [|c x IH]; cbn [append]; rewrite endsWith_eq.
  - now rewrite String.eqb_refl.
  - now destruct (String.eqb _ _).
Qed.

Lemma segmentOk_parts (s : string) :
  segmentOk s = true ->
  headOk s = true /\ lastOk s = true /\ s <> ""
  /\ plainSegment s = true /\ forallChars innerChar s = true.
Proof.
  unfold segmentOk. intros H.
  apply andb_true_iff in H as [H Hchars]. apply andb_true_iff in H as [Hhead Hlast].
  repeat split; try assumption.
  - intros ->. discriminate Hhead.
  - revert Hchars. apply forallChars_impl. intros c Hc.
    apply negb_true_iff in Hc. apply negb_true_iff.
    now destruct (isBrace c), (Ascii.eqb c "\").
  - revert Hchars. apply forallChars_impl. intros c Hc.
    apply negb_true_iff in Hc. apply negb_true_iff.
    now destruct (isBrace c), (Ascii.eqb c "\"), (Ascii.eqb c "|").
Qed.

Lemma wordOk_parts (s : string) :
  wordOk s = true ->
  segmentOk s = true
  /\ forallChars (fun c => negb (Ascii.eqb c ":")) s = true.
Proof. unfold wordOk. intros H. now apply andb_true_iff in H. Qed.

Lemma innerChar_pipeFree (s : string) :
  forallChars innerChar s = true ->
  forallChars (fun c => negb (isBrace c || Ascii.eqb c "|")) s = true.
Proof.
  apply forallChars_impl. intros c Hc. apply negb_true_iff in Hc.
  apply negb_true_iff. now destruct (isBrace c), (Ascii.eqb c "|").
Qed.

Lemma innerChar_lineFree (s : string) :
  forallChars innerChar s = true ->
  forallChars (fun c => negb (isLineTerminator c)) s = true.
Proof.
  apply forallChars_impl. intros c Hc. apply negb_true_iff in Hc.
  apply negb_true_iff.
  now destruct (isBrace c), (Ascii.eqb c "|"), (isLineTerminator c).
Qed.

(** The main part of a rendered token: what it looks like and how
    [splitByColon] reads it. *)
Lemma rendered_main_part (segs : list string) :
  segs <> [] ->
  forallb segmentOk segs = true ->
  headOk (join ":" (map escapeColons segs)) = true
  /\ lastOk (join ":" (map escapeColons segs)) = true
  /\ forallChars innerChar (join ":" (map escapeColons segs)) = true
  /\ splitByColon (join ":" (map escapeColons segs)) = segs.
Proof.
  intros Hne Hall. rewrite forallb_forall in Hall.
  assert (Hparts : Forall (fun s => segmentOk s = true) segs)
    by (apply Forall_forall; exact Hall).
  repeat split.
  - destruct segs as [|s segs]; [contradiction |]. cbn [map].
    apply headOk_join, headOk_escapeColons.
    now apply segmentOk_parts, Hall; left.
  - apply lastOk_join; [now destruct segs |].
    apply Forall_map. revert Hparts. apply Forall_impl. intros s Hs.
    now apply lastOk_escapeColons, segmentOk_parts.
  - apply forallChars_join; [reflexivity |].
    apply Forall_map. revert Hparts. apply Forall_impl. intros s Hs.
    apply forallChars_escapeColons; [reflexivity.. |].
    now apply segmentOk_parts.
  - destruct (exists_last Hne) as [front [last Heq]]. subst segs.
    apply Forall_app in Hparts as [Hfront Hlast].
    inversion Hlast as [|? ? Hl _]; subst.
    unfold splitByColon. rewrite splitByColonFrom_escaped_segments.
    + cbn [app]. rewrite <- (map_id (front ++ [last])%list) at 2.
      apply map_ext_in. intros s Hs. apply trim_fixed.
      * now apply segmentOk_parts, Hall.
      * now apply segmentOk_parts, Hall.
    + revert Hfront. apply Forall_impl. intros s Hs.
      now apply segmentOk_parts.
    + now apply segmentOk_parts.
    + now apply segmentOk_parts.
Qed.

(** A rendered transform: what it looks like and how [parseTransform] reads
    it. *)
Lemma rendered_transform (t : ParsedTransform) :
  transformOk t = true ->
  trim (join ":" (name t :: params t)) = join ":" (name t :: params t)
  /\ join ":" (name t :: params t) <> ""
  /\ forallChars innerChar (join ":" (name t :: params t)) = true
  /\ parseTransform (join ":" (name t :: params t)) = t.
Proof.
  destruct t as [name0 params0]. unfold transformOk.
  cbn [name params]. intros H.
  assert (Hall : forallb wordOk (name0 :: params0) = true) by exact H.
  rewrite forallb_forall in Hall.
  assert (Hwords : Forall (fun s => wordOk s = true) (name0 :: params0))
    by (apply Forall_forall; exact Hall).
  assert (Hsegs : Forall (fun s => segmentOk s = true) (name0 :: params0)).
  { revert Hwords. apply Forall_impl. intros s Hs. now apply wordOk_parts. }
  assert (Hhead : headOk (join ":" (name0 :: params0)) = true).
  { apply headOk_join. inversion Hsegs; subst. now apply segmentOk_parts. }
  repeat split.
  - apply trim_fixed; [exact Hhead |].
    apply lastOk_join; [discriminate |].
    revert Hsegs. apply Forall_impl. intros s Hs. now apply segmentOk_parts.
  - intros Hempty. rewrite Hempty in Hhead. discriminate Hhead.
  - apply forallChars_join; [reflexivity |].
    revert Hsegs. apply Forall_impl. intros s Hs. now apply segmentOk_parts.
  - unfold parseTransform.
    rewrite (splitChar_join ":" (name0 :: params0)); [| discriminate |].
    + assert (Htrim : map trim (name0 :: params0) = name0 :: params0).
      { rewrite <- (map_id (name0 :: params0)) at 2.
        apply map_ext_in. intros s Hs.
        apply trim_fixed; now apply segmentOk_parts, wordOk_parts, Hall. }
      now rewrite Htrim.
    + revert Hwords. apply Forall_impl. intros s Hs. now apply wordOk_parts.
Qed.

Lemma parse_render (orig m a : string) (args0 : list string)
      (ts : list ParsedTransform) :
  forallb segmentOk (m :: a :: args0) = true ->
  forallb transformOk ts = true ->
  orig = render {| original := orig; module := m; action := a; args := args0;
                   transforms := ts |} ->
  parse orig
  = OK {| original := orig; module := m; action := a; args := args0;
          transforms := ts |}.
Proof.
  intros Hsegs Hts Horig.
  destruct (rendered_main_part (m :: a :: args0)) as (Hhead & Hlast & Hchars & Hsplit);
    [discriminate | exact Hsegs |].
  rewrite forallb_forall in Hts.
  set (main := join ":" (map escapeColons (m :: a :: args0))) in *.
  set (parts := map (fun t => join ":" (name t :: params t)) ts).
  assert (Hparts : Forall (fun t => forallChars innerChar t = true /\ t <> ""
                                    /\ trim t = t) parts).
  { apply Forall_map, Forall_forall. intros t Ht.
    destruct (rendered_transform t (Hts t Ht)) as (Htrim & Hne & Hinner & _).
    now repeat split. }
  set (inner := main ++ concatAll (map (fun t => "|" ++ t) parts)).
  assert (Hrender : orig = "{{" ++ inner ++ "}}").
  { rewrite Horig at 1. unfold render, inner, parts, renderTransform.
    cbn [module action args transforms original]. fold main.
    rewrite map_map, !append_assoc. reflexivity. }
  assert (Hinner : forallChars (fun c => negb (isLineTerminator c)) inner = true).
  { unfold inner. rewrite forallChars_app, (innerChar_lineFree main Hchars).
    apply forallChars_concatAll, Forall_map.
    revert Hparts. apply Forall_impl. intros t (Ht & _ & _).
    cbn [append forallChars]. now apply innerChar_lineFree. }
  assert (Hnonempty : inner <> "").
  { unfold inner. intros Hempty. apply append_eq_nil in Hempty as [Hempty _].
    rewrite Hempty in Hhead. discriminate Hhead. }
  assert (Htrim : trim orig = orig).
  { rewrite Hrender. apply trim_fixed; [reflexivity |].
    rewrite <- append_assoc. now apply lastOk_app. }
  assert (Hplaceholder : isPlaceholder orig = true).
  { unfold isPlaceholder. rewrite Htrim. cbv zeta.
    rewrite Hrender at 4. rewrite slice_interior.
    rewrite Hinner, andb_true_r.
    rewrite Hrender. unfold startsWith. rewrite prefix_app.
    rewrite <- append_assoc, endsWith_app, !len_append.
    change (len "{{") with 2. change (len "}}") with 2.
    assert (0 < len inner).
    { unfold len. destruct inner; [contradiction | cbn [String.length]; lia]. }
    cbn [andb]. apply Z.leb_le. lia. }
  unfold parse. cbv zeta. rewrite Htrim, Hplaceholder. cbn [negb].
  rewrite Hrender at 1. rewrite slice_interior.
  assert (Hpipes : splitByPipe inner = main :: parts).
  { unfold splitByPipe, inner.
    rewrite splitByPipeFrom_run by now apply innerChar_pipeFree.
    cbn [append]. rewrite splitByPipeFrom_transforms.
    - cbn [app]. rewrite (trim_fixed main) by assumption. f_equal.
      rewrite <- (map_id parts) at 2. apply map_ext_in. intros t Ht.
      rewrite Forall_forall in Hparts. now apply Hparts.
    - revert Hparts. apply Forall_impl. intros t (Ht & Hne & _).
      split; [now apply innerChar_pipeFree | exact Hne].
    - intros Hempty. rewrite Hempty in Hhead. discriminate Hhead. }
  rewrite Hpipes. unfold parseMainPart. rewrite Hsplit. cbn [bind].
  assert (Hfixed : forall s, In s (m :: a :: args0) -> trim s = s).
  { rewrite forallb_forall in Hsegs. intros s Hs.
    apply trim_fixed; now apply segmentOk_parts, Hsegs. }
  rewrite (Hfixed m), (Hfixed a) by (cbn [In]; tauto).
  assert (Hargs : map trim args0 = args0).
  { rewrite <- (map_id args0) at 2. apply map_ext_in. intros s Hs.
    apply Hfixed. now right; right. }
  rewrite Hargs. do 2 f_equal.
  unfold parts. rewrite map_map. rewrite <- (map_id ts) at 2.
  apply map_ext_in. intros t Ht. now apply rendered_transform, Hts.
Qed.

(** X18.  Round trip of the parser: a placeholder whose segments are well
    formed (not empty, no white space at either end, no brace, backslash,
    pipe or line terminator; no colon in a transform name or parameter)
    and whose [original] is its rendering parses back from that rendering
    to itself. *)
Theorem parse_of_render (p : ParsedPlaceholder) :
  placeholderOk p = true -> parse (render p) = OK p.
Proof.
  destruct p as [orig m a args0 ts]. unfold placeholderOk. intros H.
  apply andb_true_iff in H as [H Hts]. apply andb_true_iff in H as [Horig Hsegs].
  cbn [original module action args transforms] in *.
  apply String.eqb_eq in Horig. rewrite <- Horig at 1.
  now apply parse_render.
Qed.

Lemma parse_of_render_witness :
  parse "{{time:calc:0:HH\:mm\:ss|toString:x y|toNumber}}"
  = OK {| original := "{{time:calc:0:HH\:mm\:ss|toString:x y|toNumber}}";
          module := "time";
          action := "calc";
          args := ["0"; "HH:mm:ss"];
          transforms := [ {| name := "toString"; params := ["x y"] |};
                          {| name := "toNumber"; params := [] |} ] |}.
Proof.
  apply (parse_of_render
           {| original := "{{time:calc:0:HH\:mm\:ss|toString:x y|toNumber}}";
              module := "time";
              action := "calc";
              args := ["0"; "HH:mm:ss"];
              transforms := [ {| name := "toString"; params := ["x y"] |};
                              {| name := "toNumber"; params := [] |} ] |}).
  reflexivity.
Defined.

(** ** Numbers and their decimal strings *)

Lemma digitChar_spec (d : nat) :
  (d < 10)%nat ->
  isDigit (digitChar d) = true /\ nat_of_ascii (digitChar d) = (48 + d)%nat.
Proof.
  intros H. do 10 (destruct d as [|d]; [now split |]). lia.
Qed.

Lemma digitsValue_app (s t : string) :
  forallChars isDigit s = true ->
  forall a, digitsValue (s ++ t) a = digitsValue t (digitsValue s a).
Proof.
  induction s as [|c s IH]; intros Hs a; [reflexivity |].
  cbn [forallChars] in Hs. apply andb_true_iff in Hs as [Hc Hs].
  cbn [append digitsValue]. rewrite Hc. now apply IH.
Qed.

Lemma digitsValue_digits (s : string) :
  forallChars isDigit s = true -> forall a, 0 <= a -> 0 <= digitsValue s a.
Proof.
  induction s as [|c s IH]; intros Hs a Ha; [exact Ha |].
  cbn [forallChars] in Hs. apply andb_true_iff in Hs as [Hc Hs].
  cbn [digitsValue]. rewrite Hc. apply IH; [exact Hs | lia].
Qed.

(** The digits [zDigits] puts in front of [acc] read back as [z]. *)
Lemma zDigits_spec (fuel : nat) :
  forall z acc,
    (0 < fuel)%nat ->
    0 <= z < 10 ^ Z.of_nat fuel ->
    exists s,
      zDigits fuel z acc = s ++ acc
      /\ forallChars isDigit s = true
      /\ s <> ""
      /\ forall a, digitsValue s a = a * 10 ^ len s + z.
Proof.
  induction fuel as [|fuel IH]; intros z acc Hfuel Hz; [lia |].
  - cbn [zDigits]. cbv zeta.
    assert (Hmod : 0 <= z mod 10 < 10) by (apply Z.mod_pos_bound; lia).
    destruct (digitChar_spec (Z.to_nat (z mod 10))) as [Hdigit Hcode]; [lia |].
    destruct (Z.ltb_spec z 10) as [Hsmall | Hbig].
    + exists (String (digitChar (Z.to_nat (z mod 10))) "").
      repeat split.
      * cbn [forallChars]. now rewrite Hdigit.
      * discriminate.
      * intros a. cbn [digitsValue]. rewrite Hdigit, Hcode.
        change (len (String (digitChar (Z.to_nat (z mod 10))) "")) with 1.
        rewrite Z.mod_small in * by lia. lia.
    + destruct (IH (z / 10)
                   (String (digitChar (Z.to_nat (z mod 10))) acc))
        as (s & Heq & Hs & Hne & Hvalue).
      { destruct fuel; [| lia]. change (10 ^ Z.of_nat 1) with 10 in Hz. lia. }
      { split; [apply Z.div_pos; lia |].
        apply Z.div_lt_upper_bound; [lia |].
        replace (Z.of_nat (S fuel)) with (Z.of_nat fuel + 1) in Hz by lia.
        rewrite Z.pow_add_r in Hz by lia. lia. }
      exists (s ++ String (digitChar (Z.to_nat (z mod 10))) "").
      repeat split.
      * rewrite Heq, append_assoc. reflexivity.
      * rewrite forallChars_app, Hs. cbn [forallChars]. now rewrite Hdigit.
      * intros Hempty. now apply append_eq_nil in Hempty as [_ Hempty].
      * intros a. rewrite digitsValue_app by exact Hs.
        cbn [digitsValue]. rewrite Hdigit, Hcode, Hvalue, len_append.
        change (len (String (digitChar (Z.to_nat (z mod 10))) "")) with 1.
        rewrite Z.pow_add_r by (pose proof (len_nonneg s); lia).
        pose proof (Z.div_mod z 10). lia.
Qed.

Lemma ofZ_nonneg (z : Z) :
  0 <= z ->
  forallChars isDigit (ofZ z) = true /\ ofZ z <> ""
  /\ digitsValue (ofZ z) 0 = z.
Proof.
  intros Hz. unfold ofZ. cbv zeta.
  replace (z <? 0) with false by (symmetry; apply Z.ltb_ge; lia).
  destruct (zDigits_spec (S (Z.to_nat (Z.log2 z))) z "")
    as (s & Heq & Hs & Hne & Hvalue).
  { lia. }
  { split; [exact Hz |]. pose proof (Z.log2_nonneg z) as Hlog.
    replace (Z.of_nat (S (Z.to_nat (Z.log2 z)))) with (Z.log2 z + 1) by lia.
    destruct (Z.eq_dec z 0) as [-> | Hpos]; [reflexivity |].
    destruct (Z.log2_spec z) as [_ Hupper]; [lia |].
    replace (Z.succ (Z.log2 z)) with (Z.log2 z + 1) in Hupper by lia.
    apply (Z.lt_le_trans _ _ _ Hupper).
    apply Z.pow_le_mono_l. lia. }
  rewrite Heq, append_nil_r. repeat split; [exact Hs | exact Hne |].
  rewrite Hvalue. lia.
Qed.

Lemma isDigit_plain (c : ascii) :
  isDigit c = true ->
  isWhiteSpace c = false /\ Ascii.eqb c "-" = false /\ Ascii.eqb c "+" = false
  /\ Ascii.eqb c ":" = false /\ Ascii.eqb c "$" = false
  /\ isBrace c = false /\ innerChar c = true /\ Ascii.eqb c "\" = false.
Proof.
  destruct c as [[|] [|] [|] [|] [|] [|] [|] [|]]; vm_compute;
    intros H; try discriminate H; now repeat split.
Qed.

Lemma digits_headOk (s : string) :
  forallChars isDigit s = true -> s <> "" ->
  headOk s = true /\ lastOk s = true.
Proof.
  intros Hs Hne. split.
  - destruct s as [|c s]; [contradiction |]. cbn [forallChars] in Hs.
    apply andb_true_iff in Hs as [Hc _]. cbn [headOk].
    apply isDigit_plain in Hc as (Hws & _). now rewrite Hws.
  - induction s as [|c s IH]; [contradiction |]. cbn [forallChars] in Hs.
    apply andb_true_iff in Hs as [Hc Hs].
    destruct s as [|d s].
    + cbn [lastOk]. apply isDigit_plain in Hc as (Hws & _). now rewrite Hws.
    + apply IH; [exact Hs | discriminate].
Qed.

(** [Number(String(z))] is [z]. *)
Lemma toNumber_ofZ (z : Z) : toNumber (ofZ z) = Some z.
Proof.
  destruct (Z.ltb_spec z 0) as [Hneg | Hpos].
  - destruct (ofZ_nonneg (- z)) as (Hs & Hne & Hvalue); [lia |].
    destruct (digits_headOk _ Hs Hne) as [_ Hlast].
    assert (Hform : ofZ z = String "-" (ofZ (- z))).
    { unfold ofZ. cbv zeta.
      replace (z <? 0) with true by (symmetry; apply Z.ltb_lt; lia).
      replace (- z <? 0) with false by (symmetry; apply Z.ltb_ge; lia).
      reflexivity. }
    unfold toNumber. rewrite Hform, trim_fixed.
    + cbn [Ascii.eqb Bool.eqb orb]. rewrite Hs. cbn [andb].
      destruct (String.eqb_spec (ofZ (- z)) ""); [contradiction |].
      cbn [negb]. rewrite Hvalue. f_equal. lia.
    + reflexivity.
    + change (String "-" (ofZ (- z))) with ("-" ++ ofZ (- z)).
      now apply lastOk_app.
  - destruct (ofZ_nonneg z Hpos) as (Hs & Hne & Hvalue).
    destruct (digits_headOk _ Hs Hne) as [Hhead Hlast].
    unfold toNumber. rewrite trim_fixed by assumption.
    destruct (ofZ z) as [|c t] eqn:E; [contradiction |].
    pose proof Hs as Hall. cbn [forallChars] in Hs.
    apply andb_true_iff in Hs as [Hc _].
    apply isDigit_plain in Hc as (_ & Hminus & Hplus & _).
    rewrite Hminus, Hplus. cbn [orb]. rewrite Hall. now rewrite Hvalue.
Qed.

Lemma ofZ_chars (z : Z) :
  forallChars (fun c => isDigit c || Ascii.eqb c "-") (ofZ z) = true.
Proof.
  assert (Hdigits : forall s, forallChars isDigit s = true ->
                              forallChars (fun c => isDigit c || Ascii.eqb c "-") s
                              = true).
  { intros s. apply forallChars_impl. intros c Hc. now rewrite Hc. }
  destruct (Z.ltb_spec z 0) as [Hneg | Hpos].
  - destruct (ofZ_nonneg (- z)) as (Hs & _ & _); [lia |].
    assert (Hform : ofZ z = String "-" (ofZ (- z))).
    { unfold ofZ. cbv zeta.
      replace (z <? 0) with true by (symmetry; apply Z.ltb_lt; lia).
      replace (- z <? 0) with false by (symmetry; apply Z.ltb_ge; lia).
      reflexivity. }
    rewrite Hform. cbn [forallChars]. now rewrite Hdigits.
  - now apply Hdigits, ofZ_nonneg.
Qed.

Lemma ofZ_braceFree (z : Z) : braceFree (ofZ z) = true /\ noDollar (ofZ z) = true.
Proof.
  split; generalize (ofZ_chars z); apply forallChars_impl; intros c;
    destruct c as [[|] [|] [|] [|] [|] [|] [|] [|]]; vm_compute; congruence.
Qed.

(** X19.  Converting a number to a string and back gives the number again:
    for a safe integer (magnitude below 2^53, where the integers of the
    embedding are the numbers of the code), [toString] turns a number
    result into the string of its decimal digits, and [toNumber] turns that
    string into the number. *)
Theorem number_survives_toString_toNumber (jsonStringify : JsonValue -> string)
        (n : Z) (params1 params2 : list string) :
  safeInteger n = true ->
  ToStringTransform.applyTo jsonStringify
    {| value := JNumber n; type := TNumber |} params1
  = OK {| value := JString (ofZ n); type := TString |}
  /\ ToNumberTransform.applyTo
       {| value := JString (ofZ n); type := TString |} params2
     = OK {| value := JNumber n; type := TNumber |}.
Proof.
  intros Hsafe. split; [reflexivity |].
  unfold ToNumberTransform.applyTo. cbn [type value bind].
  now rewrite toNumber_ofZ.
Qed.

Lemma number_survives_toString_toNumber_witness :
  ToNumberTransform.applyTo {| value := JString "-4837"; type := TString |} []
  = OK {| value := JNumber (-4837); type := TNumber |}.
Proof.
  destruct (number_survives_toString_toNumber (fun _ => "") (-4837) [] [])
    as [_ H]; [reflexivity | exact H].
Defined.

(** ** A leaf that is one flat token *)

Lemma trim_token (b : string) : trim (tokenOf b) = tokenOf b.
Proof.
  apply trim_fixed; [reflexivity |]. unfold tokenOf.
  rewrite <- append_assoc. now apply lastOk_app.
Qed.

Lemma isPlaceholder_token (b : string) :
  isPlaceholder (tokenOf b)
  = negb (String.eqb b "")
    && forallChars (fun c => negb (isLineTerminator c)) b.
Proof.
  unfold isPlaceholder. rewrite trim_token. cbv zeta.
  unfold tokenOf at 4. rewrite slice_interior.
  unfold startsWith. unfold tokenOf at 1. rewrite prefix_app.
  unfold tokenOf at 1. rewrite <- append_assoc, endsWith_app.
  unfold tokenOf. rewrite !len_append.
  change (len "{{") with 2. change (len "}}") with 2. cbn [andb].
  destruct b as [|c b]; [reflexivity |].
  replace (5 <=? 2 + (len (String c b) + 2)) with true; [reflexivity |].
  symmetry. apply Z.leb_le. unfold len. cbn [String.length]. lia.
Qed.

Lemma findPlaceholders_token (b : string) :
  braceFree b = true -> findPlaceholders (tokenOf b) = [tokenOf b].
Proof.
  intros Hb.
  pose proof (findPlaceholders_fill "" [(b, "")]) as H.
  unfold fill in H. cbn [fillWith append map fst] in H.
  rewrite append_nil_r in H. rewrite H; [reflexivity | reflexivity |].
  unfold flatPieces. cbn [forallb fst snd]. now rewrite Hb.
Qed.

Lemma parse_token_invalid (b : string) :
  isPlaceholder (tokenOf b) = false ->
  parse (tokenOf b) = Err ("Invalid placeholder format: " ++ tokenOf b).
Proof.
  intros H. unfold parse. cbv zeta. now rewrite trim_token, H.
Qed.

Lemma pure_token_leaf registry options path (b : string) :
  braceFree b = true ->
  isPlaceholder (tokenOf b) = true ->
  JsonProcessor.processStringValue registry options (tokenOf b) path
  = JsonProcessor.resolvePlaceholder registry options (tokenOf b) path.
Proof.
  intros Hb Hpure. unfold JsonProcessor.processStringValue. cbv zeta.
  rewrite findPlaceholders_token by exact Hb. now rewrite Hpure.
Qed.

(** X20.  A JSON string leaf that is exactly one flat token with a body
    that is not empty and holds no line terminator becomes what resolving
    the token gives, with the type of that value: no pass of the
    substitution loop is made and nothing is turned into a string. *)
Theorem pure_flat_leaf_keeps_type registry options path (b : string) :
  braceFree b = true ->
  b <> "" ->
  forallChars (fun c => negb (isLineTerminator c)) b = true ->
  JsonProcessor.processStringValue registry options (tokenOf b) path
  = JsonProcessor.resolvePlaceholder registry options (tokenOf b) path.
Proof.
  intros Hb Hne Hline. apply pure_token_leaf; [exact Hb |].
  rewrite isPlaceholder_token, Hline.
  now destruct (String.eqb_spec b "").
Qed.

Lemma pure_flat_leaf_keeps_type_witness :
  JsonProcessor.processStringValue mockRegistry defaultOptions
    "{{mock:number:42}}" ["count"]
  = OK (JNumber 42).
Proof.
  refine (eq_trans (pure_flat_leaf_keeps_type mockRegistry defaultOptions
                      ["count"] "mock:number:42" _ _ _) _);
    [reflexivity | discriminate | reflexivity | reflexivity].
Defined.

(** X21.  A flat token with an empty body or with a line terminator in its
    body is found by the scanner but is no placeholder for the parser: a
    JSON leaf or a text that is exactly such a token fails with the
    message of the parser, wrapped by the processor. *)
Theorem malformed_token_fails registry options path (b : string) :
  braceFree b = true ->
  b = "" \/ forallChars (fun c => negb (isLineTerminator c)) b = false ->
  findPlaceholders (tokenOf b) = [tokenOf b]
  /\ JsonProcessor.processStringValue registry options (tokenOf b) path
     = Err (JsonProcessor.failure (tokenOf b) (join "." path)
              ("Invalid placeholder format: " ++ tokenOf b))
  /\ TextProcessor.process registry options (tokenOf b)
     = Err (TextProcessor.failure (tokenOf b)
              ("Invalid placeholder format: " ++ tokenOf b)).
Proof.
  intros Hb Hbad.
  assert (Hpure : isPlaceholder (tokenOf b) = false).
  { rewrite isPlaceholder_token. destruct Hbad as [-> | ->]; [reflexivity |].
    apply andb_false_r. }
  pose proof (parse_token_invalid b Hpure) as Hparse.
  pose proof (findPlaceholders_token b Hb) as Hfind.
  split; [exact Hfind |]. split.
  - unfold JsonProcessor.processStringValue. cbv zeta.
    rewrite Hfind, Hpure. cbn [andb]. unfold JsonProcessor.maxIterations.
    rewrite json_loop_step.
    replace (String.eqb (tokenOf b) "") with false by reflexivity.
    rewrite Hfind. cbv iota beta. unfold JsonProcessor.pass. cbn [fst].
    change (JsonProcessor.sortPlaceholdersByPosition (tokenOf b) [tokenOf b])
      with [tokenOf b].
    cbn [foldM]. unfold JsonProcessor.passStep, JsonProcessor.containsOthers.
    cbn [existsb]. rewrite String.eqb_refl. cbn [negb andb orb].
    unfold JsonProcessor.resolveAndReplace, JsonProcessor.resolvePlaceholder,
      tryResolve.
    rewrite Hparse. reflexivity.
  - unfold TextProcessor.process, TextProcessor.maxIterations.
    rewrite text_loop_step.
    replace (String.eqb (tokenOf b) "") with false by reflexivity.
    rewrite Hfind. cbv iota beta. cbn [foldM].
    unfold TextProcessor.replaceOne, TextProcessor.resolvePlaceholder.
    rewrite Hparse. reflexivity.
Qed.

Lemma malformed_token_fails_witness :
  JsonProcessor.processStringValue mockRegistry defaultOptions "{{}}" ["id"]
  = Err (JsonProcessor.failure "{{}}" "id" "Invalid placeholder format: {{}}").
Proof.
  destruct (malformed_token_fails mockRegistry defaultOptions ["id"] "")
    as [_ [H _]]; [reflexivity | now left | exact H].
Defined.

(** ** A generated number, end to end *)

Lemma takeDigits_digits (s : string) :
  forallChars isDigit s = true -> takeDigits s = s.
Proof.
  induction s as [|c s IH]; [easy |]. cbn [forallChars takeDigits].
  intros H. apply andb_true_iff in H as [Hc Hs]. now rewrite Hc, IH.
Qed.

Lemma parseFloat_digits (s : string) :
  forallChars isDigit s = true -> s <> "" ->
  parseFloat s = Some (digitsValue s 0).
Proof.
  intros Hs Hne. unfold parseFloat.
  destruct s as [|c t]; [contradiction |].
  pose proof Hs as Hall. cbn [forallChars] in Hs.
  apply andb_true_iff in Hs as [Hc _].
  apply isDigit_plain in Hc as (Hws & Hminus & Hplus & _).
  cbn [trimStart]. rewrite Hws, Hminus, Hplus.
  now rewrite (takeDigits_digits _ Hall).
Qed.

Lemma escapeColons_plain (s : string) :
  forallChars (fun c => negb (Ascii.eqb c ":")) s = true -> escapeColons s = s.
Proof.
  induction s as [|c s IH]; [easy |]. cbn [forallChars escapeColons].
  intros H. apply andb_true_iff in H as [Hc Hs]. apply negb_true_iff in Hc.
  now rewrite Hc, IH.
Qed.

Lemma digits_segmentOk (s : string) :
  forallChars isDigit s = true -> s <> "" ->
  segmentOk s = true /\ escapeColons s = s.
Proof.
  intros Hs Hne. destruct (digits_headOk s Hs Hne) as [Hhead Hlast]. split.
  - unfold segmentOk. rewrite Hhead, Hlast. cbn [andb].
    revert Hs. apply forallChars_impl. intros c Hc.
    destruct c as [[|] [|] [|] [|] [|] [|] [|] [|]]; vm_compute in Hc |- *;
      congruence.
  - apply escapeColons_plain. revert Hs. apply forallChars_impl.
    intros c Hc. apply isDigit_plain in Hc as (_ & _ & _ & Hcolon & _).
    now rewrite Hcolon.
Qed.

(** X22.  With the generator plugin registered as [gen] and not filtered
    out, the token [{{gen:number:DIGITS}}] (or [zugnummer]), for digits that
    denote a safe integer (below 2^53), draws no random value: as a JSON
    leaf it becomes the number the digits denote, and as a text it becomes
    the decimal string of that number, so leading zeros are dropped. *)
Theorem generated_number_end_to_end registry options path random
        (act ds : string) :
  PluginRegistry.getPlugin registry "gen" = OK (GeneratorPlugin.plugin random) ->
  notIncluded options "gen" = false ->
  excluded options "gen" = false ->
  act = "number" \/ act = "zugnummer" ->
  forallChars isDigit ds = true ->
  ds <> "" ->
  safeInteger (digitsValue ds 0) = true ->
  JsonProcessor.processStringValue registry options
    (tokenOf ("gen:" ++ act ++ ":" ++ ds)) path
  = OK (JNumber (digitsValue ds 0))
  /\ TextProcessor.process registry options
       (tokenOf ("gen:" ++ act ++ ":" ++ ds))
     = OK (ofZ (digitsValue ds 0)).
Proof.
  intros Hplugin Hincluded Hexcluded Hact Hds Hne Hsafe.
  destruct (digits_segmentOk ds Hds Hne) as [Hsegment Hescape].
  set (token := tokenOf ("gen:" ++ act ++ ":" ++ ds)).
  assert (Hparse : parse token
                   = OK {| original := token; module := "gen"; action := act;
                           args := [ds]; transforms := [] |}).
  { apply parse_render.
    - cbn [forallb]. rewrite Hsegment.
      now destruct Hact as [-> | ->].
    - reflexivity.
    - unfold render, token, tokenOf.
      cbn [module action args transforms map concatAll join].
      rewrite Hescape.
      destruct Hact as [-> | ->]; cbn [escapeColons Ascii.eqb Bool.eqb append];
        now rewrite ?append_nil_r. }
  assert (Hresolve : tryResolve registry options token
                     = OK (JNumber (digitsValue ds 0))).
  { unfold tryResolve. rewrite Hparse. cbn [bind module].
    rewrite Hincluded, Hexcluded. unfold resolveWithPlugin. cbn [module].
    rewrite Hplugin. cbn [bind resolve GeneratorPlugin.plugin].
    unfold GeneratorPlugin.resolveRequest. cbn [placeholder action args].
    cbv zeta.
    assert (Hnumber : GeneratorPlugin.handleNumber random [ds]
                      = OK {| value := JNumber (digitsValue ds 0);
                              type := TNumber |}).
    { unfold GeneratorPlugin.handleNumber, GeneratorPlugin.firstArg.
      destruct (String.eqb_spec ds ""); [contradiction |].
      now rewrite parseFloat_digits. }
    destruct Hact as [-> | ->]; cbn [String.eqb Ascii.eqb Bool.eqb orb];
      rewrite Hnumber; reflexivity. }
  assert (Hbody : braceFree ("gen:" ++ act ++ ":" ++ ds) = true).
  { assert (Hfree : braceFree ds = true).
    { revert Hds. apply forallChars_impl. intros c Hc.
      apply isDigit_plain in Hc as (_ & _ & _ & _ & _ & Hbrace & _).
      now rewrite Hbrace. }
    destruct Hact as [-> | ->]; rewrite !braceFree_app, Hfree; reflexivity. }
  split.
  - unfold token. rewrite pure_token_leaf; [| exact Hbody |].
    + unfold JsonProcessor.resolvePlaceholder. fold token. now rewrite Hresolve.
    + fold token. unfold parse in Hparse. cbv zeta in Hparse.
      unfold token in Hparse at 1 2. rewrite trim_token in Hparse.
      fold token in Hparse.
      destruct (isPlaceholder token); [reflexivity | discriminate Hparse].
  - fold token in Hbody. unfold token in Hbody.
    remember ("gen:" ++ act ++ ":" ++ ds) as body eqn:Ebody.
    pose proof (text_process_pieces registry options
                  (fun _ => ofZ (digitsValue ds 0)) "" [(body, "")]) as Htext.
    unfold fill in Htext. cbn [fillWith append] in Htext.
    rewrite !append_nil_r in Htext. apply Htext.
    + reflexivity.
    + unfold flatPieces. cbn [forallb fst snd]. now rewrite Hbody.
    + repeat constructor. now intros [].
    + intros b' [<- | []]. subst body. cbn [fst]. fold token.
      split; [| apply ofZ_braceFree].
      unfold TextProcessor.resolvePlaceholder.
      unfold tryResolve in Hresolve. rewrite Hparse in *.
      cbn [bind module] in *. rewrite Hincluded, Hexcluded in *.
      destruct (resolveWithPlugin registry options _) as [r | e];
        cbn [bind] in *; [| discriminate Hresolve].
      injection Hresolve as Hvalue. now rewrite Hvalue.
Qed.

Lemma generated_number_end_to_end_witness :
  TextProcessor.process exampleRegistry defaultOptions "{{gen:zugnummer:004837}}"
  = OK "4837".
Proof.
  destruct (generated_number_end_to_end exampleRegistry defaultOptions []
              {| GeneratorPlugin.randomUuid := "00000000-0000-4000-8000-000000000000";
                 GeneratorPlugin.randomNumber := 0;
                 GeneratorPlugin.randomString := "AAAAAAAA";
                 GeneratorPlugin.randomBoolean := false |}
              "zugnummer" "004837") as [_ H];
    [reflexivity | reflexivity | reflexivity | now right | reflexivity
     | discriminate | reflexivity | exact H].
Defined.

(** ** Arrays and objects, element by element *)

Lemma eachItem_elementwise registry options (path : list string)
      (items : list JsonValue) :
  forall i processed r,
    JsonProcessor.eachItem (JsonProcessor.processNode registry options) path
                           items i processed = OK r ->
    exists items',
      r = (processed ++ items')%list
      /\ List.length items' = List.length items
      /\ forall k item,
          nth_error items k = Some item ->
          exists item',
            nth_error items' k = Some item'
            /\ JsonProcessor.processNode registry options item
                 (path ++ [JsonProcessor.indexKey (i + k)])%list = OK item'.
Proof.
  induction items as [|item items IH]; intros i processed r Hr.
  - cbn [JsonProcessor.eachItem] in Hr. injection Hr as <-. exists [].
    rewrite app_nil_r. repeat split. intros [|k] item' H; discriminate H.
  - cbn [JsonProcessor.eachItem] in Hr.
    destruct (JsonProcessor.processNode registry options item
                (path ++ [JsonProcessor.indexKey i])%list) as [v | e] eqn:Hitem;
      cbn [bind] in Hr; [| discriminate Hr].
    destruct (IH _ _ _ Hr) as (items' & -> & Hlen & Hnth).
    exists (v :: items'). rewrite <- app_assoc. repeat split.
    + cbn [List.length]. now rewrite Hlen.
    + intros [|k] item0 Hk.
      * injection Hk as <-. exists v. split; [reflexivity |].
        now rewrite Nat.add_0_r.
      * destruct (Hnth k item0 Hk) as (item' & Hk' & Hitem').
        exists item'. split; [exact Hk' |].
        now replace (i + S k)%nat with (S i + k)%nat by lia.
Qed.

(** X23.  When processing an array succeeds, the result is an array of the
    same length whose element at each index is the result of processing
    the element at that index, under the path extended by that index in
    square brackets. *)
Theorem array_is_processed_elementwise registry options (path : list string)
        (items : list JsonValue) (r : JsonValue) :
  JsonProcessor.processNode registry options (JArray items) path = OK r ->
  exists items',
    r = JArray items'
    /\ List.length items' = List.length items
    /\ forall k item,
        nth_error items k = Some item ->
        exists item',
          nth_error items' k = Some item'
          /\ JsonProcessor.processNode registry options item
               (path ++ [JsonProcessor.indexKey k])%list = OK item'.
Proof.
  intros Hr. cbn [JsonProcessor.processNode] in Hr.
  destruct (JsonProcessor.eachItem (JsonProcessor.processNode registry options)
              path items 0 []) as [processed | e] eqn:Heach;
    cbn [bind] in Hr; [| discriminate Hr].
  injection Hr as <-.
  destruct (eachItem_elementwise registry options path items _ _ _ Heach)
    as (items' & -> & Hlen & Hnth).
  exists items'. repeat split; [exact Hlen |]. exact Hnth.
Qed.

Lemma array_is_processed_elementwise_witness :
  exists items',
    JArray [JString "x"; JNumber 42] = JArray items'
    /\ List.length items' = 2%nat.
Proof.
  destruct (array_is_processed_elementwise mockRegistry defaultOptions ["list"]
              [JString "x"; JString "{{mock:number:42}}"]
              (JArray [JString "x"; JNumber 42]) eq_refl)
    as (items' & Heq & Hlen & _).
  exists items'. split; [exact Heq | exact Hlen].
Defined.

Lemma eachEntry_elementwise registry options (path : list string)
      (entries : list (string * JsonValue)) :
  forall processed r,
    distinct (map fst processed ++ map fst entries) = true ->
    inList "__proto__" (map fst entries) = false ->
    JsonProcessor.eachEntry (JsonProcessor.processNode registry options) path
                            entries processed = OK r ->
    exists entries',
      r = (processed ++ entries')%list
      /\ Forall2 (fun e e' =>
                    fst e' = fst e
                    /\ JsonProcessor.processNode registry options (snd e)
                         (path ++ [fst e])%list = OK (snd e'))
                 entries entries'.
Proof.
  induction entries as [|[key v0] entries IH];
    intros processed r Hdistinct Hproto Hr.
  - cbn [JsonProcessor.eachEntry] in Hr. injection Hr as <-. exists [].
    rewrite app_nil_r. split; [reflexivity | constructor].
  - cbn [JsonProcessor.eachEntry] in Hr.
    destruct (JsonProcessor.processNode registry options v0
                (path ++ [key])%list) as [v | e] eqn:Hentry;
      cbn [bind] in Hr; [| discriminate Hr].
    cbn [map fst] in Hdistinct, Hproto.
    apply distinct_app_cons in Hdistinct as [Hfresh Hdistinct].
    rewrite inList_cons in Hproto.
    apply orb_false_iff in Hproto as [Hkey Hproto].
    unfold JsonProcessor.assign in Hr. rewrite String.eqb_sym, Hkey in Hr.
    rewrite setProperty_fresh in Hr by exact Hfresh.
    destruct (IH (processed ++ [(key, v)])%list r) as (entries' & -> & Hall).
    + now rewrite map_app.
    + exact Hproto.
    + exact Hr.
    + exists ((key, v) :: entries'). rewrite <- app_assoc.
      split; [reflexivity |]. constructor; [| exact Hall].
      split; [reflexivity | exact Hentry].
Qed.

(** X24.  When processing an object with pairwise different keys, none of
    them [__proto__], succeeds, the result is an object with the same keys
    in the same order, the value under each key being the result of
    processing the value of that key under the path extended by the key. *)
Theorem object_keeps_keys_and_order registry options (path : list string)
        (entries : list (string * JsonValue)) (r : JsonValue) :
  distinct (map fst entries) = true ->
  inList "__proto__" (map fst entries) = false ->
  JsonProcessor.processNode registry options (JObject entries) path = OK r ->
  exists entries',
    r = JObject entries'
    /\ map fst entries' = map fst entries
    /\ Forall2 (fun e e' =>
                  fst e' = fst e
                  /\ JsonProcessor.processNode registry options (snd e)
                       (path ++ [fst e])%list = OK (snd e'))
               entries entries'.
Proof.
  intros Hdistinct Hproto Hr. cbn [JsonProcessor.processNode] in Hr.
  destruct (JsonProcessor.eachEntry (JsonProcessor.processNode registry options)
              path entries []) as [processed | e] eqn:Heach;
    cbn [bind] in Hr; [| discriminate Hr].
  injection Hr as <-.
  destruct (eachEntry_elementwise registry options path entries [] processed)
    as (entries' & -> & Hall); [exact Hdistinct | exact Hproto | exact Heach |].
  exists entries'. repeat split; [| exact Hall].
  clear Heach. induction Hall as [|e e' es es' [Hkey _] _ IH]; [reflexivity |].
  cbn [map]. rewrite Hkey, IH; [reflexivity | |].
  - cbn [map distinct] in Hdistinct. now apply andb_true_iff in Hdistinct.
  - cbn [map] in Hproto. rewrite inList_cons in Hproto.
    now apply orb_false_iff in Hproto.
Qed.

Lemma object_keeps_keys_and_order_witness :
  exists entries',
    JObject [("name", JString "x"); ("count", JNumber 42)] = JObject entries'
    /\ map fst entries' = ["name"; "count"].
Proof.
  destruct (object_keeps_keys_and_order mockRegistry defaultOptions []
              [("name", JString "x"); ("count", JString "{{mock:number:42}}")]
              (JObject [("name", JString "x"); ("count", JNumber 42)])
              eq_refl eq_refl eq_refl)
    as (entries' & Heq & Hkeys & _).
  exists entries'. split; [exact Heq | exact Hkeys].
Defined.

(** ** The parser's [replaceAll] on flat tokens *)

Lemma parser_loop_step (State : Type)
      (resolveFn : State -> string -> string * State) remaining result0
      previousResult state iterations :
  ParserReplaceAll.loop State resolveFn (S remaining) result0 previousResult
                        state iterations
  = if String.eqb result0 previousResult then (result0, state, iterations)
    else
      match findPlaceholders result0 with
      | [] => (result0, state, iterations)
      | placeholders =>
          let acc :=
            fold_left (ParserReplaceAll.replaceOne State resolveFn)
                      (ParserReplaceAll.sortPlaceholdersByPosition
                         result0 placeholders)
                      (result0, state) in
          ParserReplaceAll.loop State resolveFn remaining (fst acc) result0
                                (snd acc) (S iterations)
      end.
Proof. reflexivity. Qed.

Lemma parser_loop_exit (State : Type)
      (resolveFn : State -> string -> string * State) remaining result0
      previousResult state iterations :
  braceFree result0 = true ->
  ParserReplaceAll.loop State resolveFn remaining result0 previousResult
                        state iterations
  = (result0, state, iterations).
Proof.
  intros Hfree. destruct remaining; [reflexivity |]. rewrite parser_loop_step.
  destruct (String.eqb _ _); [reflexivity |].
  now rewrite findPlaceholders_braceFree.
Qed.

Lemma insertPlaceholder_In (content x y : string) (l : list string) :
  In y (ParserReplaceAll.insertPlaceholder content x l) <-> y = x \/ In y l.
Proof.
  induction l as [|z l IH]; cbn [ParserReplaceAll.insertPlaceholder In].
  - intuition congruence.
  - destruct (ParserReplaceAll.comparePlaceholders content x z <? 0);
      cbn [In]; [| rewrite IH]; intuition congruence.
Qed.

Lemma parser_sort_In (content : string) (l : list string) (y : string) :
  In y (ParserReplaceAll.sortPlaceholdersByPosition content l) <-> In y l.
Proof.
  unfold ParserReplaceAll.sortPlaceholdersByPosition.
  assert (H : forall acc,
             In y (fold_left
                     (fun sorted x =>
                        ParserReplaceAll.insertPlaceholder content x sorted)
                     l acc)
             <-> In y acc \/ In y l).
  { induction l as [|x l IH]; intros acc; cbn [fold_left In]; [tauto |].
    rewrite IH, insertPlaceholder_In. intuition congruence. }
  rewrite H. cbn [In]. tauto.
Qed.

Lemma parser_pass_flat (State : Type)
      (resolveFn : State -> string -> string * State)
      (value : string -> string) (before : string)
      (pieces : list (string * string)) :
  braceFree before = true ->
  flatPieces pieces = true ->
  (forall state b, In b (map fst pieces) ->
                   fst (resolveFn state (tokenOf b)) = value b) ->
  (forall b, In b (map fst pieces) ->
             braceFree (value b) = true /\ noDollar (value b) = true) ->
  forall order done state,
    (forall t, In t order -> exists b, t = tokenOf b /\ In b (map fst pieces)) ->
    exists done' state',
      fold_left (ParserReplaceAll.replaceOne State resolveFn) order
                (before ++ fillWith (shownAfter value done) pieces, state)
      = (before ++ fillWith (shownAfter value done') pieces, state')
      /\ forall b, In b done \/ In (tokenOf b) order -> In b done'.
Proof.
  intros Hbefore Hflat Hresolve Hvalues.
  induction order as [|t order IH]; intros done state Horder.
  - exists done, state. split; [reflexivity |]. now intros b [H | []].
  - destruct (Horder t (or_introl eq_refl)) as [b [-> Hin]].
    destruct (Hvalues b Hin) as (Hfree & Hdollar).
    pose proof (flatPieces_bodies pieces Hflat b Hin) as Hb.
    pose proof (Hresolve state b Hin) as Hfst.
    destruct (resolveFn state (tokenOf b)) as [resolved state1] eqn:Hcall.
    cbn [fst] in Hfst. subst resolved.
    destruct (IH (b :: done) state1) as (done' & state' & Hfold & Hdone').
    { intros t Ht. apply Horder. now right. }
    exists done', state'. split.
    + cbn [fold_left]. unfold ParserReplaceAll.replaceOne at 2.
      cbn [fst snd]. rewrite Hcall.
      rewrite (replaceAll_pieces value done b before pieces); try assumption.
      intros b1 Hb1. now apply Hvalues.
    + intros b1 [Hb1 | [Heq | Hb1]].
      * apply Hdone'. left. now right.
      * apply tokenOf_injective in Heq. subst b1. apply Hdone'. left. now left.
      * apply Hdone'. now right.
Qed.

(** X25.  On a content of brace-free stretches and flat tokens, with a
    resolver that gives each token a string without brace and without
    dollar sign, the parser's [replaceAll] returns the content with every
    occurrence of every token replaced by that string. *)
Theorem parser_replaceAll_flat_tokens (State : Type)
        (resolveFn : State -> string -> string * State)
        (value : string -> string) (before : string)
        (pieces : list (string * string)) (state : State) :
  braceFree before = true ->
  flatPieces pieces = true ->
  (forall state' b, In b (map fst pieces) ->
                    fst (resolveFn state' (tokenOf b)) = value b) ->
  (forall b, In b (map fst pieces) ->
             braceFree (value b) = true /\ noDollar (value b) = true) ->
  fst (ParserReplaceAll.replaceAll State resolveFn (before ++ fill pieces) state)
  = before ++ fillWith value pieces.
Proof.
  intros Hbefore Hflat Hresolve Hvalues.
  pose proof (findPlaceholders_fill before pieces Hbefore Hflat) as Hfind.
  assert (Hfinal : braceFree (before ++ fillWith value pieces) = true).
  { rewrite braceFree_app, Hbefore, braceFree_fillWith; [reflexivity | | exact Hflat].
    intros b Hin. now apply Hvalues. }
  unfold ParserReplaceAll.replaceAll, ParserReplaceAll.maxIterations.
  rewrite parser_loop_step.
  destruct (distinctOf (map tokenOf (map fst pieces))) as [|t ts] eqn:Hdistinct.
  - destruct pieces as [|[b text] pieces].
    + destruct (String.eqb _ _); [reflexivity |]. now rewrite Hfind.
    + exfalso.
      assert (Hin : In (tokenOf b)
                       (distinctOf (map tokenOf (map fst ((b, text) :: pieces)))))
        by (apply distinctOf_In; now left).
      rewrite Hdistinct in Hin. exact Hin.
  - destruct (String.eqb_spec (before ++ fill pieces) "") as [Hempty | _].
    { rewrite Hempty in Hfind. discriminate Hfind. }
    rewrite Hfind. cbv iota beta zeta.
    destruct (parser_pass_flat State resolveFn value before pieces
                Hbefore Hflat Hresolve Hvalues
                (ParserReplaceAll.sortPlaceholdersByPosition
                   (before ++ fill pieces) (t :: ts)) [] state)
      as (done' & state' & Hpass & Hdone').
    { intros t' Ht'. apply parser_sort_In in Ht'. rewrite <- Hdistinct in Ht'.
      apply distinctOf_In, in_map_iff in Ht' as [b [<- Hb]]. eauto. }
    change (fillWith (shownAfter value []) pieces) with (fill pieces) in Hpass.
    rewrite Hpass. cbn [fst snd].
    rewrite (fillWith_ext (shownAfter value done') value).
    + now rewrite parser_loop_exit.
    + intros b Hb. unfold shownAfter.
      assert (Hin : In b done').
      { apply Hdone'. right. apply parser_sort_In.
        rewrite <- Hdistinct. apply distinctOf_In, in_map_iff. eauto. }
      apply inList_In in Hin. now rewrite Hin.
Qed.

Lemma parser_replaceAll_flat_tokens_witness :
  fst (ParserReplaceAll.replaceAll nat (fun calls _ => ("X", S calls))
         "a {{p:q}} b {{r:s}} c {{p:q}}" 0%nat)
  = "a X b X c X".
Proof.
  apply (parser_replaceAll_flat_tokens nat (fun calls _ => ("X", S calls))
           (fun _ => "X") "a "
           [("p:q", " b "); ("r:s", " c "); ("p:q", "")] 0%nat).
  - reflexivity.
  - reflexivity.
  - reflexivity.
  - intros b _. now split.
Defined.

(** * Nested tokens *)

(** ** Substrings *)

Lemma prefix_spec (p : string) :
  forall s, prefix p s = true <-> exists post, s = p ++ post.
Proof.
  induction p as [|c p IH]; intros s.
  - split; [intros _; now exists s | intros _; now destruct s].
  - destruct s as [|d s]; cbn [prefix append].
    + split; [discriminate | intros [post H]; discriminate H].
    + destruct (ascii_dec c d) as [-> | Hne].
      * rewrite IH. split; intros [post H]; exists post.
        -- now rewrite H.
        -- now injection H.
      * split; [discriminate |]. intros [post H]. injection H as H _.
        now elim Hne.
Qed.

Lemma indexOfFrom_lower (p s : string) :
  forall i, 0 <= i -> indexOfFrom s p i = -1 \/ i <= indexOfFrom s p i.
Proof.
  induction s as [|c s IH]; intros i Hi; rewrite indexOfFrom_eq.
  - destruct (prefix p ""); [right; lia | now left].
  - destruct (prefix p (String c s)); [right; lia |].
    destruct (IH (i + 1)) as [-> | Hle]; [lia | now left | right; lia].
Qed.

(** [includes] decides [occursIn]. *)
Lemma includes_occursIn (s p : string) :
  includes s p = true <-> occursIn p s.
Proof.
  unfold includes, indexOf, occursIn. rewrite Z.leb_le.
  assert (Hfound : forall t i, 0 <= i -> 0 <= indexOfFrom t p i ->
                               exists pre post, t = pre ++ p ++ post).
  { induction t as [|c t IH]; intros i Hi Hfound;
      rewrite indexOfFrom_eq in Hfound.
    - destruct (prefix p "") eqn:Hp; [| lia].
      apply prefix_spec in Hp as [post Hpost]. now exists "", post.
    - destruct (prefix p (String c t)) eqn:Hp.
      + apply prefix_spec in Hp as [post Hpost]. now exists "", post.
      + destruct (IH (i + 1)) as (pre & post & Heq); [lia | exact Hfound |].
        exists (String c pre), post. cbn [append]. now rewrite Heq. }
  assert (Hoccurs : forall pre post i, 0 <= i ->
                                       0 <= indexOfFrom (pre ++ p ++ post) p i).
  { induction pre as [|c pre IH]; intros post i Hi; rewrite indexOfFrom_eq.
    - cbn [append]. rewrite prefix_app. exact Hi.
    - destruct (prefix p (String c pre ++ p ++ post)); [exact Hi |].
      cbn [append]. apply IH. lia. }
  split.
  - apply (Hfound s 0). lia.
  - intros (pre & post & ->). apply Hoccurs. lia.
Qed.

(** The test of the loop, [containsOthers], says that the token is not
    innermost. *)
Lemma containsOthers_spec (current : list string) (p : string) :
  JsonProcessor.containsOthers current p = false <-> innermostIn current p.
Proof.
  unfold JsonProcessor.containsOthers, innermostIn. split.
  - intros Hnone other Hin Hne Hoccurs.
    assert (Hsome : existsb (fun other0 => negb (String.eqb other0 p)
                                           && includes p other0) current = true).
    { apply existsb_exists. exists other. split; [exact Hin |].
      apply andb_true_iff. split.
      - now apply negb_true_iff, String.eqb_neq.
      - now apply includes_occursIn. }
    rewrite Hsome in Hnone. discriminate Hnone.
  - intros Hinner.
    destruct (existsb _ current) eqn:E; [| reflexivity].
    apply existsb_exists in E as [other [Hin Hother]].
    apply andb_true_iff in Hother as [Hne Hincl].
    apply negb_true_iff, String.eqb_neq in Hne.
    apply includes_occursIn in Hincl. now elim (Hinner other Hin Hne).
Qed.

Lemma passStep_innermost registry options path isPure current state p :
  innermostIn current p ->
  JsonProcessor.passStep registry options path isPure current state p
  = JsonProcessor.resolveAndReplace registry options path isPure current
      state p.
Proof.
  intros H. unfold JsonProcessor.passStep.
  now rewrite (proj2 (containsOthers_spec current p) H).
Qed.



(** ** One token inside another *)

























(** * A failing token ends the call *)

Lemma foldM_fails {S : Type} (f : S -> string -> result S) (x : string) :
  (forall s, exists e, f s x = Err e) ->
  forall xs s, In x xs -> exists e, foldM f xs s = Err e.
Proof.
  intros Hx. induction xs as [|y xs IH]; intros s Hin; [contradiction |].
  cbn [foldM]. destruct (f s y) as [s1 | e1] eqn:Hy; cbn [bind].
  - destruct Hin as [-> | Hin]; [| now apply IH].
    destruct (Hx s) as [e He]. rewrite He in Hy. discriminate Hy.
  - now exists e1.
Qed.

Lemma foldM_first_error {S : Type} (f : S -> string -> result S) (x : string)
      (e : string) :
  (forall s, f s x = Err e) ->
  forall xs s,
    In x xs ->
    (forall y, In y xs -> y <> x -> forall s', exists s'', f s' y = OK s'') ->
    foldM f xs s = Err e.
Proof.
  intros Hx. induction xs as [|y xs IH]; intros s Hin Hothers; [contradiction |].
  cbn [foldM]. destruct (string_dec y x) as [-> | Hne].
  - now rewrite Hx.
  - destruct (Hothers y (or_introl eq_refl) Hne s) as [s1 Hy].
    rewrite Hy. cbn [bind]. apply IH.
    + destruct Hin as [Heq | Hin]; [now elim Hne | exact Hin].
    + intros z Hz. apply Hothers. now right.
Qed.

Lemma findPlaceholders_empty_content (text : string) (t : string) :
  In t (findPlaceholders text) -> String.eqb text "" = false.
Proof.
  intros Hin. destruct (String.eqb_spec text "") as [-> | _]; [| reflexivity].
  contradiction.
Qed.

(** Text mode: the first pass resolves every found token in turn, so a
    found token that fails to resolve fails the call. *)
Lemma text_found_token_fails registry options (text token : string) e :
  TextProcessor.resolvePlaceholder registry options token = Err e ->
  In token (findPlaceholders text) ->
  (exists e', TextProcessor.process registry options text = Err e')
  /\ ((forall t, In t (findPlaceholders text) -> t <> token ->
                 exists s, TextProcessor.resolvePlaceholder registry options t
                           = OK s) ->
      TextProcessor.process registry options text = Err e).
Proof.
  intros Htoken Hin.
  assert (Hstep : forall s, TextProcessor.replaceOne registry options s token
                            = Err e).
  { intros s. unfold TextProcessor.replaceOne. now rewrite Htoken. }
  unfold TextProcessor.process, TextProcessor.maxIterations.
  rewrite text_loop_step, (findPlaceholders_empty_content text token Hin).
  destruct (findPlaceholders text) as [|t ts] eqn:Hfound; [contradiction |].
  split.
  - destruct (foldM_fails (TextProcessor.replaceOne registry options) token)
      with (xs := t :: ts) (s := text) as [e' He'];
      [intros s; exists e; apply Hstep | exact Hin |].
    exists e'. now rewrite He'.
  - intros Hothers.
    rewrite (foldM_first_error (TextProcessor.replaceOne registry options)
               token e Hstep); [reflexivity | exact Hin |].
    intros y Hy Hne s. destruct (Hothers y Hy Hne) as [r Hr].
    unfold TextProcessor.replaceOne. rewrite Hr. cbn [bind]. eauto.
Qed.

(** JSON mode, the loop: a found token that contains no other found token
    is resolved in the first pass, so its failure fails the leaf. *)
Lemma json_found_token_fails registry options path (leaf token : string) e :
  JsonProcessor.resolvePlaceholder registry options token path = Err e ->
  isPlaceholder leaf && (List.length (findPlaceholders leaf) =? 1)%nat = false ->
  In token (findPlaceholders leaf) ->
  innermostIn (findPlaceholders leaf) token ->
  (exists e', JsonProcessor.processStringValue registry options leaf path
              = Err e')
  /\ ((forall t, In t (findPlaceholders leaf) -> t <> token ->
                 innermostIn (findPlaceholders leaf) t ->
                 exists v, JsonProcessor.resolvePlaceholder registry options t
                             path = OK v) ->
      JsonProcessor.processStringValue registry options leaf path = Err e).
Proof.
  intros Htoken Hbranch Hin Hinner.
  set (step := JsonProcessor.passStep registry options path
                 (isPlaceholder leaf) (findPlaceholders leaf)).
  assert (Hstep : forall state, step state token = Err e).
  { intros state. unfold step. rewrite passStep_innermost by exact Hinner.
    unfold JsonProcessor.resolveAndReplace. destruct state as [s l].
    now rewrite Htoken. }
  assert (Hsorted : In token (JsonProcessor.sortPlaceholdersByPosition
                                leaf (findPlaceholders leaf)))
    by now apply sortPlaceholdersByPosition_In.
  assert (Hleaf : forall e',
             foldM step (JsonProcessor.sortPlaceholdersByPosition
                           leaf (findPlaceholders leaf)) (leaf, JNull)
             = Err e' ->
             JsonProcessor.processStringValue registry options leaf path
             = Err e').
  { intros e' Hpass. unfold step in Hpass. clear Hstep Hsorted.
    unfold JsonProcessor.processStringValue. cbv zeta.
    rewrite Hbranch. unfold JsonProcessor.maxIterations.
    rewrite json_loop_step, (findPlaceholders_empty_content leaf token Hin).
    unfold JsonProcessor.pass. cbn [fst]. clear step.
    destruct (findPlaceholders leaf) as [|t ts]; [contradiction |].
    cbv iota beta. now rewrite Hpass. }
  split.
  - destruct (foldM_fails step token) with
      (xs := JsonProcessor.sortPlaceholdersByPosition leaf (findPlaceholders leaf))
      (s := (leaf, JNull)) as [e' He'];
      [intros s; exists e; apply Hstep | exact Hsorted |].
    exists e'. now apply Hleaf.
  - intros Hothers. apply Hleaf.
    apply (foldM_first_error step token e Hstep); [exact Hsorted |].
    intros y Hy Hne [s l]. apply sortPlaceholdersByPosition_In in Hy.
    unfold step, JsonProcessor.passStep.
    destruct (JsonProcessor.containsOthers (findPlaceholders leaf) y) eqn:E;
      [eauto |].
    apply containsOthers_spec in E.
    destruct (Hothers y Hy Hne E) as [v Hv].
    unfold JsonProcessor.resolveAndReplace. rewrite Hv. cbn [bind]. eauto.
Qed.

(** A failing leaf fails the document. *)
Lemma failing_leaf_fails_document registry options (doc : JsonValue)
      before path leaf after e :
  stringLeaves doc [] = (before ++ (path, leaf) :: after)%list ->
  JsonProcessor.processStringValue registry options leaf path = Err e ->
  (exists e', JsonProcessor.process registry options doc = Err e')
  /\ (firstFailure registry options before = None ->
      JsonProcessor.process registry options doc = Err e).
Proof.
  intros Hleaves Hleaf.
  pose proof (processNode_failure registry options doc []) as Hfail.
  rewrite Hleaves, firstFailure_app in Hfail. cbn [firstFailure] in Hfail.
  rewrite Hleaf in Hfail. unfold JsonProcessor.process.
  destruct (JsonProcessor.processNode registry options doc []) as [r | e0];
    cbn [failureOf] in Hfail.
  - destruct (firstFailure registry options before); discriminate Hfail.
  - split; [now exists e0 |]. intros Hbefore. rewrite Hbefore in Hfail.
    now injection Hfail as ->.
Qed.

(** C5.  Resolving a token whose module passes the filters and is not
    registered fails in both processors.  The message names the module,
    lists the registered plugin names (or says none), carries the token and,
    in JSON mode, the path.  The failure ends the whole call, wherever the
    token stands.  A text in which the token is found fails, with that
    message when the other found tokens resolve.  A JSON leaf fails when it
    is the token, and when the token is found in it and contains no other
    found token (text around it, other tokens beside it, or a token around
    it), with that message when the other innermost found tokens resolve.
    A document fails when one of its leaves fails, with the error of that
    leaf when no earlier leaf fails.  In a path an array index is written
    in square brackets: the leaf at index 1 of the array [items] is at
    [items.[1]]. *)
Theorem unknown_module_fails :
  (forall registry options token parsed,
      parse token = OK parsed ->
      notIncluded options (module parsed) = false ->
      excluded options (module parsed) = false ->
      PluginRegistry.mapGet (PluginRegistry.plugins registry) (module parsed)
      = None ->
      let notFound :=
        "Plugin '" ++ module parsed ++ "' not found. Available plugins: "
          ++ PluginRegistry.orNone
               (join ", " (PluginRegistry.getPluginNames registry)) in
      let jsonMessage path :=
        "Failed to resolve placeholder " ++ quote ++ token ++ quote
          ++ " at path " ++ quote ++ join "." path ++ quote ++ ": "
          ++ notFound in
      let textMessage :=
        "Failed to resolve placeholder " ++ quote ++ token ++ quote ++ ": "
          ++ notFound in
      (forall path,
          JsonProcessor.resolvePlaceholder registry options token path
          = Err (jsonMessage path))
      /\ TextProcessor.resolvePlaceholder registry options token
         = Err textMessage
      /\ (forall text,
             In token (findPlaceholders text) ->
             (exists e, TextProcessor.process registry options text = Err e)
             /\ ((forall t, In t (findPlaceholders text) -> t <> token ->
                            exists s,
                              TextProcessor.resolvePlaceholder registry options t
                              = OK s) ->
                 TextProcessor.process registry options text = Err textMessage))
      /\ (forall path,
             isPlaceholder token = true ->
             List.length (findPlaceholders token) = 1%nat ->
             JsonProcessor.processStringValue registry options token path
             = Err (jsonMessage path))
      /\ (forall leaf path,
             isPlaceholder leaf
             && (List.length (findPlaceholders leaf) =? 1)%nat = false ->
             In token (findPlaceholders leaf) ->
             innermostIn (findPlaceholders leaf) token ->
             (exists e,
                 JsonProcessor.processStringValue registry options leaf path
                 = Err e)
             /\ ((forall t, In t (findPlaceholders leaf) -> t <> token ->
                            innermostIn (findPlaceholders leaf) t ->
                            exists v,
                              JsonProcessor.resolvePlaceholder registry options
                                t path = OK v) ->
                 JsonProcessor.processStringValue registry options leaf path
                 = Err (jsonMessage path)))
      /\ (forall doc before path leaf after e,
             stringLeaves doc [] = (before ++ (path, leaf) :: after)%list ->
             JsonProcessor.processStringValue registry options leaf path
             = Err e ->
             (exists e', JsonProcessor.process registry options doc = Err e')
             /\ (firstFailure registry options before = None ->
                 JsonProcessor.process registry options doc = Err e)))
  /\ JsonProcessor.process mockRegistry defaultOptions
       (JObject [("id", JNumber 7);
                 ("items", JArray [JString "ok";
                                   JString "Hello {{unknown:x:y}}!"])])
     = Err ("Failed to resolve placeholder " ++ quote ++ "{{unknown:x:y}}"
              ++ quote ++ " at path " ++ quote ++ "items.[1]" ++ quote
              ++ ": Plugin 'unknown' not found. Available plugins: mock").
Proof.
  split; [| vm_compute; reflexivity].
  intros registry options token parsed Hparse Hinc Hexc Hmissing
         notFound jsonMessage textMessage.
  assert (Hjson : forall path,
             JsonProcessor.resolvePlaceholder registry options token path
             = Err (jsonMessage path)).
  { intros path.
    unfold JsonProcessor.resolvePlaceholder, tryResolve, resolveWithPlugin,
      PluginRegistry.getPlugin.
    rewrite Hparse. cbn [bind]. rewrite Hinc, Hexc, Hmissing. reflexivity. }
  assert (Htext : TextProcessor.resolvePlaceholder registry options token
                  = Err textMessage).
  { unfold TextProcessor.resolvePlaceholder, resolveWithPlugin,
      PluginRegistry.getPlugin.
    rewrite Hparse. cbn [bind]. rewrite Hinc, Hexc, Hmissing. reflexivity. }
  split; [exact Hjson |]. split; [exact Htext |]. split; [| split; [| split]].
  - intros text Hin. now apply text_found_token_fails.
  - intros path Hpure Hone. unfold JsonProcessor.processStringValue.
    rewrite Hpure, Hone. cbn [Nat.eqb andb].
    destruct (findPlaceholders token); [discriminate Hone | apply Hjson].
  - intros leaf path Hbranch Hin Hinner.
    now apply json_found_token_fails.
  - intros doc before path leaf after e.
    apply failing_leaf_fails_document.
Qed.

Lemma unknown_module_fails_witness :
  JsonProcessor.process mockRegistry defaultOptions
    (JObject [("id", JNumber 7);
              ("rows", JArray [JString "{{mock:echo:a}} and {{unknown:x:y}}"])])
  = Err ("Failed to resolve placeholder " ++ quote ++ "{{unknown:x:y}}"
           ++ quote ++ " at path " ++ quote ++ "rows.[0]" ++ quote
           ++ ": Plugin 'unknown' not found. Available plugins: mock").
Proof.
  destruct unknown_module_fails as [Hgeneral _].
  destruct (Hgeneral mockRegistry defaultOptions "{{unknown:x:y}}" _
              eq_refl eq_refl eq_refl eq_refl)
    as (_ & _ & _ & _ & Hleaf & Hdocument).
  destruct (Hleaf "{{mock:echo:a}} and {{unknown:x:y}}" ["rows"; "[0]"])
    as [_ Hexact].
  - reflexivity.
  - vm_compute. right. now left.
  - intros other Hother Hne Hoccurs. apply includes_occursIn in Hoccurs.
    vm_compute in Hother. destruct Hother as [<- | [<- | []]];
      [vm_compute in Hoccurs; discriminate Hoccurs | now elim Hne].
  - destruct (Hdocument
                (JObject [("id", JNumber 7);
                          ("rows",
                           JArray [JString "{{mock:echo:a}} and {{unknown:x:y}}"])])
                [] ["rows"; "[0]"] "{{mock:echo:a}} and {{unknown:x:y}}" []
                ("Failed to resolve placeholder " ++ quote ++ "{{unknown:x:y}}"
                   ++ quote ++ " at path " ++ quote ++ "rows.[0]" ++ quote
                   ++ ": Plugin 'unknown' not found. Available plugins: mock"))
      as [_ Hdoc].
    + reflexivity.
    + apply Hexact. intros t Ht Hne _. vm_compute in Ht.
      destruct Ht as [<- | [<- | []]]; [| now elim Hne].
      exists (JString "a"). vm_compute. reflexivity.
    + apply Hdoc. reflexivity.
Defined.

(** * A filtered token with a dollar pattern *)

(** C4, at the failing input.  With [includePlugins = ["gen"]] the token
    [{{time:calc:0:$$}}] is filtered out: in both processors its resolution
    returns the token itself and raises no error, whatever the registry.
    The processors then write that string back with [replace] and
    [replaceAll], which read [$$] in the replacement as an escaped dollar
    sign: the text comes back as [{{time:calc:0:$}}], and so does the token
    inside the JSON leaf [at {{time:calc:0:$$}} now].  The token does not
    stay verbatim in the output. *)
Theorem filtered_token_with_dollar_is_altered registry path :
  let options := {| includePlugins := Some ["gen"];
                    excludePlugins := None;
                    context := None |} in
  TextProcessor.resolvePlaceholder registry options "{{time:calc:0:$$}}"
  = OK "{{time:calc:0:$$}}"
  /\ JsonProcessor.resolvePlaceholder registry options "{{time:calc:0:$$}}" path
     = OK (JString "{{time:calc:0:$$}}")
  /\ TextProcessor.process registry options "{{time:calc:0:$$}}"
     = OK "{{time:calc:0:$}}"
  /\ JsonProcessor.processStringValue registry options
       "at {{time:calc:0:$$}} now" path
     = OK (JString "at {{time:calc:0:$}} now").
Proof. repeat split; vm_compute; reflexivity. Qed.

(** * The time plugin *)


